(** * Clementine: the Spotify blob downloader

    A shallow embedding of [src/internet/spotifyblobdownloader.cpp]: the
    object state of [SpotifyBlobDownloader], the file system and the dialogs
    it acts on, and its slots [Start], [ReplyFinished], [ReplyProgress],
    [Cancel], [ShowError] and [EmitFinished]. *)

From Stdlib Require Import ZArith Ascii String.
From stdpp Require Import gmap strings list fin_maps.

Local Open Scope string_scope.
Local Open Scope list_scope.

(** ** QString operations used by the downloader *)

Module QString.

(** [QString::endsWith(suffix)]: some tail of [s] is [suffix]. *)
Fixpoint endsWith (s suffix : string) : bool :=
  if String.eqb s suffix then true
  else match s with
       | EmptyString => false
       | String _ s' => endsWith s' suffix
       end.

(** [QString::mid(i)]: the string from position [i] on. *)
Fixpoint mid (s : string) (i : nat) : string :=
  match i, s with
  | S i', String _ s' => mid s' i'
  | _, _ => s
  end.

(** [QString::left(n)]: the first [n] characters. *)
Fixpoint left (s : string) (n : nat) : string :=
  match n, s with
  | S n', String c s' => String c (left s' n')
  | _, _ => EmptyString
  end.

(** [pattern] occurs in [s] at position [i]. *)
Definition occurs_at (pattern s : string) (i : nat) : bool :=
  String.prefix pattern (mid s i).

(** The scan of [QString::remove(const QString&)]: left to right, every
    occurrence of [pattern] is dropped and the scan goes on behind it.
    [skip] counts the characters of an occurrence still to drop. *)
Fixpoint remove_from (pattern s : string) (skip : nat) : string :=
  match s with
  | EmptyString => EmptyString
  | String c s' =>
      match skip with
      | S k => remove_from pattern s' k
      | O =>
          if String.prefix pattern s
          then remove_from pattern s' (String.length pattern - 1)
          else String c (remove_from pattern s' 0)
      end
  end.

(** [QString::remove(pattern)]: an empty pattern removes nothing. *)
Definition remove (s pattern : string) : string :=
  match pattern with
  | EmptyString => s
  | String _ _ => remove_from pattern s 0
  end.

(** The scan of [QString::section('/', -1, -1)]: [acc] is the field read
    since the last separator. *)
Fixpoint last_field (sep : ascii) (s acc : string) : string :=
  match s with
  | EmptyString => acc
  | String c s' =>
      if Ascii.eqb c sep then last_field sep s' EmptyString
      else last_field sep s' (acc +:+ String c EmptyString)
  end.

(** [QString::section(sep, -1, -1)]: the last field of [s]. *)
Definition section_last (s : string) (sep : ascii) : string :=
  last_field sep s EmptyString.

(** [QString::contains(QChar)] *)
Fixpoint contains (s : string) (c : ascii) : bool :=
  match s with
  | EmptyString => false
  | String x s' => Ascii.eqb x c || contains s' c
  end.


End QString.

(** ** Data model *)

(** A [QByteArray] is a sequence of bytes, read here one character a byte. *)
Abbreviation QByteArray := string (only parsing).

(** A file on disk: its bytes and its [QFile::Permissions] flags. *)
Record File := mkFile {
  content : QByteArray;
  permissions : Z;
}.

(** What the downloader reads from and does to a [QNetworkReply].
    [error] is [None] for [QNetworkReply::NoError] and carries
    [errorString()] otherwise; [content_length] is the number written in the
    [Content-Length] raw header, [None] when the header is absent or holds no
    number; [body] is what [readAll()] hands over; [connected] says whether
    the reply's signals still reach the downloader's slots. *)
Record Reply := mkReply {
  url : string;
  isFinished : bool;
  error : option string;
  bytesAvailable : Z;
  content_length : option Z;
  body : QByteArray;
  connected : bool;
  aborted : bool;
}.

(** The downloader object ([version_], [path_], [replies_], and whether
    [deleteLater()] was called on it) together with the disk it works on. *)
Record World := mkWorld {
  version_ : string;
  path_ : string;
  replies_ : list Reply;
  deleted : bool;
  files : gmap string File;
  dirs : gset string;
}.

(** Calls that leave the object, in the order they are made. *)
Inductive Event :=
| EvGet (u : string)                          (* network_->get(url) *)
| EvShowProgress                              (* progress_->show() *)
| EvSetMaximum (total : Z)                    (* progress_->setMaximum *)
| EvSetValue (progress : Z)                   (* progress_->setValue *)
| EvMakeTempDir (dir : string)                (* Utilities::MakeTempDir *)
| EvSave (path : string)                      (* a staged file written *)
| EvVerify (filename signature_filename : string) (ok : bool)
| EvMkpath (dir : string)                     (* QDir().mkpath *)
| EvRename (source_path dest_path : string)   (* a QFile::rename that succeeded *)
| EvRemoveRecursive (dir : string)            (* Utilities::RemoveRecursive *)
| EvWarning (message : string)                (* QMessageBox::warning *)
| EvFinished.                                 (* emit Finished() *)

(** The terminal reports: the warning box is the failure report, the
    [Finished] signal the success report. *)
Definition is_report (e : Event) : bool :=
  match e with EvWarning _ | EvFinished => true | _ => false end.

Definition is_verify (e : Event) : bool :=
  match e with EvVerify _ _ _ => true | _ => false end.

Definition is_rename (e : Event) : bool :=
  match e with EvRename _ _ => true | _ => false end.

(** Operations that act on the destination directory. *)
Definition touches_destination (e : Event) : bool :=
  match e with EvMkpath _ | EvRename _ _ => true | _ => false end.

(** Events that are no report, no signature check and no operation on the
    destination directory. *)
Definition quiet (e : Event) : bool :=
  negb (is_report e || is_verify e || touches_destination e).

Definition set_replies (replies : list Reply) (w : World) : World :=
  mkWorld (version_ w) (path_ w) replies (deleted w) (files w) (dirs w).

Definition set_deleted (w : World) : World :=
  mkWorld (version_ w) (path_ w) (replies_ w) true (files w) (dirs w).

Definition set_files (fs : gmap string File) (w : World) : World :=
  mkWorld (version_ w) (path_ w) (replies_ w) (deleted w) fs (dirs w).

Definition set_dirs (ds : gset string) (w : World) : World :=
  mkWorld (version_ w) (path_ w) (replies_ w) (deleted w) (files w) ds.

(** ** Slots: state passing with early [return] *)

(** A slot body either goes on with a value or has hit a [return]. *)
Inductive Flow (A : Type) :=
| Next (a : A)
| Returned.
Arguments Next {A} a.
Arguments Returned {A}.

Definition Slot (A : Type) : Type := World -> Flow A * World * list Event.

Definition ret {A} (a : A) : Slot A := fun w => (Next a, w, []).

Definition bind {A B} (m : Slot A) (k : A -> Slot B) : Slot B :=
  fun w =>
    match m w with
    | (Next a, w1, evs1) =>
        match k a w1 with
        | (r, w2, evs2) => (r, w2, evs1 ++ evs2)
        end
    | (Returned, w1, evs1) => (Returned, w1, evs1)
    end.

Definition return_ {A} : Slot A := fun w => (Returned, w, []).
Definition gets {A} (f : World -> A) : Slot A := fun w => (Next (f w), w, []).
Definition modify (f : World -> World) : Slot unit := fun w => (Next tt, f w, []).
Definition emit (e : Event) : Slot unit := fun w => (Next tt, w, [e]).

Declare Scope slot_scope.
Delimit Scope slot_scope with slot.
Bind Scope slot_scope with Slot.
Notation "x <- m ;; k" := (bind m (fun x => k))
  (at level 100, m at next level, right associativity) : slot_scope.
Notation "m ;; k" := (bind m (fun _ => k))
  (at level 100, right associativity) : slot_scope.
Local Open Scope slot_scope.

(** The world and the events a slot leaves behind. *)
Definition world_of {A} (r : Flow A * World * list Event) : World := snd (fst r).
Definition events_of {A} (r : Flow A * World * list Event) : list Event := snd r.
Definition flow_of {A} (r : Flow A * World * list Event) : Flow A := fst (fst r).

(** ** The downloader *)

(** [const char* SpotifyBlobDownloader::kSignatureSuffix] *)
Definition kSignatureSuffix : string := ".sha1".

(** The libraries the downloader is written against: the constant
    [SpotifyService::kBlobDownloadUrl] (declared in spotifyservice.h),
    [QUrl::path()] of the URL written as a given string, and [QCA::PublicKey]
    with its [verifyMessage(message, signature, QCA::EMSA3_SHA1)]. *)
Class Platform := mkPlatform {
  kBlobDownloadUrl : string;
  url_path : string -> string;
  PublicKey : Type;
  verifyMessage : PublicKey -> QByteArray -> QByteArray -> bool;
}.

(** What the environment answers in one run of a slot: the directory
    [Utilities::MakeTempDir()] hands out, the key
    [QCA::PublicKey::fromPEMFile] converts ([None] unless [ConvertGood]),
    whether [QFile::open] and [QFile::rename] are let through, and what
    [QDir::mkpath] does for a path: [None] when it fails, else the parent
    directories it had to make on the way. *)
Record Env `{Platform} := mkEnv {
  temp_dir : string;
  public_key : option PublicKey;
  can_write : string -> bool;
  can_read : string -> bool;
  can_rename : string -> string -> bool;
  mkpath : string -> option (gset string);
}.

(** [reply->abort()]: a reply still in flight finishes with
    [OperationCanceledError]; a finished one is left as it is. *)
Definition abort (r : Reply) : Reply :=
  if isFinished r then r
  else mkReply (url r) true (Some "Operation canceled") (bytesAvailable r)
         (content_length r) (body r) (connected r) true.

(** [disconnect(reply, 0, this, 0)] *)
Definition disconnect (r : Reply) : Reply :=
  mkReply (url r) (isFinished r) (error r) (bytesAvailable r)
    (content_length r) (body r) false (aborted r).

(** The reply [network_->get] hands back for [u]. *)
Definition new_reply (u : string) : Reply :=
  mkReply u false None 0 None "" true false.

(** [int]: 32 bits, two's complement. *)
Definition INT_MIN : Z := - 2 ^ 31.
Definition INT_MAX : Z := 2 ^ 31 - 1.

(** [qint64]: 64 bits, two's complement. *)
Definition INT64_MIN : Z := - 2 ^ 63.
Definition INT64_MAX : Z := 2 ^ 63 - 1.

Definition fits_int (z : Z) : bool := (INT_MIN <=? z)%Z && (z <=? INT_MAX)%Z.
Definition fits_qint64 (z : Z) : bool := (INT64_MIN <=? z)%Z && (z <=? INT64_MAX)%Z.

(** Conversion of a wider integer to [int]: the value modulo 2^32, as
    C++20 has it and as the compilers Qt is built with did before. *)
Definition to_int (z : Z) : Z := (z + 2 ^ 31) mod 2 ^ 32 - 2 ^ 31.

(** [QByteArray::toInt()] on the [Content-Length] header: 0 when the
    conversion fails, which it does on a missing header, on text that is no
    number and on a number outside [int]. *)
Definition toInt (header : option Z) : Z :=
  match header with
  | Some n => if (INT_MIN <=? n)%Z && (n <=? INT_MAX)%Z then n else 0
  | None => 0
  end.

Section Downloader.

Context `{Platform} (env : Env).

(** [void QObject::deleteLater()] *)
Definition deleteLater : Slot unit := modify set_deleted.

(** [SpotifyBlobDownloader::ShowError] *)
Definition ShowError (message : string) : Slot unit :=
  modify (fun w => set_replies (map (fun reply => abort (disconnect reply)) (replies_ w)) w) ;;
  emit (EvWarning message) ;;
  deleteLater.

(** [SpotifyBlobDownloader::EmitFinished] *)
Definition EmitFinished : Slot unit :=
  emit EvFinished ;;
  deleteLater.

(** [SpotifyBlobDownloader::Cancel] *)
Definition Cancel : Slot unit := deleteLater.

(** The list [filenames] of [Start]. *)
Definition filenames : list string :=
  ["blob"; "blob" +:+ kSignatureSuffix; "libspotify.so.8"].

(** The URL [Start] asks for [filename]. *)
Definition download_url (version filename : string) : string :=
  ((kBlobDownloadUrl +:+ version) +:+ "/") +:+ filename.

(** The [foreach] of [Start]: one request a file name, appended to
    [replies_]. *)
Fixpoint get_files (names : list string) : Slot unit :=
  match names with
  | [] => ret tt
  | filename :: rest =>
      version <- gets version_ ;;
      let u := download_url version filename in
      emit (EvGet u) ;;
      modify (fun w => set_replies (replies_ w ++ [new_reply u]) w) ;;
      get_files rest
  end.

(** [SpotifyBlobDownloader::Start] *)
Definition Start : Slot unit :=
  modify (set_replies []) ;;
  get_files filenames ;;
  emit EvShowProgress.

(** [reply->url().path().section('/', -1, -1)] *)
Definition filename_of (reply : Reply) : string :=
  QString.section_last (url_path (url reply)) "/".

(** Modelled from the spec: [Utilities::MakeTempDir] (core/utilities.cpp is
    not part of the sources at hand) creates a fresh temporary directory and
    returns its path. *)
Definition MakeTempDir : Slot string :=
  modify (fun w => set_dirs ({[temp_dir env]} ∪ dirs w) w) ;;
  emit (EvMakeTempDir (temp_dir env)) ;;
  ret (temp_dir env).

(** Whether [p] lies below directory [dir]. *)
Definition below (dir p : string) : bool := String.prefix (dir +:+ "/") p.

(** Modelled from the spec: [Utilities::RemoveRecursive] (core/utilities.cpp
    is not part of the sources at hand) deletes the directory and all that
    is below it, files and directories. *)
Definition RemoveRecursive (dir : string) : Slot unit :=
  modify (fun w =>
    set_dirs (filter (fun d => d <> dir /\ below dir d = false) (dirs w))
      (set_files (filter (fun kv => below dir (fst kv) = false) (files w)) w)) ;;
  emit (EvRemoveRecursive dir).

(** [QFile file(path); file.open(QIODevice::ReadOnly)] followed by
    [readAll()]: [None] when the open fails. *)
Definition read_file (path : string) : Slot (option File) :=
  gets (fun w => if can_read env path then files w !! path else None).

(** [QFile::rename]: fails when the source is missing or the target
    exists. *)
Definition rename (source_path dest_path : string) : Slot bool :=
  fun w =>
    match files w !! source_path, files w !! dest_path with
    | Some f, None =>
        if can_rename env source_path dest_path
        then (Next true,
              set_files (<[dest_path := f]> (delete source_path (files w))) w,
              [EvRename source_path dest_path])
        else (Next false, w, [])
    | _, _ => (Next false, w, [])
    end.

(** The first [foreach] over [replies_] of [ReplyFinished] (lines
    103-120): every body is written into the temporary directory; the
    paths that end in the signature suffix are collected. *)
Fixpoint save_files (temp_directory : string) (replies : list Reply)
    (signatures : list string) : Slot (list string) :=
  match replies with
  | [] => ret signatures
  | reply :: rest =>
      let filename := filename_of reply in
      let path := (temp_directory +:+ "/") +:+ filename in
      if can_write env path then
        let signatures' :=
          if QString.endsWith path kSignatureSuffix
          then signatures ++ [path] else signatures in
        modify (fun w =>
          set_files (<[path := mkFile (body reply) 0x7755]> (files w)) w) ;;
        emit (EvSave path) ;;
        save_files temp_directory rest signatures'
      else
        ShowError ("Failed to open file for writing: " +:+ path) ;;
        return_
  end.

(** The [foreach] over [signatures] (lines 132-153). *)
Fixpoint verify_signatures (key : PublicKey) (signatures : list string)
    : Slot unit :=
  match signatures with
  | [] => ret tt
  | signature_filename :: rest =>
      let filename := QString.remove signature_filename kSignatureSuffix in
      actual <- read_file filename ;;
      match actual with
      | None => return_
      | Some actual_file =>
          signature <- read_file signature_filename ;;
          match signature with
          | None => return_
          | Some signature_file =>
              let ok := verifyMessage key (content actual_file)
                          (content signature_file) in
              emit (EvVerify filename signature_filename ok) ;;
              if ok then verify_signatures key rest
              else
                ShowError ("Invalid signature: " +:+ filename) ;;
                return_
          end
      end
  end.

(** The last [foreach] over [replies_] (lines 158-172). *)
Fixpoint move_files (temp_directory : string) (replies : list Reply)
    : Slot unit :=
  match replies with
  | [] => ret tt
  | reply :: rest =>
      let filename := filename_of reply in
      let source_path := (temp_directory +:+ "/") +:+ filename in
      dest <- gets path_ ;;
      let dest_path := (dest +:+ "/") +:+ filename in
      if QString.endsWith filename kSignatureSuffix
      then move_files temp_directory rest
      else
        moved <- rename source_path dest_path ;;
        if moved : bool then move_files temp_directory rest
        else
          ShowError ("Writing file failed: " +:+ dest_path) ;;
          return_
  end.

(** "Is everything finished?" (lines 92-96) *)
Fixpoint all_finished (replies : list Reply) : Slot unit :=
  match replies with
  | [] => ret tt
  | reply :: rest =>
      if isFinished reply then all_finished rest else return_
  end.

(** Lines 98-120: the temporary directory and the files saved in it. *)
Definition stage : Slot (string * list string) :=
  temp_directory <- MakeTempDir ;;
  replies <- gets replies_ ;;
  signatures <- save_files temp_directory replies [] ;;
  ret (temp_directory, signatures).

(** Lines 122-129. *)
Definition load_key : Slot PublicKey :=
  match public_key env with
  | Some key => ret key
  | None => ShowError "Failed to load Spotify public key" ;; return_
  end.

(** The directories [QDir().mkpath(dest)] leaves newly made: [dest] and
    the parents that were missing, or none when the call fails. *)
Definition made_dirs (dest : string) : gset string :=
  match mkpath env dest with
  | Some parents => {[dest]} ∪ parents
  | None => ∅
  end.

(** Lines 155-172. The result of [mkpath] is not looked at (line 156). *)
Definition install (temp_directory : string) : Slot unit :=
  dest <- gets path_ ;;
  modify (fun w => set_dirs (made_dirs dest ∪ dirs w) w) ;;
  emit (EvMkpath dest) ;;
  replies <- gets replies_ ;;
  move_files temp_directory replies.

(** [SpotifyBlobDownloader::ReplyFinished], run for the reply [sender]
    whose [finished()] signal fired. *)
Definition ReplyFinished (sender : Reply) : Slot unit :=
  match error sender with
  | Some message => ShowError message ;; return_
  | None => ret tt
  end ;;
  replies <- gets replies_ ;;
  all_finished replies ;;
  staged <- stage ;;
  key <- load_key ;;
  verify_signatures key (snd staged) ;;
  install (fst staged) ;;
  RemoveRecursive (fst staged) ;;
  EmitFinished.

(** [ReplyFinished] from line 98 on, where every reply is finished. *)
Definition finish_install : Slot unit :=
  staged <- stage ;;
  key <- load_key ;;
  verify_signatures key (snd staged) ;;
  install (fst staged) ;;
  RemoveRecursive (fst staged) ;;
  EmitFinished.

(** The sums of [ReplyProgress] (lines 181-187), both kept in an [int].
    [progress += qint64] adds in 64 bits and converts the sum back to
    [int]; [total += int] adds in [int]. A signed addition that overflows
    has no defined behaviour in C++: the loop then has no result. *)
Fixpoint sum_progress (replies : list Reply) (progress total : Z)
    : option (Z * Z) :=
  match replies with
  | [] => Some (progress, total)
  | reply :: rest =>
      let wide := (progress + bytesAvailable reply)%Z in
      let total' := (total + toInt (content_length reply))%Z in
      if fits_qint64 wide && fits_int total'
      then sum_progress rest (to_int wide) total'
      else None
  end.

(** [SpotifyBlobDownloader::ReplyProgress]: [None] where the sums have no
    defined behaviour. *)
Definition ReplyProgress (w : World) : option (Flow unit * World * list Event) :=
  match sum_progress (replies_ w) 0 0 with
  | Some sums =>
      Some ((emit (EvSetMaximum (snd sums)) ;; emit (EvSetValue (fst sums))) w)
  | None => None
  end.

(** ** Signals *)

(** What reaches the downloader from outside: a reply's [finished()] with
    the outcome of the transfer and the bytes received, a reply's
    [downloadProgress(qint64,qint64)], and the dialog's [canceled()]. *)
Inductive Signal :=
| finished (i : nat) (outcome : option string) (payload : QByteArray)
| downloadProgress (i : nat) (received : Z) (header : option Z)
| canceled.

(** The reply once the transfer is over. *)
Definition finish (r : Reply) (outcome : option string) (payload : QByteArray)
    : Reply :=
  mkReply (url r) true outcome (bytesAvailable r) (content_length r) payload
    (connected r) (aborted r).

(** The reply with more bytes in. *)
Definition receive (r : Reply) (received : Z) (header : option Z) : Reply :=
  mkReply (url r) (isFinished r) (error r) received header (body r)
    (connected r) (aborted r).

(** The slot a signal runs as long as the downloader object exists: a
    signal of a reply runs a slot while the reply is in flight and still
    connected. The result is the world after the slot and the events of the
    slot; [None] when no slot runs or the slot has no defined behaviour. *)
Definition serve (s : Signal) (w : World) : option (World * list Event) :=
  match s with
  | finished i outcome payload =>
      match replies_ w !! i with
      | Some r =>
          if isFinished r || negb (connected r) then None
          else
            let sender := finish r outcome payload in
            let res :=
              ReplyFinished sender
                (set_replies (<[i := sender]> (replies_ w)) w) in
            Some (world_of res, events_of res)
      | None => None
      end
  | downloadProgress i received header =>
      match replies_ w !! i with
      | Some r =>
          if isFinished r || negb (connected r) then None
          else
            match ReplyProgress
                    (set_replies (<[i := receive r received header]> (replies_ w)) w)
            with
            | Some res => Some (world_of res, events_of res)
            | None => None
            end
      | None => None
      end
  | canceled =>
      let res := Cancel w in Some (world_of res, events_of res)
  end.

(** [deleteLater] deletes the downloader when control returns to the event
    loop. [deliver] takes that to come before any further signal: nothing
    runs on a downloader that is scheduled for deletion. *)
Definition deliver (s : Signal) (w : World) : option (World * list Event) :=
  if deleted w then None else serve s w.

(** The worlds an attempt passes through, each with the events so far: the
    attempt begins with [Start] on a live downloader. *)
Inductive reachable : World -> list Event -> Prop :=
| reach_Start w0 :
    deleted w0 = false ->
    reachable (world_of (Start w0)) (events_of (Start w0))
| reach_signal w t s w' evs :
    reachable w t ->
    deliver s w = Some (w', evs) ->
    reachable w' (t ++ evs).

(** The worlds an attempt passes through when signals that were already
    queued are still served after [deleteLater], as they are until the
    event loop comes to the deferred deletion. *)
Inductive possible : World -> list Event -> Prop :=
| poss_Start w0 :
    possible (world_of (Start w0)) (events_of (Start w0))
| poss_signal w t s w' evs :
    possible w t ->
    serve s w = Some (w', evs) ->
    possible w' (t ++ evs).

(** The world [ShowError] leaves. *)
Definition stopped (w : World) : World :=
  set_deleted
    (set_replies (map (fun reply => abort (disconnect reply)) (replies_ w)) w).

(** From [w] to [w'] the downloader stays scheduled for deletion once it
    is, and is scheduled for deletion unless its replies are as they were. *)
Definition still_running (w w' : World) : Prop :=
  (deleted w = true -> deleted w' = true)
  /\ (deleted w' = true \/ replies_ w' = replies_ w).

(** While the downloader is alive, every reply that has finished has
    finished without error. *)
Definition no_failed_reply (w : World) : Prop :=
  deleted w = false ->
  forall j r, replies_ w !! j = Some r -> isFinished r = true -> error r = None.

(** The file [read_file] yields in [w]. *)
Definition read_in (w : World) (path : string) : option File :=
  if can_read env path then files w !! path else None.

(** What the check of one signature comes to in [w]: [None] when the
    artifact or the signature cannot be read. *)
Definition verifies (key : PublicKey) (w : World) (signature_filename : string)
    : option bool :=
  match read_in w (QString.remove signature_filename kSignatureSuffix),
        read_in w signature_filename with
  | Some actual_file, Some signature_file =>
      Some (verifyMessage key (content actual_file) (content signature_file))
  | _, _ => None
  end.

(** Where a reply's file is staged and where it is installed. *)
Definition staged_path (temp_directory : string) (reply : Reply) : string :=
  (temp_directory +:+ "/") +:+ filename_of reply.

Definition dest_path_of (w : World) (reply : Reply) : string :=
  (path_ w +:+ "/") +:+ filename_of reply.

Definition is_signature (reply : Reply) : bool :=
  QString.endsWith (filename_of reply) kSignatureSuffix.

(** The world [RemoveRecursive dir] leaves. *)
Definition removed (dir : string) (w : World) : World :=
  set_dirs (filter (fun d => d <> dir /\ below dir d = false) (dirs w))
    (set_files (filter (fun kv => below dir (fst kv) = false) (files w)) w).

(** The replies whose files are to be installed. *)
Definition artifacts (replies : list Reply) : list Reply :=
  List.filter (fun reply => negb (is_signature reply)) replies.

(** The move of a reply's file. *)
Definition move_event (temp_directory : string) (w : World) (reply : Reply)
    : Event :=
  EvRename (staged_path temp_directory reply) (dest_path_of w reply).

(** Whether [rename] succeeds in [w], and the world it then leaves. *)
Definition movable (w : World) (source_path dest_path : string) : bool :=
  match files w !! source_path, files w !! dest_path with
  | Some _, None => can_rename env source_path dest_path
  | _, _ => false
  end.

Definition moved (source_path dest_path : string) (w : World) : World :=
  match files w !! source_path with
  | Some f => set_files (<[dest_path := f]> (delete source_path (files w))) w
  | None => w
  end.

(** ** The life of a downloader *)

(** [SpotifyBlobDownloader::SpotifyBlobDownloader(version, path, parent)]
    on a given disk: the two strings are kept, no request is out, and the
    dialog's [canceled()] is connected to [Cancel]. *)
Definition SpotifyBlobDownloader (version path : string)
    (fs : gmap string File) (ds : gset string) : World :=
  mkWorld version path [] false fs ds.

(** Signals delivered one after the other: the world after the last slot
    and the events of all, or [None] when a signal finds no slot to run. *)
Fixpoint run (signals : list Signal) (w : World) : option (World * list Event) :=
  match signals with
  | [] => Some (w, [])
  | s :: rest =>
      match deliver s w with
      | Some (w1, evs1) =>
          match run rest w1 with
          | Some (w2, evs2) => Some (w2, evs1 ++ evs2)
          | None => None
          end
      | None => None
      end
  end.

End Downloader.

(** ** Notions used in the statements *)

(** A slot keeps a relation between the world it starts in and the world
    it leaves. *)
Definition preserves (R : World -> World -> Prop) {A} (m : Slot A) : Prop :=
  forall w, R w (world_of (m w)).

(** The numbers an [int] holds. *)
Definition in_int (z : Z) : Prop := (INT_MIN <= z <= INT_MAX)%Z.

(** The [qint64] numbers to which any [int] can be added in 64 bits. *)
Definition addable (z : Z) : Prop :=
  (INT64_MIN - INT_MIN <= z <= INT64_MAX - INT_MAX)%Z.

(** The sums of [f] over the first reply, the first two, and so on, on
    top of [acc]. *)
Fixpoint running_sums (f : Reply -> Z) (replies : list Reply) (acc : Z) : list Z :=
  match replies with
  | [] => []
  | reply :: rest => (acc + f reply)%Z :: running_sums f rest (acc + f reply)%Z
  end.

(** ** The progress pair as the specification words it *)

(** The sum of the bytes received, and the sum of the totals with an unknown
    total counted as 0. *)
Definition spec_progress (replies : list Reply) : Z * Z :=
  (foldr (fun reply acc => bytesAvailable reply + acc)%Z 0%Z replies,
   foldr (fun reply acc => default 0%Z (content_length reply) + acc)%Z 0%Z replies).

(** ** A sample platform and sample runs *)

Module Sample.

(** A stand-in signature scheme: the signature of [m] is [m] behind a tag. *)
#[local] Instance platform : Platform :=
  mkPlatform "http://spotify.clementine-player.org/" (fun u => u) unit
    (fun _ message signature => String.eqb signature ("signed:" +:+ message)).

Definition temp : string := "/tmp/clementine-aB3x9Q".

(** Every call into the environment goes well. *)
Definition env_ok : Env :=
  mkEnv platform temp (Some tt) (fun _ => true) (fun _ => true) (fun _ _ => true)
    (fun _ => Some ∅).

(** The embedded key does not convert. *)
Definition env_no_key : Env :=
  mkEnv platform temp None (fun _ => true) (fun _ => true) (fun _ _ => true)
    (fun _ => Some ∅).

(** The staged artifact cannot be opened for reading. *)
Definition env_unreadable : Env :=
  mkEnv platform temp (Some tt) (fun _ => true)
    (fun path => negb (String.eqb path (temp +:+ "/blob"))) (fun _ _ => true)
    (fun _ => Some ∅).

(** The second move fails. *)
Definition env_move_fails : Env :=
  mkEnv platform temp (Some tt) (fun _ => true) (fun _ => true)
    (fun source_path _ => negb (String.eqb source_path (temp +:+ "/libspotify.so.8")))
    (fun _ => Some ∅).

(** The staged signature cannot be opened for writing. *)
Definition env_no_space : Env :=
  mkEnv platform temp (Some tt)
    (fun path => negb (String.eqb path (temp +:+ "/blob.sha1")))
    (fun _ => true) (fun _ _ => true) (fun _ => Some ∅).

(** The temporary directory lies in a directory whose name holds the
    signature suffix, as it does with [TMPDIR=/tmp/a.sha1]. *)
Definition env_suffix_in_tmp : Env :=
  mkEnv platform "/tmp/a.sha1/clementine-aB3x9Q" (Some tt)
    (fun _ => true) (fun _ => true) (fun _ _ => true) (fun _ => Some ∅).

(** A fresh downloader for version 0.9 on an empty disk. *)
Definition fresh : World :=
  mkWorld "0.9" "/home/user/.config/Clementine/spotifyblob" [] false ∅ ∅.

Definition started : World := world_of (Start fresh).

(** The three replies of [started], all finished without error. *)
Definition downloaded (bodies : list QByteArray) : World :=
  set_replies
    (zip_with (fun r payload => finish r None payload) (replies_ started) bodies)
    started.

Definition good : World := downloaded ["BLOB"; "signed:BLOB"; "LIB"].
Definition corrupted : World := downloaded ["BLOB"; "signed:BLOC"; "LIB"].

(** A tampered batch: the artifact is not the one that was signed. *)
Definition tampered : World := downloaded ["EVIL"; "signed:GOOD"; "LIB"].

(** The tampered batch on a disk where an earlier run has left the signed
    artifact behind in /tmp/a/clementine-aB3x9Q. *)
Definition tampered_beside_leftover : World :=
  set_files {["/tmp/a/clementine-aB3x9Q/blob" := mkFile "GOOD" 0x7755]} tampered.

(** The reply whose [finished()] comes last. *)
Definition last_reply (w : World) : Reply :=
  default (new_reply "") (last (replies_ w)).

(** One reply holding 2 GiB, announced in its header. *)
Definition huge : World :=
  set_replies
    [mkReply "http://spotify.clementine-player.org/0.9/blob" false None
       2147483648 (Some 2147483648%Z) "" true false]
    fresh.

(** The first reply fails while the others are in flight. *)
Definition refused : Signal := finished 0 (Some "Connection refused") "".

Definition after_refused : World * list Event :=
  default (started, []) (deliver env_ok refused started).

(** The attempt cancelled while the three replies are in flight, and the
    refusal of the first reply served after that. *)
Definition cancelled : World := set_deleted started.

Definition refused_after_cancel : World * list Event :=
  default (cancelled, []) (serve env_ok refused cancelled).

(** Three replies in flight, each with its length announced. *)
Definition announced : World :=
  set_replies
    (zip_with (fun r progress => receive r (fst progress) (snd progress))
       (replies_ started)
       [(1000%Z, Some 5000%Z); (64%Z, Some 64%Z); (0%Z, Some 700%Z)])
    started.

(** Three replies in flight, the second without [Content-Length]. *)
Definition in_flight : World :=
  set_replies
    (zip_with (fun r progress => receive r (fst progress) (snd progress))
       (replies_ started)
       [(1000%Z, Some 5000%Z); (20%Z, None); (0%Z, Some 700%Z)])
    started.

End Sample.

(** * Properties *)

(** ** Strings *)

Lemma append_nil_l (s : string) : "" +:+ s = s.
Proof. reflexivity. Qed.

Lemma append_cons (c : ascii) (s t : string) :
  String c s +:+ t = String c (s +:+ t).
Proof. reflexivity. Qed.

Lemma append_nil_r (s : string) : s +:+ "" = s.
Proof.
  induction s as [|c s IH]; [reflexivity | now rewrite append_cons, IH].
Qed.

Lemma append_assoc (a b c : string) : (a +:+ b) +:+ c = a +:+ (b +:+ c).
Proof.
  induction a as [|x a IH]; [reflexivity | now rewrite !append_cons, IH].
Qed.

Lemma length_append (a b : string) :
  String.length (a +:+ b) = String.length a + String.length b.
Proof.
  induction a as [|x a IH]; [reflexivity |].
  rewrite append_cons. simpl. now rewrite IH.
Qed.

Lemma prefix_append (a b : string) : String.prefix a (a +:+ b) = true.
Proof.
  induction a as [|x a IH]; [now destruct b |].
  rewrite append_cons. simpl.
  destruct (Ascii.ascii_dec x x); [exact IH | congruence].
Qed.





Lemma remove_from_skip (pattern x b : string) :
  QString.remove_from pattern (x +:+ b) (String.length x)
  = QString.remove_from pattern b 0.
Proof.
  induction x as [|c x IH]; [reflexivity |].
  rewrite append_cons. simpl. exact IH.
Qed.

Lemma remove_from_occurrence (pattern b : string) :
  pattern <> "" ->
  QString.remove_from pattern (pattern +:+ b) 0 = QString.remove_from pattern b 0.
Proof.
  destruct pattern as [|c p]; [congruence | intros _].
  rewrite append_cons. cbn [QString.remove_from].
  rewrite <- append_cons, prefix_append. cbn [String.length].
  replace (S (String.length p) - 1) with (String.length p) by lia.
  apply remove_from_skip.
Qed.

(** Up to its first occurrence the string is kept, the occurrence is dropped,
    and the scan resumes behind it. *)
Lemma remove_from_first (pattern a b : string) :
  pattern <> "" ->
  (forall i, i < String.length a ->
     QString.occurs_at pattern (a +:+ pattern +:+ b) i = false) ->
  QString.remove_from pattern (a +:+ pattern +:+ b) 0
  = a +:+ QString.remove_from pattern b 0.
Proof.
  intros Hne. induction a as [|c a IH]; intros Hocc.
  - rewrite append_nil_l. now apply remove_from_occurrence.
  - rewrite append_cons. cbn [QString.remove_from].
    assert (H0 : String.prefix pattern (String c (a +:+ pattern +:+ b)) = false).
    { apply (Hocc 0). simpl. lia. }
    rewrite H0, append_cons. f_equal. apply IH.
    intros i Hi. apply (Hocc (S i)). simpl. lia.
Qed.

Lemma remove_first (pattern a b : string) :
  pattern <> "" ->
  (forall i, i < String.length a ->
     QString.occurs_at pattern (a +:+ pattern +:+ b) i = false) ->
  QString.remove (a +:+ pattern +:+ b) pattern = a +:+ QString.remove b pattern.
Proof.
  intros Hne Hocc. unfold QString.remove.
  destruct pattern as [|c p]; [congruence|].
  now apply remove_from_first.
Qed.

Lemma append_inj_l (a b c : string) : a +:+ b = a +:+ c -> b = c.
Proof.
  induction a as [|x a IH]; [now rewrite !append_nil_l |].
  rewrite !append_cons. intros [= Heq]. auto.
Qed.

Lemma append_inj_r (a b c : string) : a +:+ c = b +:+ c -> a = b.
Proof.
  revert b. induction a as [|x a IH]; intros [|y b] Heq.
  - reflexivity.
  - rewrite append_nil_l, append_cons in Heq.
    apply (f_equal String.length) in Heq. simpl in Heq.
    rewrite length_append in Heq. lia.
  - rewrite append_nil_l, append_cons in Heq.
    apply (f_equal String.length) in Heq. simpl in Heq.
    rewrite length_append in Heq. lia.
  - rewrite !append_cons in Heq. injection Heq as -> Heq.
    f_equal. now apply IH.
Qed.

Lemma contains_append (sep : ascii) (a b : string) :
  QString.contains (a +:+ b) sep
  = QString.contains a sep || QString.contains b sep.
Proof.
  induction a as [|x a IH]; [reflexivity |].
  rewrite append_cons. simpl. rewrite IH. now destruct (Ascii.eqb x sep).
Qed.

(** The last field holds no separator. *)
Lemma last_field_no_sep (sep : ascii) (s acc : string) :
  QString.contains acc sep = false ->
  QString.contains (QString.last_field sep s acc) sep = false.
Proof.
  revert acc. induction s as [|c s IH]; intros acc Hacc; simpl; [exact Hacc |].
  destruct (Ascii.eqb c sep) eqn:Hc; [now apply IH |].
  apply IH. rewrite contains_append, Hacc. simpl. now rewrite Hc.
Qed.

Lemma last_field_plain (sep : ascii) (f acc : string) :
  QString.contains f sep = false ->
  QString.last_field sep f acc = acc +:+ f.
Proof.
  revert acc. induction f as [|c f IH]; intros acc Hf; simpl.
  - now rewrite append_nil_r.
  - simpl in Hf. destruct (Ascii.eqb c sep); [discriminate |].
    rewrite IH by exact Hf. now rewrite append_assoc.
Qed.

Lemma last_field_after_sep (sep : ascii) (a f acc : string) :
  QString.last_field sep (a +:+ String sep f) acc
  = QString.last_field sep f "".
Proof.
  revert acc. induction a as [|c a IH]; intros acc.
  - rewrite append_nil_l. simpl. now rewrite Ascii.eqb_refl.
  - rewrite append_cons. simpl. now destruct (Ascii.eqb c sep).
Qed.

(** A path is split in one way only into a directory, a slash and a name
    free of slashes. *)
Lemma path_split_unique (a b f g : string) :
  QString.contains f "/" = false ->
  QString.contains g "/" = false ->
  (a +:+ "/") +:+ f = (b +:+ "/") +:+ g ->
  a = b /\ f = g.
Proof.
  intros Hf Hg Heq.
  assert (Hfg : f = g).
  { apply (f_equal (fun s => QString.section_last s "/")) in Heq.
    unfold QString.section_last in Heq.
    rewrite !append_assoc in Heq.
    change ("/" +:+ f) with (String "/" f) in Heq.
    change ("/" +:+ g) with (String "/" g) in Heq.
    rewrite !last_field_after_sep in Heq.
    now rewrite !last_field_plain in Heq by assumption. }
  subst g. split; [|reflexivity].
  apply append_inj_r in Heq. now apply append_inj_r in Heq.
Qed.

(** ** File names and paths *)

Lemma contains_eqb_false (s t : string) (c : ascii) :
  QString.contains s c = true -> QString.contains t c = false ->
  String.eqb s t = false.
Proof.
  intros Hs Ht. destruct (String.eqb s t) eqn:E; [|reflexivity].
  apply String.eqb_eq in E. congruence.
Qed.

(** A suffix free of slashes ends a path just when it ends the file name. *)
Lemma endsWith_path (dir name suffix : string) :
  QString.contains suffix "/" = false ->
  QString.endsWith ((dir +:+ "/") +:+ name) suffix
  = QString.endsWith name suffix.
Proof.
  intros Hsuffix. rewrite append_assoc.
  change ("/" +:+ name) with (String "/" name).
  induction dir as [|c dir IH].
  - rewrite append_nil_l. cbn [QString.endsWith].
    now rewrite (contains_eqb_false _ _ "/") by (assumption || reflexivity).
  - rewrite append_cons. cbn [QString.endsWith].
    rewrite (contains_eqb_false _ _ "/"); [exact IH | | exact Hsuffix].
    cbn [QString.contains]. rewrite contains_append. cbn [QString.contains].
    rewrite Ascii.eqb_refl. now rewrite !orb_true_r.
Qed.


(** ** Running slots *)

Lemma bind_Next {A B} (m : Slot A) (k : A -> Slot B) w a w1 evs1 :
  m w = (Next a, w1, evs1) ->
  bind m k w
  = (flow_of (k a w1), world_of (k a w1), evs1 ++ events_of (k a w1)).
Proof.
  intros Hm. unfold bind. rewrite Hm. now destruct (k a w1) as [[r w2] evs2].
Qed.

Lemma bind_Returned {A B} (m : Slot A) (k : A -> Slot B) w w1 evs1 :
  m w = (Returned, w1, evs1) -> bind m k w = (Returned, w1, evs1).
Proof. intros Hm. unfold bind. now rewrite Hm. Qed.

Section Frames.

Context (R : World -> World -> Prop) `{!PreOrder R}.
Lemma preserves_ret {A} (a : A) : preserves R (ret a).
Proof. intros w. reflexivity. Qed.

Lemma preserves_return {A} : preserves R (@return_ A).
Proof. intros w. reflexivity. Qed.

Lemma preserves_gets {A} (f : World -> A) : preserves R (gets f).
Proof. intros w. reflexivity. Qed.

Lemma preserves_emit e : preserves R (emit e).
Proof. intros w. reflexivity. Qed.

Lemma preserves_modify f : (forall w, R w (f w)) -> preserves R (modify f).
Proof. intros Hf w. apply Hf. Qed.

Lemma preserves_bind {A B} (m : Slot A) (k : A -> Slot B) :
  preserves R m -> (forall a, preserves R (k a)) -> preserves R (bind m k).
Proof.
  intros Hm Hk w. unfold bind. specialize (Hm w).
  destruct (m w) as [[[a|] w1] evs1]; [|exact Hm].
  specialize (Hk a w1). destruct (k a w1) as [[r w2] evs2].
  etransitivity; eassumption.
Qed.

End Frames.


(** ** [int] arithmetic *)

Lemma to_int_in_int (z : Z) : in_int (to_int z).
Proof.
  unfold in_int, to_int, INT_MIN, INT_MAX.
  pose proof (Z.mod_pos_bound (z + 2 ^ 31) (2 ^ 32) ltac:(lia)). lia.
Qed.

Lemma to_int_id (z : Z) : in_int z -> to_int z = z.
Proof.
  unfold in_int, to_int, INT_MIN, INT_MAX. intros Hz.
  rewrite Z.mod_small; lia.
Qed.

Lemma to_int_add_l (x y : Z) : to_int (to_int x + y) = to_int (x + y).
Proof.
  unfold to_int.
  replace ((x + 2 ^ 31) mod 2 ^ 32 - 2 ^ 31 + y + 2 ^ 31)%Z
    with ((x + 2 ^ 31) mod 2 ^ 32 + y)%Z by lia.
  rewrite Zplus_mod_idemp_l. f_equal. f_equal. lia.
Qed.

Lemma toInt_known (n : Z) : in_int n -> toInt (Some n) = n.
Proof.
  unfold in_int, toInt. intros [Hlo Hhi].
  apply Z.leb_le in Hlo, Hhi. now rewrite Hlo, Hhi.
Qed.

Lemma fits_int_spec (z : Z) : fits_int z = true <-> in_int z.
Proof. unfold fits_int, in_int. rewrite andb_true_iff, !Z.leb_le. tauto. Qed.

Lemma fits_qint64_add (progress z : Z) :
  in_int progress -> addable z -> fits_qint64 (progress + z) = true.
Proof.
  unfold fits_qint64, in_int, addable, INT64_MIN, INT64_MAX, INT_MIN, INT_MAX.
  intros Hp Hz. apply andb_true_iff. rewrite !Z.leb_le. lia.
Qed.

(** Where the loop of [ReplyProgress] has a result, the value is the sum of
    the bytes cut to an [int], the maximum is the sum of the lengths, and
    no running sum of the lengths has left [int]. *)
Lemma sum_progress_spec (replies : list Reply) :
  forall (progress total p t : Z),
    sum_progress replies (to_int progress) total = Some (p, t) ->
    p = to_int (progress + foldr (fun reply acc => bytesAvailable reply + acc) 0 replies)%Z
    /\ t = (total + foldr (fun reply acc => toInt (content_length reply) + acc) 0 replies)%Z
    /\ Forall in_int
         (running_sums (fun reply => toInt (content_length reply)) replies total).
Proof.
  induction replies as [|reply rest IH]; intros progress total p t Hrun;
    cbn [sum_progress foldr running_sums] in *.
  - injection Hrun as <- <-. rewrite !Z.add_0_r.
    split; [reflexivity | split; [reflexivity | apply List.Forall_nil]].
  - destruct (fits_qint64 _); [| discriminate].
    destruct (fits_int _) eqn:Hfits; [| discriminate]. cbn [andb] in Hrun.
    apply IH in Hrun as (-> & -> & Hrest).
    rewrite <- !Z.add_assoc, to_int_add_l.
    split; [reflexivity | split; [reflexivity |]].
    apply List.Forall_cons; [now apply fits_int_spec | exact Hrest].
Qed.

(** The loop has a result when every byte count can be added to an [int]
    in 64 bits and the running sums of the lengths stay in [int]. *)
Lemma sum_progress_defined (replies : list Reply) :
  forall (progress total : Z),
    in_int progress ->
    Forall (fun reply => addable (bytesAvailable reply)) replies ->
    Forall in_int
      (running_sums (fun reply => toInt (content_length reply)) replies total) ->
    sum_progress replies progress total
    = Some (to_int (progress + foldr (fun reply acc => bytesAvailable reply + acc) 0 replies),
            total + foldr (fun reply acc => toInt (content_length reply) + acc) 0 replies)%Z.
Proof.
  induction replies as [|reply rest IH]; intros progress total Hp Hbytes Htotals;
    cbn [sum_progress foldr running_sums] in *.
  - now rewrite !Z.add_0_r, to_int_id.
  - apply List.Forall_cons_iff in Hbytes as [Hb Hbytes].
    apply List.Forall_cons_iff in Htotals as [Ht Htotals].
    rewrite fits_qint64_add by assumption.
    apply fits_int_spec in Ht. rewrite Ht. cbn [andb].
    rewrite IH; [| apply to_int_in_int | assumption | assumption].
    now rewrite to_int_add_l, !Z.add_assoc.
Qed.

Lemma running_sums_last (f : Reply -> Z) (replies : list Reply) :
  forall acc : Z,
    in_int acc ->
    Forall in_int (running_sums f replies acc) ->
    in_int (acc + foldr (fun reply acc => f reply + acc) 0 replies)%Z.
Proof.
  induction replies as [|reply rest IH]; intros acc Hacc Hsums;
    cbn [foldr running_sums] in *.
  - now rewrite Z.add_0_r.
  - apply List.Forall_cons_iff in Hsums as [Hfirst Hsums].
    rewrite Z.add_assoc. now apply IH.
Qed.

(** ** The slots *)

Section Properties.

Context `{Platform} (env : Env).

Lemma Start_replies (w : World) :
  replies_ (world_of (Start w))
  = map (fun filename => new_reply (download_url (version_ w) filename)) filenames.
Proof. reflexivity. Qed.

(** C6: whatever the version string and whatever the downloader held
    before, [Start] runs to its end and asks for exactly three files, in the
    order blob, blob.sha1, libspotify.so.8, each at the base URL followed by
    the version, a slash and the file name; the signature's file name is the
    artifact's file name followed by [kSignatureSuffix]. *)
Theorem Start_requests_three_files (w : World) :
  flow_of (Start w) = Next tt
  /\ replies_ (world_of (Start w))
     = map (fun filename =>
              new_reply (kBlobDownloadUrl +:+ version_ w +:+ "/" +:+ filename))
         ["blob"; "blob.sha1"; "libspotify.so.8"]
  /\ events_of (Start w)
     = map (fun filename =>
              EvGet (kBlobDownloadUrl +:+ version_ w +:+ "/" +:+ filename))
         ["blob"; "blob.sha1"; "libspotify.so.8"]
       ++ [EvShowProgress]
  /\ filenames = ["blob"; "blob" +:+ kSignatureSuffix; "libspotify.so.8"]
  /\ map (fun filename => QString.endsWith filename kSignatureSuffix) filenames
     = [false; true; false]
  /\ files (world_of (Start w)) = files w
  /\ dirs (world_of (Start w)) = dirs w.
Proof.
  assert (Hurl : forall filename,
    download_url (version_ w) filename
    = kBlobDownloadUrl +:+ version_ w +:+ "/" +:+ filename).
  { intros filename. unfold download_url. now rewrite !append_assoc. }
  repeat split; try reflexivity.
  - cbn. now rewrite !Hurl.
  - cbn. now rewrite !Hurl.
Qed.

(** What [ReplyProgress] does where it has a result. *)
Lemma ReplyProgress_run (w : World) (res : Flow unit * World * list Event) :
  ReplyProgress w = Some res ->
  exists maximum value,
    res = (Next tt, w, [EvSetMaximum maximum; EvSetValue value]).
Proof.
  unfold ReplyProgress. destruct (sum_progress (replies_ w) 0 0) as [sums|];
    [| discriminate].
  intros [= <-]. now exists (snd sums), (fst sums).
Qed.

(** C9, as the code has it: on a progress event where no signed addition
    overflows (every byte count can be added to an [int] in 64 bits, and
    the running sums of the lengths stay in [int]), [ReplyProgress]
    recomputes both sums from scratch over all replies and reports them
    with no smoothing: the maximum is the sum of the [Content-Length]
    numbers, one that is missing or no [int] counted as 0, and the value
    is the sum of the bytes available converted to [int]; nothing else
    changes. When moreover every known length and the sum of the bytes fit
    an [int], the pair is the exact pair of sums with unknown totals
    counted as 0. *)
Theorem ReplyProgress_reports_int_sums (w : World) :
  Forall (fun reply => addable (bytesAvailable reply)) (replies_ w) ->
  Forall in_int
    (running_sums (fun reply => toInt (content_length reply)) (replies_ w) 0) ->
  ReplyProgress w
  = Some (Next tt, w,
          [EvSetMaximum
             (foldr (fun reply acc => toInt (content_length reply) + acc)%Z 0%Z
                (replies_ w));
           EvSetValue
             (to_int (foldr (fun reply acc => bytesAvailable reply + acc)%Z 0%Z
                        (replies_ w)))])
  /\ in_int (foldr (fun reply acc => toInt (content_length reply) + acc)%Z 0%Z
               (replies_ w))
  /\ (Forall (fun reply => forall n, content_length reply = Some n -> in_int n)
        (replies_ w) ->
      in_int (fst (spec_progress (replies_ w))) ->
      ReplyProgress w
      = Some (Next tt, w,
              [EvSetMaximum (snd (spec_progress (replies_ w)));
               EvSetValue (fst (spec_progress (replies_ w)))])).
Proof.
  intros Hbytes Htotals.
  assert (Hzero : in_int 0) by (unfold in_int, INT_MIN, INT_MAX; lia).
  pose proof (sum_progress_defined (replies_ w) 0 0 Hzero Hbytes Htotals) as Hloop.
  rewrite !Z.add_0_l in Hloop.
  pose proof (running_sums_last _ _ 0%Z Hzero Htotals) as Hmax.
  rewrite Z.add_0_l in Hmax.
  assert (Hrun : ReplyProgress w
    = Some (Next tt, w,
            [EvSetMaximum
               (foldr (fun reply acc => toInt (content_length reply) + acc)%Z 0%Z
                  (replies_ w));
             EvSetValue
               (to_int (foldr (fun reply acc => bytesAvailable reply + acc)%Z 0%Z
                          (replies_ w)))])).
  { unfold ReplyProgress. now rewrite Hloop. }
  split; [exact Hrun | split; [exact Hmax |]].
  intros Hknown Hvalue. rewrite Hrun.
  unfold spec_progress in *. cbn [fst snd] in *.
  assert (Hsame :
    foldr (fun reply acc => toInt (content_length reply) + acc)%Z 0%Z (replies_ w)
    = foldr (fun reply acc => default 0%Z (content_length reply) + acc)%Z 0%Z
        (replies_ w)).
  { clear -Hknown. induction Hknown as [|reply rest Hn _ IH]; [reflexivity |].
    simpl. rewrite IH. f_equal.
    destruct (content_length reply) as [n|]; [|reflexivity].
    apply toInt_known. now apply Hn. }
  now rewrite Hsame, to_int_id.
Qed.

(** *** What each part of [ReplyFinished] does *)

Lemma ShowError_run (message : string) (w : World) :
  ShowError message w = (Next tt, stopped w, [EvWarning message]).
Proof. reflexivity. Qed.

Lemma all_finished_run (replies : list Reply) (w : World) :
  all_finished replies w
  = (if forallb isFinished replies then Next tt else Returned, w, []).
Proof.
  induction replies as [|reply rest IH]; [reflexivity |].
  simpl. destruct (isFinished reply); [exact IH | reflexivity].
Qed.

(** A reply that carries an error ends the attempt at once. *)
Lemma ReplyFinished_error (sender : Reply) (message : string) (w : World) :
  error sender = Some message ->
  ReplyFinished env sender w = (Returned, stopped w, [EvWarning message]).
Proof. intros He. unfold ReplyFinished. rewrite He. reflexivity. Qed.

(** While a reply is still in flight nothing happens. *)
Lemma ReplyFinished_waiting (sender : Reply) (w : World) :
  error sender = None ->
  forallb isFinished (replies_ w) = false ->
  ReplyFinished env sender w = (Returned, w, []).
Proof.
  intros He Hf. unfold ReplyFinished. rewrite He.
  unfold bind at 1. cbn [ret]. unfold bind at 1. cbn [gets].
  unfold bind at 1. rewrite all_finished_run, Hf. reflexivity.
Qed.

(** Once every reply is finished the slot goes on to stage, verify and
    install. *)
Lemma ReplyFinished_barrier (sender : Reply) (w : World) :
  error sender = None ->
  forallb isFinished (replies_ w) = true ->
  ReplyFinished env sender w = finish_install env w.
Proof.
  intros He Hf. unfold ReplyFinished. rewrite He.
  unfold bind at 1. cbn [ret]. unfold bind at 1. cbn [gets].
  unfold bind at 1. rewrite all_finished_run, Hf.
  unfold finish_install. cbn [app].
  now destruct (bind (stage env) _ w) as [[r w'] evs].
Qed.

(** *** Relations that every step of [ReplyFinished] keeps *)

Section Install_frames.

Context (R : World -> World -> Prop) `{!PreOrder R}.
Hypothesis R_stopped : forall w, R w (stopped w).
Hypothesis R_deleted : forall w, R w (set_deleted w).
Hypothesis R_files : forall w fs, R w (set_files fs w).
Hypothesis R_dirs : forall w ds, R w (set_dirs ds w).

Lemma ShowError_preserves (message : string) : preserves R (ShowError message).
Proof. intros w. rewrite ShowError_run. apply R_stopped. Qed.

Lemma rename_preserves (source_path dest_path : string) :
  preserves R (rename env source_path dest_path).
Proof.
  intros w. unfold rename.
  destruct (files w !! source_path), (files w !! dest_path);
    try destruct (can_rename env source_path dest_path);
    first [reflexivity | apply R_files].
Qed.

Lemma save_files_preserves (temp_directory : string) (replies : list Reply)
    (signatures : list string) :
  preserves R (save_files env temp_directory replies signatures).
Proof.
  revert signatures.
  induction replies as [|reply rest IH]; intros signatures; simpl.
  - apply preserves_ret; assumption.
  - destruct (can_write env _).
    + apply preserves_bind; [assumption | |intros _].
      { apply preserves_modify. intros w. apply R_files. }
      apply preserves_bind; [assumption | |intros _; apply IH].
      apply preserves_emit; assumption.
    + apply preserves_bind; [assumption | apply ShowError_preserves |].
      intros _. apply preserves_return; assumption.
Qed.

Lemma stage_preserves : preserves R (stage env).
Proof.
  unfold stage, MakeTempDir.
  repeat first
    [ apply save_files_preserves
    | apply preserves_bind; [assumption | | intros ?]
    | apply preserves_modify; intros w; apply R_dirs
    | apply preserves_emit; assumption
    | apply preserves_ret; assumption
    | apply preserves_gets; assumption ].
Qed.

Lemma load_key_preserves : preserves R (load_key env).
Proof.
  unfold load_key. destruct (public_key env).
  - apply preserves_ret; assumption.
  - apply preserves_bind; [assumption | apply ShowError_preserves |].
    intros _. apply preserves_return; assumption.
Qed.

Lemma verify_signatures_preserves (key : PublicKey) (signatures : list string) :
  preserves R (verify_signatures env key signatures).
Proof.
  induction signatures as [|signature_filename rest IH]; simpl.
  - apply preserves_ret; assumption.
  - apply preserves_bind; [assumption | apply preserves_gets; assumption |].
    intros [actual_file|]; [|apply preserves_return; assumption].
    apply preserves_bind; [assumption | apply preserves_gets; assumption |].
    intros [signature_file|]; [|apply preserves_return; assumption].
    apply preserves_bind; [assumption | apply preserves_emit; assumption |].
    intros _. destruct (verifyMessage _ _ _); [exact IH |].
    apply preserves_bind; [assumption | apply ShowError_preserves |].
    intros _. apply preserves_return; assumption.
Qed.

Lemma move_files_preserves (temp_directory : string) (replies : list Reply) :
  preserves R (move_files env temp_directory replies).
Proof.
  induction replies as [|reply rest IH]; simpl.
  - apply preserves_ret; assumption.
  - apply preserves_bind; [assumption | apply preserves_gets; assumption |].
    intros dest. destruct (QString.endsWith _ _); [exact IH |].
    apply preserves_bind; [assumption | apply rename_preserves |].
    intros [|]; [exact IH |].
    apply preserves_bind; [assumption | apply ShowError_preserves |].
    intros _. apply preserves_return; assumption.
Qed.

Lemma finish_install_preserves : preserves R (finish_install env).
Proof.
  unfold finish_install, install, RemoveRecursive, EmitFinished, deleteLater.
  repeat first
    [ apply stage_preserves
    | apply load_key_preserves
    | apply verify_signatures_preserves
    | apply move_files_preserves
    | apply preserves_bind; [assumption | | intros ?]
    | apply preserves_emit; assumption
    | apply preserves_gets; assumption
    | apply preserves_modify; intros w;
      first [apply R_dirs | apply R_deleted
            | etransitivity; [apply R_files | apply R_dirs] ] ].
Qed.

End Install_frames.

(** *** The barrier *)

#[local] Instance still_running_preorder : PreOrder still_running.
Proof.
  split.
  - intros w. split; [tauto | now right].
  - intros w1 w2 w3 [Hd12 Hr12] [Hd23 Hr23]. split; [tauto |].
    destruct Hr23 as [Hd|Hr]; [now left |].
    destruct Hr12 as [Hd|Hr']; [left; tauto | right; congruence].
Qed.

Lemma finish_install_still_running (w : World) :
  still_running w (world_of (finish_install env w)).
Proof.
  apply (finish_install_preserves still_running); intros w0.
  - split; [reflexivity | now left].
  - split; [reflexivity | now left].
  - intros fs. split; [tauto | now right].
  - intros ds. split; [tauto | now right].
Qed.

Lemma deliver_live (s : Signal) (w w' : World) (evs : list Event) :
  deliver env s w = Some (w', evs) -> deleted w = false.
Proof. unfold deliver, serve. now destruct (deleted w). Qed.

(** What [deliver] does with [finished]. *)
Lemma deliver_finished (i : nat) outcome payload (w w' : World) evs :
  deliver env (finished i outcome payload) w = Some (w', evs) ->
  exists r,
    replies_ w !! i = Some r
    /\ isFinished r = false
    /\ connected r = true
    /\ deleted w = false
    /\ (w', evs)
       = (world_of (ReplyFinished env (finish r outcome payload)
                      (set_replies (<[i := finish r outcome payload]> (replies_ w)) w)),
          events_of (ReplyFinished env (finish r outcome payload)
                       (set_replies (<[i := finish r outcome payload]> (replies_ w)) w))).
Proof.
  unfold deliver, serve. destruct (deleted w); [discriminate |].
  destruct (replies_ w !! i) as [r|]; [|discriminate].
  destruct (isFinished r) eqn:Hf; [discriminate |].
  destruct (connected r) eqn:Hc; [|discriminate].
  simpl. intros [= <- <-]. now exists r.
Qed.

(** While the downloader is alive, no finished reply carries an error. *)
Lemma reachable_no_failed_reply (w : World) (t : list Event) :
  reachable env w t -> no_failed_reply w.
Proof.
  induction 1 as [w0 Hlive | w t s w' evs Hreach IH Hstep].
  - intros _ j r Hj Hf.
    rewrite Start_replies in Hj.
    destruct j as [|[|[|j]]]; simpl in Hj; try discriminate;
      injection Hj as <-; discriminate.
  - pose proof (deliver_live _ _ _ _ Hstep) as Hlive.
    specialize (IH Hlive).
    destruct s as [i outcome payload | i received header |].
    + apply deliver_finished in Hstep
        as (r0 & Hi & Hf0 & Hc0 & _ & [= -> ->]).
      set (sender := finish r0 outcome payload).
      set (w1 := set_replies (<[i := sender]> (replies_ w)) w).
      assert (Hinv1 : forall j r,
        replies_ w1 !! j = Some r -> isFinished r = true ->
        outcome = None -> error r = None).
      { intros j r Hj Hf Ho. apply list_lookup_insert_Some in Hj
          as [(-> & <- & _) | (_ & Hj)]; [exact Ho | eauto]. }
      destruct outcome as [message|] eqn:Ho.
      * rewrite (ReplyFinished_error sender message) by reflexivity.
        intros Hd. discriminate.
      * destruct (forallb isFinished (replies_ w1)) eqn:Hall.
        -- rewrite ReplyFinished_barrier by (reflexivity || exact Hall).
           intros Hd j r Hj Hf.
           destruct (finish_install_still_running w1) as [_ [Hd' | Hsame]].
           { congruence. }
           rewrite Hsame in Hj. eauto.
        -- rewrite ReplyFinished_waiting by (reflexivity || exact Hall).
           intros _ j r Hj Hf. eauto.
    + unfold deliver, serve in Hstep. rewrite Hlive in Hstep.
      destruct (replies_ w !! i) as [r0|] eqn:Hi; [|discriminate].
      destruct (isFinished r0 || negb (connected r0)) eqn:Hb; [discriminate |].
      destruct (ReplyProgress _) as [res|] eqn:Hprog; [| discriminate].
      apply ReplyProgress_run in Hprog as (maximum & value & ->).
      injection Hstep as <- <-.
      intros _ j r Hj Hf. cbn in Hj.
      apply list_lookup_insert_Some in Hj as [(-> & <- & _) | (_ & Hj)].
      * apply orb_false_elim in Hb as [Hf0 _]. simpl in Hf. congruence.
      * eauto.
    + unfold deliver, serve in Hstep. rewrite Hlive in Hstep.
      injection Hstep as <- <-. intros Hd. discriminate.
Qed.

(** C1: in every world an attempt reaches, a [finished()] signal starts the
    staging (the temporary directory is made) only if that reply finished
    without error and every other reply had already finished without error;
    and a reply that finishes with an error ends the attempt in that very
    step, whatever the state of the other replies: the error is reported,
    nothing is staged, every reply is disconnected and no longer in flight,
    the replies that were in flight are aborted, and the downloader is
    scheduled for deletion. *)
Theorem barrier_before_staging (w : World) (t : list Event) (i : nat)
    (outcome : option string) (payload : QByteArray) (w' : World)
    (evs : list Event) :
  reachable env w t ->
  deliver env (finished i outcome payload) w = Some (w', evs) ->
  ((exists dir, In (EvMakeTempDir dir) evs) ->
   outcome = None
   /\ forall j r, replies_ w !! j = Some r -> j <> i ->
        isFinished r = true /\ error r = None)
  /\ (forall message, outcome = Some message ->
        evs = [EvWarning message]
        /\ deleted w' = true
        /\ Forall (fun r => connected r = false /\ isFinished r = true)
             (replies_ w')
        /\ files w' = files w
        /\ dirs w' = dirs w
        /\ (forall j r, replies_ w !! j = Some r -> j <> i ->
              isFinished r = false ->
              exists r', replies_ w' !! j = Some r' /\ aborted r' = true)).
Proof.
  intros Hreach Hstep.
  pose proof (reachable_no_failed_reply _ _ Hreach) as Hinv.
  apply deliver_finished in Hstep as (r0 & Hi & Hf0 & Hc0 & Hlive & [= -> ->]).
  set (sender := finish r0 outcome payload).
  set (w1 := set_replies (<[i := sender]> (replies_ w)) w).
  split.
  - intros [dir Hdir]. destruct outcome as [message|] eqn:Ho.
    + rewrite (ReplyFinished_error sender message) in Hdir by reflexivity.
      simpl in Hdir. destruct Hdir as [Hdir|[]]. discriminate.
    + split; [reflexivity |].
      destruct (forallb isFinished (replies_ w1)) eqn:Hall.
      * intros j r Hj Hne.
        assert (Hj1 : replies_ w1 !! j = Some r).
        { cbn. rewrite list_lookup_insert_ne by congruence. exact Hj. }
        rewrite forallb_forall in Hall.
        assert (Hf : isFinished r = true).
        { apply Hall. apply list_elem_of_In. eapply list_elem_of_lookup_2, Hj1. }
        split; [exact Hf | now apply (Hinv Hlive j)].
      * rewrite ReplyFinished_waiting in Hdir by (reflexivity || exact Hall).
        destruct Hdir.
  - intros message ->.
    rewrite (ReplyFinished_error sender message) by reflexivity.
    unfold world_of, events_of. cbn [fst snd].
    split; [reflexivity | split; [reflexivity |]].
    split; [| split; [reflexivity | split; [reflexivity |]]].
    + unfold stopped. cbn. apply List.Forall_map, Forall_forall. intros r1 _.
      unfold abort, disconnect. cbn. now destruct (isFinished r1).
    + intros j r Hj Hne Hf. unfold stopped. cbn [replies_ set_deleted set_replies w1].
      change (map ?f ?l) with (f <$> l).
      rewrite list_lookup_fmap, list_lookup_insert_ne, Hj by congruence.
      eexists. split; [reflexivity |].
      unfold abort, disconnect. cbn. now rewrite Hf.
Qed.

(** *** Staging *)

Lemma quiet_filters (evs : list Event) :
  Forall (fun e => quiet e = true) evs ->
  List.filter is_report evs = []
  /\ List.filter is_verify evs = []
  /\ List.filter touches_destination evs = []
  /\ ~ In EvFinished evs.
Proof.
  induction 1 as [|e evs He _ (IH1 & IH2 & IH3 & IH4)]; [now simpl |].
  destruct e; try discriminate He; simpl; repeat split; try assumption;
    intros [Hc|Hc]; try discriminate Hc; contradiction.
Qed.

Lemma staged_path_below (temp_directory : string) (reply : Reply) :
  below temp_directory (staged_path temp_directory reply) = true.
Proof. apply prefix_append. Qed.

Lemma save_files_cons (temp_directory : string) (reply : Reply)
    (rest : list Reply) (signatures : list string) (w : World) :
  can_write env (staged_path temp_directory reply) = true ->
  let path := staged_path temp_directory reply in
  let next :=
    save_files env temp_directory rest
      (if QString.endsWith path kSignatureSuffix
       then signatures ++ [path] else signatures)
      (set_files (<[path := mkFile (body reply) 0x7755]> (files w)) w) in
  save_files env temp_directory (reply :: rest) signatures w
  = (flow_of next, world_of next, EvSave path :: events_of next).
Proof.
  intros Hw path next. subst next path.
  cbn [save_files]. fold (staged_path temp_directory reply).
  rewrite Hw. unfold bind, modify, emit.
  now destruct (save_files env temp_directory rest _ _) as [[r w'] evs].
Qed.

(** The loop that saves the replies: it writes below the temporary
    directory only; it either saves every reply, or stops at the first file
    it cannot open with one warning. *)
Lemma save_files_run (temp_directory : string) (replies : list Reply) :
  forall (signatures : list string) (w : World),
    let res := save_files env temp_directory replies signatures w in
    (forall p, below temp_directory p = false ->
       files (world_of res) !! p = files w !! p)
    /\ dirs (world_of res) = dirs w
    /\ path_ (world_of res) = path_ w
    /\ match flow_of res with
       | Next signatures' =>
           replies_ (world_of res) = replies_ w
           /\ deleted (world_of res) = deleted w
           /\ Forall (fun e => quiet e = true) (events_of res)
           /\ signatures'
              = signatures
                ++ List.filter (fun path => QString.endsWith path kSignatureSuffix)
                     (map (staged_path temp_directory) replies)
       | Returned =>
           exists evs message,
             events_of res = evs ++ [EvWarning message]
             /\ Forall (fun e => quiet e = true) evs
             /\ deleted (world_of res) = true
       end.
Proof.
  induction replies as [|reply rest IH]; intros signatures w res.
  - subst res. cbn. repeat split; try reflexivity; [constructor |].
    now rewrite app_nil_r.
  - destruct (can_write env (staged_path temp_directory reply)) eqn:Hw.
    + subst res. rewrite save_files_cons by exact Hw.
      match goal with |- context [save_files env _ rest ?s ?w1] =>
        specialize (IH s w1); cbv zeta in IH;
        destruct (save_files env temp_directory rest s w1) as [[r w'] evs]
      end.
      cbn [flow_of world_of events_of fst snd] in *.
      destruct IH as (Hfiles & Hdirs & Hpath & Hflow).
      repeat split; try assumption.
      * intros p Hp. rewrite Hfiles by exact Hp. cbn [files set_files].
        apply lookup_insert_ne. intros Heq.
        rewrite <- Heq, staged_path_below in Hp. discriminate.
      * destruct r as [signatures'|].
        -- destruct Hflow as (Hr & Hd & Hq & Hs).
           repeat split; try assumption; [now constructor |].
           rewrite Hs. cbn [map List.filter].
           destruct (QString.endsWith _ _); [now rewrite <- app_assoc | reflexivity].
        -- destruct Hflow as (evs0 & message & -> & Hq & Hd).
           exists (EvSave (staged_path temp_directory reply) :: evs0), message.
           split; [reflexivity | split; [now constructor | exact Hd]].
    + subst res. cbn [save_files]. fold (staged_path temp_directory reply).
      rewrite Hw. rewrite (bind_Next _ _ _ _ _ _ (ShowError_run _ w)).
      cbn. repeat split; try reflexivity.
      exists [], ("Failed to open file for writing: "
                  +:+ staged_path temp_directory reply).
      split; [reflexivity | split; [constructor | reflexivity]].
Qed.

Lemma stage_unfold (w : World) :
  let next :=
    save_files env (temp_dir env) (replies_ w) []
      (set_dirs ({[temp_dir env]} ∪ dirs w) w) in
  stage env w
  = (match flow_of next with
     | Next signatures => Next (temp_dir env, signatures)
     | Returned => Returned
     end,
     world_of next, EvMakeTempDir (temp_dir env) :: events_of next).
Proof.
  intros next. subst next.
  unfold stage, MakeTempDir, bind, modify, emit, ret, gets.
  cbn [replies_ set_dirs].
  destruct (save_files env _ _ _ _) as [[[signatures|] w'] evs];
    cbn [flow_of world_of events_of fst snd app]; now rewrite ?app_nil_r.
Qed.

(** The staging as a whole. *)
Lemma stage_run (w : World) :
  let res := stage env w in
  (forall p, below (temp_dir env) p = false ->
     files (world_of res) !! p = files w !! p)
  /\ dirs (world_of res) = {[temp_dir env]} ∪ dirs w
  /\ path_ (world_of res) = path_ w
  /\ match flow_of res with
     | Next staged =>
         fst staged = temp_dir env
         /\ snd staged
            = List.filter (fun path => QString.endsWith path kSignatureSuffix)
                (map (staged_path (temp_dir env)) (replies_ w))
         /\ replies_ (world_of res) = replies_ w
         /\ deleted (world_of res) = deleted w
         /\ Forall (fun e => quiet e = true) (events_of res)
     | Returned =>
         exists evs message,
           events_of res = evs ++ [EvWarning message]
           /\ Forall (fun e => quiet e = true) evs
           /\ deleted (world_of res) = true
     end.
Proof.
  intros res. subst res. rewrite stage_unfold. cbv zeta.
  match goal with |- context [save_files env ?t ?l ?s ?w1] =>
    pose proof (save_files_run t l s w1) as Hrun; cbv zeta in Hrun;
    destruct (save_files env t l s w1) as [[r w'] evs]
  end.
  cbn [flow_of world_of events_of fst snd] in *.
  destruct Hrun as (Hfiles & Hdirs & Hpath & Hflow).
  destruct r as [signatures'|].
  - destruct Hflow as (Hr & Hd & Hq & Hs).
    repeat split; try assumption. now constructor.
  - destruct Hflow as (evs0 & message & -> & Hq & Hd).
    repeat split; try assumption.
    exists (EvMakeTempDir (temp_dir env) :: evs0), message.
    split; [reflexivity | split; [now constructor | exact Hd]].
Qed.

(** *** The public key *)

Lemma load_key_none (w : World) :
  public_key env = None ->
  load_key env w
  = (Returned, stopped w, [EvWarning "Failed to load Spotify public key"]).
Proof. intros Hk. unfold load_key. now rewrite Hk. Qed.

Lemma load_key_some (key : PublicKey) (w : World) :
  public_key env = Some key -> load_key env w = (Next key, w, []).
Proof. intros Hk. unfold load_key. now rewrite Hk. Qed.

Lemma filter_quiet_warning (P : Event -> bool) (evs : list Event) (message : string) :
  List.filter P evs = [] ->
  List.filter P (evs ++ [EvWarning message])
  = if P (EvWarning message) then [EvWarning message] else [].
Proof.
  intros Hq. rewrite List.filter_app, Hq. simpl.
  now destruct (P (EvWarning message)).
Qed.

Lemma not_in_app_warning (evs : list Event) (message : string) :
  ~ In EvFinished evs -> ~ In EvFinished (evs ++ [EvWarning message]).
Proof.
  intros Hn Hin. apply in_app_or in Hin as [Hin | [Hin | []]];
    [contradiction | discriminate].
Qed.

(** C4: when the embedded public key does not load, [ReplyFinished] checks
    no signature and does nothing to the destination directory, whatever
    the signatures are: no check, no [mkpath] and no move is made, the only
    files it touches lie below the temporary directory, and success is not
    reported. If the slot gets as far as loading the key (every reply has
    finished without error and all files were saved), it ends there with
    the one report that the key failed to load. *)
Theorem key_failure_blocks_install (sender : Reply) (w : World) :
  public_key env = None ->
  let res := ReplyFinished env sender w in
  List.filter is_verify (events_of res) = []
  /\ List.filter touches_destination (events_of res) = []
  /\ (forall p, below (temp_dir env) p = false ->
        files (world_of res) !! p = files w !! p)
  /\ ~ In EvFinished (events_of res)
  /\ (error sender = None ->
      forallb isFinished (replies_ w) = true ->
      forall staged, flow_of (stage env w) = Next staged ->
        res = (Returned, stopped (world_of (stage env w)),
               events_of (stage env w)
               ++ [EvWarning "Failed to load Spotify public key"])
        /\ List.filter is_report (events_of res)
           = [EvWarning "Failed to load Spotify public key"]
        /\ deleted (world_of res) = true).
Proof.
  intros Hkey res. subst res.
  destruct (error sender) as [message|] eqn:Herr.
  { rewrite (ReplyFinished_error _ message) by exact Herr.
    cbn. repeat split; try discriminate. intros [Hc|[]]. discriminate. }
  destruct (forallb isFinished (replies_ w)) eqn:Hall.
  2:{ rewrite ReplyFinished_waiting by assumption.
      cbn. repeat split; try discriminate. tauto. }
  rewrite ReplyFinished_barrier by assumption.
  pose proof (stage_run w) as Hrun. cbv zeta in Hrun.
  unfold finish_install.
  destruct (stage env w) as [[[staged|] w1] evs1] eqn:Hstage;
    cbn [flow_of world_of events_of fst snd] in Hrun;
    destruct Hrun as (Hfiles & Hdirs & Hpath & Hflow).
  - rewrite (bind_Next _ _ _ _ _ _ Hstage).
    rewrite (bind_Returned _ _ _ _ _ (load_key_none w1 Hkey)).
    cbn [flow_of world_of events_of fst snd].
    destruct Hflow as (_ & _ & _ & _ & Hq).
    destruct (quiet_filters _ Hq) as (Hq1 & Hq2 & Hq3 & Hq4).
    repeat split.
    + now rewrite filter_quiet_warning.
    + now rewrite filter_quiet_warning.
    + exact Hfiles.
    + now apply not_in_app_warning.
    + now rewrite filter_quiet_warning.
  - rewrite (bind_Returned _ _ _ _ _ Hstage).
    cbn [flow_of world_of events_of fst snd].
    destruct Hflow as (evs0 & message & -> & Hq & _).
    destruct (quiet_filters _ Hq) as (Hq1 & Hq2 & Hq3 & Hq4).
    repeat split.
    + now rewrite filter_quiet_warning.
    + now rewrite filter_quiet_warning.
    + exact Hfiles.
    + now apply not_in_app_warning.
    + discriminate.
    + discriminate.
    + discriminate.
Qed.

(** *** Verification *)

Lemma verify_signatures_cons (key : PublicKey) (signature_filename : string)
    (rest : list string) (w : World) :
  let filename := QString.remove signature_filename kSignatureSuffix in
  let next := verify_signatures env key rest w in
  verify_signatures env key (signature_filename :: rest) w
  = match verifies env key w signature_filename with
    | None => (Returned, w, [])
    | Some true =>
        (flow_of next, world_of next,
         EvVerify filename signature_filename true :: events_of next)
    | Some false =>
        (Returned, stopped w,
         [EvVerify filename signature_filename false;
          EvWarning ("Invalid signature: " +:+ filename)])
    end.
Proof.
  intros filename next. subst filename next.
  cbn [verify_signatures]. unfold verifies, read_in, bind, read_file, gets, emit.
  destruct (can_read env (QString.remove _ _));
    [destruct (files w !! QString.remove _ _) as [actual_file|] |];
    try reflexivity.
  destruct (can_read env signature_filename);
    [destruct (files w !! signature_filename) as [signature_file|] |];
    try reflexivity.
  destruct (verifyMessage key _ _).
  - now destruct (verify_signatures env key rest w) as [[r w'] evs].
  - reflexivity.
Qed.

(** The loop over the signatures changes no file and no directory, and
    acts on the destination in no way. It runs through when every check
    passes; else it stops at the first signature that does not pass: with a
    warning when the check fails, silently when a file cannot be read. *)
Lemma verify_signatures_run (key : PublicKey) (signatures : list string)
    (w : World) :
  let res := verify_signatures env key signatures w in
  files (world_of res) = files w
  /\ dirs (world_of res) = dirs w
  /\ List.filter touches_destination (events_of res) = []
  /\ ~ In EvFinished (events_of res)
  /\ match flow_of res with
     | Next _ =>
         world_of res = w
         /\ Forall (fun s => verifies env key w s = Some true) signatures
         /\ List.filter is_report (events_of res) = []
     | Returned =>
         exists before s after,
           signatures = before ++ s :: after
           /\ Forall (fun s => verifies env key w s = Some true) before
           /\ match verifies env key w s with
              | Some true => False
              | Some false =>
                  world_of res = stopped w
                  /\ List.filter is_report (events_of res)
                     = [EvWarning ("Invalid signature: "
                                   +:+ QString.remove s kSignatureSuffix)]
              | None =>
                  world_of res = w
                  /\ List.filter is_report (events_of res) = []
              end
     end.
Proof.
  induction signatures as [|s rest IH]; intros res; subst res.
  - cbn. repeat split; try constructor. tauto.
  - rewrite verify_signatures_cons. cbv zeta in IH |- *.
    destruct (verifies env key w s) as [[|]|] eqn:Hs.
    + destruct (verify_signatures env key rest w) as [[r w'] evs].
      cbn [flow_of world_of events_of fst snd] in *.
      destruct IH as (Hf & Hd & Ht & Hn & Hflow).
      repeat split; try assumption.
      * intros [Hc|Hc]; [discriminate | contradiction].
      * destruct r as [[]|].
        -- destruct Hflow as (-> & Hall & Hr).
           repeat split; [now constructor | exact Hr].
        -- destruct Hflow as (before & s' & after & -> & Hall & Hs').
           exists (s :: before), s', after.
           split; [reflexivity | split; [now constructor | exact Hs']].
    + cbn. repeat split; [intros [Hc|[Hc|[]]]; discriminate |].
      exists [], s, rest. rewrite Hs. repeat split. constructor.
    + cbn. repeat split; [tauto |].
      exists [], s, rest. rewrite Hs. repeat split. constructor.
Qed.

(** *** Installation *)

Lemma rename_run (source_path dest_path : string) (w : World) :
  rename env source_path dest_path w
  = if movable env w source_path dest_path
    then (Next true, moved source_path dest_path w,
          [EvRename source_path dest_path])
    else (Next false, w, []).
Proof.
  unfold rename, movable, moved.
  destruct (files w !! source_path), (files w !! dest_path); try reflexivity.
Qed.

Lemma moved_path (source_path dest_path : string) (w : World) :
  path_ (moved source_path dest_path w) = path_ w.
Proof. unfold moved. now destruct (files w !! source_path). Qed.

Lemma move_files_cons (temp_directory : string) (reply : Reply)
    (rest : list Reply) (w : World) :
  let source_path := staged_path temp_directory reply in
  let dest_path := dest_path_of w reply in
  let next := move_files env temp_directory rest (moved source_path dest_path w) in
  move_files env temp_directory (reply :: rest) w
  = if is_signature reply then move_files env temp_directory rest w
    else if movable env w source_path dest_path
    then (flow_of next, world_of next,
          EvRename source_path dest_path :: events_of next)
    else (Returned, stopped w, [EvWarning ("Writing file failed: " +:+ dest_path)]).
Proof.
  intros source_path dest_path next. subst source_path dest_path next.
  cbn [move_files]. unfold bind at 1. cbn [gets].
  fold (staged_path temp_directory reply). fold (dest_path_of w reply).
  fold (is_signature reply).
  destruct (is_signature reply).
  - now destruct (move_files env temp_directory rest w) as [[r w'] evs].
  - unfold bind at 1. rewrite rename_run.
    destruct (movable env w _ _).
    + now destruct (move_files env temp_directory rest _) as [[r w'] evs].
    + reflexivity.
Qed.

(** The install loop neither reads nor changes the directories. *)
Lemma move_files_set_dirs (temp_directory : string) (replies : list Reply) :
  forall (w : World) (ds : gset string),
    move_files env temp_directory replies (set_dirs ds w)
    = (flow_of (move_files env temp_directory replies w),
       set_dirs ds (world_of (move_files env temp_directory replies w)),
       events_of (move_files env temp_directory replies w)).
Proof.
  induction replies as [|reply rest IH]; intros w ds; [reflexivity |].
  rewrite !move_files_cons. cbv zeta.
  destruct (is_signature reply); [apply IH |].
  change (movable env (set_dirs ds w) (staged_path temp_directory reply)
            (dest_path_of (set_dirs ds w) reply))
    with (movable env w (staged_path temp_directory reply) (dest_path_of w reply)).
  change (dest_path_of (set_dirs ds w) reply) with (dest_path_of w reply).
  destruct (movable env w _ _); [| reflexivity].
  assert (Hmoved : forall s d, moved s d (set_dirs ds w) = set_dirs ds (moved s d w)).
  { intros s d. unfold moved. cbn [set_dirs files].
    now destruct (files w !! s). }
  rewrite Hmoved, IH. reflexivity.
Qed.

Lemma dest_path_of_path (w w' : World) (reply : Reply) :
  path_ w' = path_ w -> dest_path_of w' reply = dest_path_of w reply.
Proof. unfold dest_path_of. now intros ->. Qed.

(** The loop that moves the files: it either moves every artifact, in the
    order of the replies, or moves the artifacts before the first one that
    cannot be moved and stops there with a warning. *)
Lemma move_files_run (temp_directory : string) (replies : list Reply) :
  forall w : World,
    let res := move_files env temp_directory replies w in
    path_ (world_of res) = path_ w
    /\ dirs (world_of res) = dirs w
    /\ match flow_of res with
       | Next _ =>
           events_of res
           = map (move_event temp_directory w) (artifacts replies)
           /\ replies_ (world_of res) = replies_ w
           /\ deleted (world_of res) = deleted w
       | Returned =>
           exists before reply after w_mid,
             replies = before ++ reply :: after
             /\ is_signature reply = false
             /\ move_files env temp_directory before w
                = (Next tt, w_mid,
                   map (move_event temp_directory w) (artifacts before))
             /\ movable env w_mid (staged_path temp_directory reply)
                  (dest_path_of w reply) = false
             /\ res
                = (Returned, stopped w_mid,
                   map (move_event temp_directory w) (artifacts before)
                   ++ [EvWarning ("Writing file failed: " +:+ dest_path_of w reply)])
       end.
Proof.
  induction replies as [|reply rest IH]; intros w res; subst res.
  - cbn. now repeat split.
  - rewrite move_files_cons. cbv zeta.
    destruct (is_signature reply) eqn:Hsig.
    + specialize (IH w). cbv zeta in IH.
      destruct IH as (Hp & Hd & Hflow). split; [exact Hp | split; [exact Hd |]].
      destruct (flow_of (move_files env temp_directory rest w)) as [[]|] eqn:Hr.
      * unfold artifacts. cbn [List.filter]. rewrite Hsig. exact Hflow.
      * destruct Hflow as (before & r & after & w_mid & -> & Hr' & Hpre & Hm & Hres).
        exists (reply :: before), r, after, w_mid.
        split; [reflexivity | split; [exact Hr' |]].
        unfold artifacts in *. cbn [List.filter]. rewrite Hsig. cbn [negb].
        split; [| split; [exact Hm | exact Hres]].
        rewrite move_files_cons. cbv zeta. now rewrite Hsig.
    + destruct (movable env w _ _) eqn:Hmov.
      * set (w1 := moved (staged_path temp_directory reply) (dest_path_of w reply) w).
        assert (Hp1 : path_ w1 = path_ w) by apply moved_path.
        assert (Hev : forall l, map (move_event temp_directory w1) l
                                = map (move_event temp_directory w) l).
        { intros l. apply map_ext. intros r. unfold move_event.
          now rewrite (dest_path_of_path w w1). }
        specialize (IH w1). cbv zeta in IH.
        destruct (move_files env temp_directory rest w1) as [[r w'] evs] eqn:Hrest.
        cbn [flow_of world_of events_of fst snd] in *.
        destruct IH as (Hp & Hd & Hflow).
        split; [congruence |].
        split; [rewrite Hd; unfold w1, moved;
                now destruct (files w !! staged_path temp_directory reply) |].
        destruct r as [[]|].
        -- destruct Hflow as (-> & Hr & Hdel).
           unfold artifacts. cbn [List.filter]. rewrite Hsig. cbn [negb map].
           rewrite Hev. split; [reflexivity |].
           unfold w1, moved in Hr, Hdel.
           destruct (files w !! staged_path temp_directory reply);
             split; assumption.
        -- destruct Hflow as (before & r & after & w_mid & -> & Hr' & Hpre & Hm & Hres).
           exists (reply :: before), r, after, w_mid.
           split; [reflexivity | split; [exact Hr' |]].
           rewrite (dest_path_of_path w w1) in Hm, Hres by exact Hp1.
           rewrite Hev in Hpre, Hres.
           unfold artifacts in *. cbn [List.filter]. rewrite Hsig. cbn [negb map].
           split; [| split; [exact Hm |]].
           ++ rewrite move_files_cons. cbv zeta. rewrite Hsig, Hmov.
              fold w1. now rewrite Hpre.
           ++ injection Hres as -> ->. reflexivity.
      * cbn [flow_of world_of events_of fst snd].
        split; [reflexivity | split; [reflexivity |]].
        exists [], reply, rest, w.
        split; [reflexivity | split; [exact Hsig |]].
        split; [reflexivity | split; [exact Hmov | reflexivity]].
Qed.

Lemma filename_of_no_slash (reply : Reply) :
  QString.contains (filename_of reply) "/" = false.
Proof. apply last_field_no_sep. reflexivity. Qed.

Lemma staged_ne_dest (temp_directory : string) (w : World) (r r' : Reply) :
  temp_directory <> path_ w ->
  dest_path_of w r <> staged_path temp_directory r'.
Proof.
  intros Hne Heq. unfold dest_path_of, staged_path in Heq.
  apply path_split_unique in Heq as [Heq _];
    [congruence | apply filename_of_no_slash ..].
Qed.

(** A file that is moved does not lie in the directory it is moved to. *)
Lemma movable_distinct (temp_directory : string) (w : World) (r : Reply) :
  movable env w (staged_path temp_directory r) (dest_path_of w r) = true ->
  temp_directory <> path_ w.
Proof.
  unfold movable, staged_path, dest_path_of. intros Hm ->.
  destruct (files w !! _); discriminate.
Qed.

Lemma moved_lookup (source_path dest_path p : string) (w : World) :
  movable env w source_path dest_path = true ->
  p <> source_path ->
  is_Some (files w !! p) ->
  is_Some (files (moved source_path dest_path w) !! p).
Proof.
  unfold movable, moved. intros Hm Hne Hp.
  destruct (files w !! source_path) as [f|]; [|discriminate]. cbn.
  destruct (decide (dest_path = p)) as [->|Hd].
  - rewrite lookup_insert_eq. eauto.
  - rewrite lookup_insert_ne, lookup_delete_ne by congruence. exact Hp.
Qed.

Lemma moved_lookup_dest (source_path dest_path : string) (w : World) :
  movable env w source_path dest_path = true ->
  is_Some (files (moved source_path dest_path w) !! dest_path).
Proof.
  unfold movable, moved. intros Hm.
  destruct (files w !! source_path) as [f|]; [|discriminate]. cbn.
  rewrite lookup_insert_eq. eauto.
Qed.

(** Later moves leave alone every file that is not one of their sources. *)
Lemma move_files_keeps (temp_directory : string) (replies : list Reply) :
  forall (w w' : World) (evs : list Event) (p : string),
    move_files env temp_directory replies w = (Next tt, w', evs) ->
    (forall r, In r replies -> p <> staged_path temp_directory r) ->
    is_Some (files w !! p) ->
    is_Some (files w' !! p).
Proof.
  induction replies as [|reply rest IH]; intros w w' evs p Hrun Hsrc Hp.
  - injection Hrun as <- _. exact Hp.
  - rewrite move_files_cons in Hrun. cbv zeta in Hrun.
    assert (Hrest : forall r, In r rest -> p <> staged_path temp_directory r).
    { intros r Hr. apply Hsrc. now right. }
    destruct (is_signature reply); [now apply (IH w w' evs) |].
    destruct (movable env w _ _) eqn:Hm; [|discriminate].
    destruct (move_files env temp_directory rest _) as [[r1 w1] evs1] eqn:Hnext.
    cbn [flow_of world_of events_of fst snd] in Hrun.
    injection Hrun as -> -> _.
    apply (IH _ _ _ p Hnext Hrest).
    apply moved_lookup; [exact Hm | apply Hsrc; now left | exact Hp].
Qed.

(** When the loop runs through, every artifact is in the destination. *)
Lemma move_files_installs (temp_directory : string) (replies : list Reply) :
  forall (w w' : World) (evs : list Event),
    move_files env temp_directory replies w = (Next tt, w', evs) ->
    forall r, In r replies -> is_signature r = false ->
      is_Some (files w' !! dest_path_of w r).
Proof.
  induction replies as [|reply rest IH]; intros w w' evs Hrun r Hin Hsig;
    [destruct Hin |].
  rewrite move_files_cons in Hrun. cbv zeta in Hrun.
  destruct (is_signature reply) eqn:Hs.
  { destruct Hin as [-> | Hin]; [congruence | now apply (IH w w' evs)]. }
  destruct (movable env w _ _) eqn:Hm; [|discriminate].
  destruct (move_files env temp_directory rest _) as [[r1 w1] evs1] eqn:Hnext.
  cbn [flow_of world_of events_of fst snd] in Hrun.
  injection Hrun as -> -> _.
  destruct Hin as [-> | Hin].
  - apply (move_files_keeps _ _ _ _ _ _ Hnext).
    + intros r' _. apply staged_ne_dest. now apply movable_distinct with r.
    + now apply moved_lookup_dest.
  - rewrite <- (dest_path_of_path w (moved (staged_path temp_directory reply)
                                       (dest_path_of w reply) w))
      by apply moved_path.
    now apply (IH _ _ _ Hnext).
Qed.

(** [ReplyFinished] from the [mkpath] on, once the signatures are verified. *)
Lemma finish_install_verified (w w1 : World) (staged : string * list string)
    (key : PublicKey) (evs1 evs2 : list Event) :
  stage env w = (Next staged, w1, evs1) ->
  public_key env = Some key ->
  verify_signatures env key (snd staged) w1 = (Next tt, w1, evs2) ->
  let w3 := set_dirs (made_dirs env (path_ w1) ∪ dirs w1) w1 in
  let res := move_files env (fst staged) (replies_ w1) w3 in
  finish_install env w
  = match flow_of res with
    | Next _ =>
        (Next tt, set_deleted (removed (fst staged) (world_of res)),
         evs1 ++ evs2 ++ EvMkpath (path_ w1) :: events_of res
         ++ [EvRemoveRecursive (fst staged); EvFinished])
    | Returned =>
        (Returned, world_of res,
         evs1 ++ evs2 ++ EvMkpath (path_ w1) :: events_of res)
    end.
Proof.
  intros Hstage Hkey Hverify w3 res. subst res w3.
  unfold finish_install.
  rewrite (bind_Next _ _ _ _ _ _ Hstage).
  rewrite (bind_Next _ _ _ _ _ _ (load_key_some key w1 Hkey)).
  rewrite (bind_Next _ _ _ _ _ _ Hverify).
  unfold install, RemoveRecursive, EmitFinished, deleteLater.
  unfold bind, gets, modify, emit. cbn [set_dirs replies_ path_ dirs].
  destruct (move_files env _ _ _) as [[[[]|] w4] evs4];
    cbn [flow_of world_of events_of fst snd app]; rewrite ?app_nil_r;
    reflexivity.
Qed.

Lemma quiet_no_rename (evs : list Event) :
  Forall (fun e => quiet e = true) evs -> List.filter is_rename evs = [].
Proof.
  induction 1 as [|e evs He _ IH]; [reflexivity |].
  destruct e; try discriminate He; exact IH.
Qed.

Lemma untouched_no_rename (evs : list Event) :
  List.filter touches_destination evs = [] -> List.filter is_rename evs = [].
Proof.
  induction evs as [|e evs IH]; [reflexivity |].
  destruct e; simpl; try discriminate; exact IH.
Qed.

Lemma moves_are_renames (temp_directory : string) (w : World) (l : list Reply) :
  List.filter is_rename (map (move_event temp_directory w) l)
  = map (move_event temp_directory w) l
  /\ List.filter is_report (map (move_event temp_directory w) l) = []
  /\ ~ In EvFinished (map (move_event temp_directory w) l).
Proof.
  induction l as [|r l (IH1 & IH2 & IH3)]; [now simpl |].
  repeat split; simpl; [now rewrite IH1 | exact IH2 |].
  intros [Hc|Hc]; [discriminate | contradiction].
Qed.

(** A run of [ReplyFinished] that reports success has gone through every
    step. *)
Lemma ReplyFinished_success (sender : Reply) (w : World) :
  In EvFinished (events_of (ReplyFinished env sender w)) ->
  exists staged w1 evs1 key evs2 w4 evs4,
    error sender = None
    /\ forallb isFinished (replies_ w) = true
    /\ stage env w = (Next staged, w1, evs1)
    /\ public_key env = Some key
    /\ verify_signatures env key (snd staged) w1 = (Next tt, w1, evs2)
    /\ move_files env (fst staged) (replies_ w1)
         (set_dirs (made_dirs env (path_ w1) ∪ dirs w1) w1)
       = (Next tt, w4, evs4)
    /\ ReplyFinished env sender w
       = (Next tt, set_deleted (removed (fst staged) w4),
          evs1 ++ evs2 ++ EvMkpath (path_ w1) :: evs4
          ++ [EvRemoveRecursive (fst staged); EvFinished]).
Proof.
  destruct (error sender) as [message|] eqn:Herr.
  { rewrite (ReplyFinished_error _ message) by exact Herr.
    intros [Hc|[]]. discriminate. }
  destruct (forallb isFinished (replies_ w)) eqn:Hall.
  2:{ rewrite ReplyFinished_waiting by assumption. intros []. }
  rewrite ReplyFinished_barrier by assumption.
  pose proof (stage_run w) as Hrun. cbv zeta in Hrun.
  destruct (stage env w) as [[[staged|] w1] evs1] eqn:Hstage;
    cbn [flow_of world_of events_of fst snd] in Hrun;
    destruct Hrun as (_ & _ & _ & Hflow).
  2:{ unfold finish_install. rewrite (bind_Returned _ _ _ _ _ Hstage).
      destruct Hflow as (evs0 & message & -> & Hq & _).
      intros Hin. apply not_in_app_warning in Hin; [destruct Hin |].
      now apply quiet_filters. }
  destruct Hflow as (_ & _ & _ & _ & Hq).
  apply quiet_filters in Hq as (_ & _ & _ & Hq).
  destruct (public_key env) as [key|] eqn:Hkey.
  2:{ unfold finish_install. rewrite (bind_Next _ _ _ _ _ _ Hstage).
      rewrite (bind_Returned _ _ _ _ _ (load_key_none w1 Hkey)).
      intros Hin. now apply not_in_app_warning in Hin. }
  pose proof (verify_signatures_run key (snd staged) w1) as Hver.
  cbv zeta in Hver.
  destruct (verify_signatures env key (snd staged) w1) as [[r2 w2] evs2] eqn:Hv.
  cbn [flow_of world_of events_of fst snd] in Hver.
  destruct Hver as (_ & _ & _ & Hn2 & Hflow).
  destruct r2 as [[]|].
  2:{ unfold finish_install. rewrite (bind_Next _ _ _ _ _ _ Hstage).
      rewrite (bind_Next _ _ _ _ _ _ (load_key_some key w1 Hkey)).
      rewrite (bind_Returned _ _ _ _ _ Hv).
      cbn [flow_of world_of events_of fst snd app].
      intros Hin. apply in_app_or in Hin as [Hin|Hin]; contradiction. }
  destruct Hflow as (-> & _ & _).
  rewrite (finish_install_verified w w1 staged key evs1 evs2) by assumption.
  cbv zeta.
  pose proof (move_files_run (fst staged) (replies_ w1)
                (set_dirs (made_dirs env (path_ w1) ∪ dirs w1) w1)) as Hmove.
  cbv zeta in Hmove.
  destruct (move_files env (fst staged) (replies_ w1) _) as [[r4 w4] evs4] eqn:Hm.
  cbn [flow_of world_of events_of fst snd] in *.
  destruct Hmove as (_ & _ & Hflow).
  destruct r4 as [[]|].
  - intros _. exists staged, w1, evs1, key, evs2, w4, evs4. now repeat split.
  - destruct Hflow as (before & r & after & w_mid & _ & _ & _ & _ & [= _ ->]).
    intros Hin. exfalso.
    apply in_app_or in Hin as [Hin|Hin]; [contradiction |].
    apply in_app_or in Hin as [Hin|[Hin|Hin]];
      [contradiction | discriminate |].
    apply in_app_or in Hin as [Hin|[Hin|[]]]; [|discriminate].
    now apply moves_are_renames in Hin.
Qed.

(** *** What the installed files hold *)

Lemma moved_files_lookup (source_path dest_path p : string) (w : World) :
  movable env w source_path dest_path = true ->
  files (moved source_path dest_path w) !! p
  = if decide (p = dest_path) then files w !! source_path
    else if decide (p = source_path) then None
    else files w !! p.
Proof.
  unfold movable, moved. intros Hm.
  destruct (files w !! source_path) as [f|] eqn:Hsrc; [|discriminate]. cbn.
  destruct (decide (p = dest_path)) as [->|Hd].
  - now rewrite lookup_insert_eq.
  - rewrite lookup_insert_ne by congruence.
    destruct (decide (p = source_path)) as [->|Hs].
    + apply lookup_delete_eq.
    + now rewrite lookup_delete_ne by congruence.
Qed.

Lemma movable_source (source_path dest_path : string) (w : World) :
  movable env w source_path dest_path = true ->
  is_Some (files w !! source_path) /\ files w !! dest_path = None.
Proof.
  unfold movable. intros Hm.
  destruct (files w !! source_path), (files w !! dest_path);
    try discriminate; eauto.
Qed.

(** Once saved, the file of a reply holds the body of a reply of that
    name; a path that is no reply's is as it was. *)
Lemma save_files_content (temp_directory : string) (replies : list Reply) :
  forall (signatures signatures' : list string) (w w1 : World)
         (evs : list Event) (p : string),
    save_files env temp_directory replies signatures w
    = (Next signatures', w1, evs) ->
    (exists r, In r replies
               /\ staged_path temp_directory r = p
               /\ files w1 !! p = Some (mkFile (body r) 0x7755))
    \/ ((forall r, In r replies -> staged_path temp_directory r <> p)
        /\ files w1 !! p = files w !! p).
Proof.
  induction replies as [|reply rest IH];
    intros signatures signatures' w w1 evs p Hrun.
  - injection Hrun as _ <- _. right. split; [intros r [] | reflexivity].
  - destruct (can_write env (staged_path temp_directory reply)) eqn:Hw.
    2:{ cbn [save_files] in Hrun. fold (staged_path temp_directory reply) in Hrun.
        rewrite Hw in Hrun.
        rewrite (bind_Next _ _ _ _ _ _ (ShowError_run _ w)) in Hrun.
        discriminate Hrun. }
    rewrite save_files_cons in Hrun by exact Hw. cbv zeta in Hrun.
    destruct (save_files env temp_directory rest _ _) as [[r2 w2] evs2] eqn:Hrest.
    cbn [flow_of world_of events_of fst snd] in Hrun.
    injection Hrun as -> -> _.
    destruct (IH _ _ _ _ _ p Hrest) as [(r & Hr & Hp & Hf) | (Hnone & Hf)].
    + left. exists r. split; [now right | split; assumption].
    + destruct (decide (staged_path temp_directory reply = p)) as [Heq|Hne].
      * left. exists reply. split; [now left | split; [exact Heq |]].
        rewrite Hf. cbn [files set_files]. rewrite Heq.
        apply lookup_insert_eq.
      * right. split.
        -- intros r [<- | Hr]; [exact Hne | now apply Hnone].
        -- rewrite Hf. cbn [files set_files]. now apply lookup_insert_ne.
Qed.

(** Later moves leave a file alone that is there and is not one of their
    sources. *)
Lemma move_files_keeps_file (temp_directory : string) (replies : list Reply) :
  forall (w w' : World) (evs : list Event) (p : string),
    move_files env temp_directory replies w = (Next tt, w', evs) ->
    (forall r, In r replies -> p <> staged_path temp_directory r) ->
    is_Some (files w !! p) ->
    files w' !! p = files w !! p.
Proof.
  induction replies as [|reply rest IH]; intros w w' evs p Hrun Hsrc Hp.
  - now injection Hrun as <- _.
  - rewrite move_files_cons in Hrun. cbv zeta in Hrun.
    assert (Hrest : forall r, In r rest -> p <> staged_path temp_directory r).
    { intros r Hr. apply Hsrc. now right. }
    destruct (is_signature reply); [now apply (IH w w' evs) |].
    destruct (movable env w _ _) eqn:Hm; [|discriminate].
    destruct (move_files env temp_directory rest _) as [[r1 w1] evs1] eqn:Hnext.
    cbn [flow_of world_of events_of fst snd] in Hrun.
    injection Hrun as -> -> _.
    assert (Hstep :
      files (moved (staged_path temp_directory reply) (dest_path_of w reply) w) !! p
      = files w !! p).
    { rewrite moved_files_lookup by exact Hm.
      destruct (movable_source _ _ _ Hm) as [_ Hdst].
      destruct (decide (p = dest_path_of w reply)) as [->|_].
      - rewrite Hdst in Hp. now destruct Hp.
      - destruct (decide (p = staged_path temp_directory reply)) as [->|_];
          [|reflexivity].
        exfalso. eapply Hsrc; [now left | reflexivity]. }
    rewrite <- Hstep. apply (IH _ _ _ p Hnext Hrest). now rewrite Hstep.
Qed.

(** Moves leave alone every path that is neither a source nor a target. *)
Lemma move_files_frame (temp_directory : string) (replies : list Reply) :
  forall (w w' : World) (evs : list Event) (p : string),
    move_files env temp_directory replies w = (Next tt, w', evs) ->
    (forall r, In r replies -> is_signature r = false ->
       p <> staged_path temp_directory r /\ p <> dest_path_of w r) ->
    files w' !! p = files w !! p.
Proof.
  induction replies as [|reply rest IH]; intros w w' evs p Hrun Hp.
  - now injection Hrun as <- _.
  - rewrite move_files_cons in Hrun. cbv zeta in Hrun.
    assert (Hrest : forall r, In r rest -> is_signature r = false ->
              p <> staged_path temp_directory r /\ p <> dest_path_of w r).
    { intros r Hr. apply Hp. now right. }
    destruct (is_signature reply) eqn:Hsig; [now apply (IH w w' evs) |].
    destruct (movable env w _ _) eqn:Hm; [|discriminate].
    destruct (move_files env temp_directory rest _) as [[r1 w1] evs1] eqn:Hnext.
    cbn [flow_of world_of events_of fst snd] in Hrun.
    injection Hrun as -> -> _.
    destruct (Hp reply (or_introl eq_refl) Hsig) as [Hs Hd].
    rewrite (IH _ _ _ p Hnext).
    + rewrite moved_files_lookup by exact Hm.
      now rewrite !decide_False by assumption.
    + intros r Hr Hrsig.
      rewrite (dest_path_of_path w) by apply moved_path. now apply Hrest.
Qed.

(** When the loop runs through, each artifact's staged file has become its
    installed file. *)
Lemma move_files_content (temp_directory : string) (replies : list Reply) :
  forall (w w' : World) (evs : list Event),
    move_files env temp_directory replies w = (Next tt, w', evs) ->
    forall r, In r replies -> is_signature r = false ->
      exists f,
        files w !! staged_path temp_directory r = Some f
        /\ files w' !! dest_path_of w r = Some f.
Proof.
  induction replies as [|reply rest IH]; intros w w' evs Hrun r Hin Hsig;
    [destruct Hin |].
  rewrite move_files_cons in Hrun. cbv zeta in Hrun.
  destruct (is_signature reply) eqn:Hs.
  { destruct Hin as [-> | Hin]; [congruence | now apply (IH w w' evs)]. }
  destruct (movable env w _ _) eqn:Hm; [|discriminate].
  destruct (move_files env temp_directory rest _) as [[r1 w1] evs1] eqn:Hnext.
  cbn [flow_of world_of events_of fst snd] in Hrun.
  injection Hrun as -> -> _.
  pose proof (movable_distinct _ _ _ Hm) as Hdirs.
  destruct (movable_source _ _ _ Hm) as [[f0 Hsrc] Hdst].
  assert (Hmoved :
    files (moved (staged_path temp_directory reply) (dest_path_of w reply) w)
      !! dest_path_of w reply = Some f0).
  { rewrite moved_files_lookup by exact Hm. now rewrite decide_True. }
  destruct Hin as [-> | Hin].
  - exists f0. split; [exact Hsrc |].
    rewrite (move_files_keeps_file _ _ _ _ _ _ Hnext); [exact Hmoved | | eauto].
    intros r' _. now apply staged_ne_dest.
  - destruct (IH _ _ _ Hnext r Hin Hsig) as (f & Hf & Hf').
    rewrite (dest_path_of_path w) in Hf' by apply moved_path.
    exists f. split; [|exact Hf'].
    rewrite moved_files_lookup in Hf by exact Hm.
    rewrite decide_False in Hf
      by (intros Heq; symmetry in Heq; revert Heq; now apply staged_ne_dest).
    destruct (decide (staged_path temp_directory r
                      = staged_path temp_directory reply)); [discriminate |].
    exact Hf.
Qed.

(** When the loop runs through, no two artifacts share a file name. *)
Lemma move_files_unique (temp_directory : string) (replies : list Reply) :
  forall (w w' : World) (evs : list Event),
    move_files env temp_directory replies w = (Next tt, w', evs) ->
    forall r r', In r replies -> In r' replies ->
      is_signature r = false ->
      filename_of r' = filename_of r ->
      r' = r.
Proof.
  induction replies as [|reply rest IH]; intros w w' evs Hrun r r' Hr Hr' Hsig Hname;
    [destruct Hr |].
  assert (Hsig' : is_signature r' = false).
  { unfold is_signature in *. now rewrite Hname. }
  rewrite move_files_cons in Hrun. cbv zeta in Hrun.
  destruct (is_signature reply) eqn:Hs.
  { destruct Hr as [-> | Hr]; [congruence |].
    destruct Hr' as [-> | Hr']; [congruence |].
    now apply (IH w w' evs). }
  destruct (movable env w _ _) eqn:Hm; [|discriminate].
  destruct (move_files env temp_directory rest _) as [[r1 w1] evs1] eqn:Hnext.
  cbn [flow_of world_of events_of fst snd] in Hrun.
  injection Hrun as -> -> _.
  assert (Hgone : forall x, In x rest -> is_signature x = false ->
                    filename_of x = filename_of reply -> False).
  { intros x Hx Hxsig Hxname.
    destruct (move_files_content _ _ _ _ _ Hnext x Hx Hxsig) as (f & Hf & _).
    assert (Hsame : staged_path temp_directory x
                    = staged_path temp_directory reply).
    { unfold staged_path. now rewrite Hxname. }
    rewrite Hsame, moved_files_lookup in Hf by exact Hm.
    rewrite decide_False in Hf
      by (intros Heq; symmetry in Heq; revert Heq;
          apply staged_ne_dest; now apply movable_distinct with reply).
    now rewrite decide_True in Hf. }
  destruct Hr as [-> | Hr], Hr' as [-> | Hr'].
  - reflexivity.
  - destruct (Hgone r' Hr' Hsig' Hname).
  - destruct (Hgone r Hr Hsig (eq_sym Hname)).
  - now apply (IH _ _ _ Hnext).
Qed.

Lemma removed_lookup (dir p : string) (w : World) :
  below dir p = false -> files (removed dir w) !! p = files w !! p.
Proof.
  intros Hp. cbn. destruct (files w !! p) as [f|] eqn:Hf.
  - now apply map_lookup_filter_Some_2.
  - apply map_lookup_filter_None_2. now left.
Qed.

Lemma stage_saved (w w1 : World) (staged : string * list string)
    (evs1 : list Event) :
  stage env w = (Next staged, w1, evs1) ->
  exists evs,
    save_files env (temp_dir env) (replies_ w) []
      (set_dirs ({[temp_dir env]} ∪ dirs w) w)
    = (Next (snd staged), w1, evs).
Proof.
  rewrite stage_unfold. cbv zeta.
  destruct (save_files env _ _ _ _) as [[[signatures|] w'] evs];
    cbn [flow_of world_of events_of fst snd]; [|discriminate].
  intros [= <- <- _]. now exists evs.
Qed.

(** C7: when [ReplyFinished] reports success, the files it has moved are
    exactly the staged files of the replies whose file name does not end in
    [kSignatureSuffix], each moved from the temporary directory to [path_]
    under its own name, in the order of the replies, and no file is moved
    onto a name in [path_] that ends in the suffix. Success is the only
    report. On disk, for every reply whose destination does not lie below
    the temporary directory: if its name does not end in the suffix, its
    destination holds the bytes of the reply with the fixed permissions; if
    it does, its destination is as it was before the slot ran. *)
Theorem success_moves_artifacts (sender : Reply) (w : World) :
  let res := ReplyFinished env sender w in
  In EvFinished (events_of res) ->
  List.filter is_rename (events_of res)
  = map (fun reply =>
           EvRename ((temp_dir env +:+ "/") +:+ filename_of reply)
             ((path_ w +:+ "/") +:+ filename_of reply))
      (List.filter
         (fun reply => negb (QString.endsWith (filename_of reply) kSignatureSuffix))
         (replies_ w))
  /\ (forall source_path filename,
        In (EvRename source_path ((path_ w +:+ "/") +:+ filename)) (events_of res) ->
        QString.endsWith filename kSignatureSuffix = false)
  /\ List.filter is_report (events_of res) = [EvFinished]
  /\ (forall reply,
        In reply (replies_ w) ->
        below (temp_dir env) ((path_ w +:+ "/") +:+ filename_of reply) = false ->
        files (world_of res) !! ((path_ w +:+ "/") +:+ filename_of reply)
        = if QString.endsWith (filename_of reply) kSignatureSuffix
          then files w !! ((path_ w +:+ "/") +:+ filename_of reply)
          else Some (mkFile (body reply) 0x7755)).
Proof.
  intros res Hin. subst res.
  destruct (ReplyFinished_success _ _ Hin)
    as (staged & w1 & evs1 & key & evs2 & w4 & evs4
        & Herr & Hall & Hstage & Hkey & Hv & Hm & Hres).
  pose proof (stage_run w) as Hrun. cbv zeta in Hrun.
  rewrite Hstage in Hrun. cbn [flow_of world_of events_of fst snd] in Hrun.
  destruct Hrun as (Hstaged & _ & Hpath & Htemp & _ & Hreplies & _ & Hq).
  rewrite Htemp, Hreplies, Hpath in Hm.
  set (w3 := set_dirs (made_dirs env (path_ w) ∪ dirs w1) w1) in *.
  assert (Hdest : forall r, dest_path_of w3 r = dest_path_of w r).
  { intros r. now apply dest_path_of_path. }
  pose proof (move_files_run (temp_dir env) (replies_ w) w3) as Hmove.
  cbv zeta in Hmove. rewrite Hm in Hmove.
  cbn [flow_of world_of events_of fst snd] in Hmove.
  destruct Hmove as (_ & _ & Hevs4 & _).
  assert (Hmoves : evs4 = map (move_event (temp_dir env) w) (artifacts (replies_ w))).
  { rewrite Hevs4. apply map_ext. intros r. unfold move_event.
    now rewrite Hdest. }
  pose proof (verify_signatures_run key (snd staged) w1) as Hver.
  cbv zeta in Hver. rewrite Hv in Hver.
  cbn [flow_of world_of events_of fst snd] in Hver.
  destruct Hver as (_ & _ & Ht2 & _ & _ & _ & Hr2).
  destruct (moves_are_renames (temp_dir env) w (artifacts (replies_ w)))
    as (Hmv1 & Hmv2 & _).
  assert (Hrenames :
    List.filter is_rename (events_of (ReplyFinished env sender w))
    = map (move_event (temp_dir env) w) (artifacts (replies_ w))).
  { rewrite Hres. cbn [events_of snd].
    rewrite !List.filter_app. cbn [List.filter is_rename].
    rewrite !List.filter_app. cbn [List.filter is_rename].
    rewrite (quiet_no_rename _ Hq), (untouched_no_rename _ Ht2), Hmoves, Hmv1.
    now rewrite app_nil_r. }
  split; [exact Hrenames |].
  split.
  { intros source_path filename Hmoved.
    assert (Hmoved' : In (EvRename source_path ((path_ w +:+ "/") +:+ filename))
                        (List.filter is_rename (events_of (ReplyFinished env sender w)))).
    { apply List.filter_In. now split. }
    rewrite Hrenames in Hmoved'.
    apply in_map_iff in Hmoved' as (r & Heq & Hr).
    apply List.filter_In in Hr as [_ Hr].
    unfold move_event, dest_path_of in Heq. injection Heq as _ Heq.
    apply append_inj_l in Heq. subst filename.
    now apply negb_true_iff in Hr. }
  split.
  { rewrite Hres. cbn [events_of snd].
    rewrite !List.filter_app. cbn [List.filter is_report].
    rewrite !List.filter_app. cbn [List.filter is_report].
    destruct (quiet_filters _ Hq) as (-> & _).
    now rewrite Hr2, Hmoves, Hmv2. }
  intros reply Hreply Hbelow.
  rewrite Hres, Htemp. cbn [world_of fst snd].
  change (files (set_deleted (removed (temp_dir env) w4)))
    with (files (removed (temp_dir env) w4)).
  rewrite removed_lookup by exact Hbelow.
  fold (dest_path_of w reply) in Hbelow |- *.
  fold (is_signature reply).
  destruct (is_signature reply) eqn:Hsig.
  - rewrite (move_files_frame _ _ _ _ _ _ Hm).
    + now apply Hstaged.
    + intros r Hr Hrsig. split.
      * intros Heq. rewrite Heq, staged_path_below in Hbelow. discriminate.
      * rewrite Hdest. unfold dest_path_of. intros Heq.
        apply append_inj_l in Heq. unfold is_signature in *. congruence.
  - destruct (move_files_content _ _ _ _ _ Hm reply Hreply Hsig)
      as (f & Hf & Hf').
    rewrite Hdest in Hf'. rewrite Hf'. f_equal.
    destruct (stage_saved _ _ _ _ Hstage) as (evs & Hsave).
    destruct (save_files_content _ _ _ _ _ _ _
                (staged_path (temp_dir env) reply) Hsave)
      as [(r & Hr & Hp & Hbody) | (Hnone & _)].
    + assert (Hname : filename_of r = filename_of reply).
      { unfold staged_path in Hp. now apply append_inj_l in Hp. }
      rewrite (move_files_unique _ _ _ _ _ Hm reply r Hreply Hr Hsig Hname)
        in Hbody.
      change (files w3) with (files w1) in Hf. congruence.
    + now destruct (Hnone reply Hreply).
Qed.

(** C8: take a run of [ReplyFinished] that reaches the install loop (every
    reply finished without error, the files staged, the key loaded, every
    signature verified) and in which the loop returns early because a move
    fails. Then the replies split at the reply whose move failed: the
    artifacts before it have been moved and are in the destination when the
    slot returns, for the files are left as the last move that went well
    left them; nothing behind it is moved; and the slot returns at once with
    one report, the warning that the file could not be written, and no
    success. *)
Theorem move_failure_keeps_earlier_moves (sender : Reply) (w : World)
    (key : PublicKey) (staged : string * list string) :
  error sender = None ->
  forallb isFinished (replies_ w) = true ->
  flow_of (stage env w) = Next staged ->
  public_key env = Some key ->
  let w1 := world_of (stage env w) in
  flow_of (verify_signatures env key (snd staged) w1) = Next tt ->
  let w3 := set_dirs ({[path_ w]} ∪ dirs w1) w1 in
  flow_of (move_files env (temp_dir env) (replies_ w) w3) = Returned ->
  let res := ReplyFinished env sender w in
  exists before reply after,
    replies_ w = before ++ reply :: after
    /\ is_signature reply = false
    /\ flow_of (move_files env (temp_dir env) before w3) = Next tt
    /\ movable env (world_of (move_files env (temp_dir env) before w3))
         (staged_path (temp_dir env) reply) (dest_path_of w reply) = false
    /\ flow_of res = Returned
    /\ List.filter is_report (events_of res)
       = [EvWarning ("Writing file failed: " +:+ dest_path_of w reply)]
    /\ List.filter is_rename (events_of res)
       = map (move_event (temp_dir env) w) (artifacts before)
    /\ ~ In EvFinished (events_of res)
    /\ files (world_of res)
       = files (world_of (move_files env (temp_dir env) before w3))
    /\ (forall r, In r before -> is_signature r = false ->
          is_Some (files (world_of res) !! dest_path_of w r)).
Proof.
  intros Herr Hall Hstaged Hkey w1 Hverified w3 Hfailed res. subst res w3 w1.
  rewrite ReplyFinished_barrier by assumption.
  pose proof (stage_run w) as Hrun. cbv zeta in Hrun.
  destruct (stage env w) as [[r1 w1] evs1] eqn:Hstage.
  cbn [flow_of world_of events_of fst snd] in *. subst r1.
  destruct Hrun as (_ & _ & Hpath & Htemp & _ & Hreplies & _ & Hq).
  pose proof (verify_signatures_run key (snd staged) w1) as Hver.
  cbv zeta in Hver.
  destruct (verify_signatures env key (snd staged) w1) as [[r2 w2] evs2] eqn:Hv.
  cbn [flow_of world_of events_of fst snd] in *. subst r2.
  destruct Hver as (_ & _ & Ht2 & Hn2 & -> & _ & Hr2).
  rewrite (finish_install_verified w w1 staged key evs1 evs2) by assumption.
  cbv zeta. rewrite Htemp, Hreplies, Hpath.
  set (w3 := set_dirs (made_dirs env (path_ w) ∪ dirs w1) w1) in *.
  assert (Hsame : forall l,
    move_files env (temp_dir env) l (set_dirs ({[path_ w]} ∪ dirs w1) w1)
    = (flow_of (move_files env (temp_dir env) l w3),
       set_dirs ({[path_ w]} ∪ dirs w1)
         (world_of (move_files env (temp_dir env) l w3)),
       events_of (move_files env (temp_dir env) l w3))).
  { intros l. unfold w3. now rewrite !move_files_set_dirs. }
  rewrite Hsame in Hfailed. cbn [flow_of fst] in Hfailed.
  assert (Hdest : forall r, dest_path_of w3 r = dest_path_of w r).
  { intros r. now apply dest_path_of_path. }
  assert (Hev : forall l, map (move_event (temp_dir env) w3) l
                          = map (move_event (temp_dir env) w) l).
  { intros l. apply map_ext. intros r. unfold move_event. now rewrite Hdest. }
  pose proof (move_files_run (temp_dir env) (replies_ w) w3) as Hmove.
  cbv zeta in Hmove. rewrite Hfailed in Hmove.
  destruct Hmove as (_ & _ & before & reply & after & w_mid
                     & Hsplit & Hsig & Hbefore & Hmov & Hres).
  rewrite Hdest in Hmov, Hres. rewrite Hev in Hbefore, Hres.
  exists before, reply, after. rewrite Hsame, Hres, Hbefore.
  cbn [flow_of world_of events_of fst snd].
  change (movable env (set_dirs ({[path_ w]} ∪ dirs w1) w_mid))
    with (movable env w_mid).
  destruct (moves_are_renames (temp_dir env) w (artifacts before))
    as (Hmv1 & Hmv2 & Hmv3).
  destruct (quiet_filters _ Hq) as (Hq1 & _ & _ & Hq4).
  repeat split; try assumption.
  - rewrite !List.filter_app. cbn [List.filter is_report].
    rewrite !List.filter_app. cbn [List.filter is_report].
    now rewrite Hq1, Hr2, Hmv2.
  - rewrite !List.filter_app. cbn [List.filter is_rename].
    rewrite !List.filter_app. cbn [List.filter is_rename].
    rewrite (quiet_no_rename _ Hq), (untouched_no_rename _ Ht2), Hmv1.
    now rewrite app_nil_r.
  - intros Hin.
    apply in_app_or in Hin as [Hin|Hin]; [contradiction |].
    apply in_app_or in Hin as [Hin|[Hin|Hin]];
      [contradiction | discriminate |].
    apply in_app_or in Hin as [Hin|[Hin|[]]]; [contradiction | discriminate].
  - intros r Hr Hrsig. cbn [stopped set_deleted set_replies files].
    rewrite <- Hdest. now apply (move_files_installs _ _ _ _ _ Hbefore).
Qed.

(** *** Returns that skip the clean-up or the report *)

(** Unless it reports success, a run of [ReplyFinished] that has made the
    temporary directory leaves it behind. *)
Lemma temporary_directory_left_on_failure (sender : Reply) (w : World) :
  error sender = None ->
  forallb isFinished (replies_ w) = true ->
  ~ In EvFinished (events_of (ReplyFinished env sender w)) ->
  temp_dir env ∈ dirs (world_of (ReplyFinished env sender w)).
Proof.
  intros Herr Hall. rewrite ReplyFinished_barrier by assumption.
  pose proof (stage_run w) as Hrun. cbv zeta in Hrun.
  destruct (stage env w) as [[[staged|] w1] evs1] eqn:Hstage;
    cbn [flow_of world_of events_of fst snd] in Hrun;
    destruct Hrun as (_ & Hdirs1 & _ & Hflow);
    assert (Htemp : temp_dir env ∈ dirs w1)
      by (rewrite Hdirs1; apply elem_of_union_l; now apply elem_of_singleton).
  2:{ unfold finish_install. rewrite (bind_Returned _ _ _ _ _ Hstage).
      intros _. exact Htemp. }
  destruct (public_key env) as [key|] eqn:Hkey.
  2:{ unfold finish_install. rewrite (bind_Next _ _ _ _ _ _ Hstage).
      rewrite (bind_Returned _ _ _ _ _ (load_key_none w1 Hkey)).
      intros _. exact Htemp. }
  pose proof (verify_signatures_run key (snd staged) w1) as Hver.
  cbv zeta in Hver.
  destruct (verify_signatures env key (snd staged) w1) as [[r2 w2] evs2] eqn:Hv.
  cbn [flow_of world_of events_of fst snd] in Hver.
  destruct Hver as (_ & Hdirs2 & _ & _ & Hflow2).
  destruct r2 as [[]|].
  2:{ unfold finish_install. rewrite (bind_Next _ _ _ _ _ _ Hstage).
      rewrite (bind_Next _ _ _ _ _ _ (load_key_some key w1 Hkey)).
      rewrite (bind_Returned _ _ _ _ _ Hv).
      intros _. cbn [world_of fst snd]. now rewrite Hdirs2. }
  destruct Hflow2 as (-> & _ & _).
  rewrite (finish_install_verified w w1 staged key evs1 evs2) by assumption.
  cbv zeta.
  pose proof (move_files_run (fst staged) (replies_ w1)
                (set_dirs (made_dirs env (path_ w1) ∪ dirs w1) w1)) as Hmove.
  cbv zeta in Hmove.
  destruct (move_files env (fst staged) (replies_ w1) _) as [[r4 w4] evs4].
  cbn [flow_of world_of events_of fst snd] in *.
  destruct Hmove as (_ & Hdirs4 & _).
  destruct r4 as [[]|]; cbn [world_of events_of fst snd].
  - intros Hnot. exfalso. apply Hnot.
    apply in_or_app. right. apply in_or_app. right. right.
    apply in_or_app. right. right. now left.
  - intros _. rewrite Hdirs4. cbn [dirs set_dirs].
    now apply elem_of_union_r.
Qed.

Lemma verify_signatures_unreadable (key : PublicKey) (before : list string)
    (s : string) (after : list string) (w : World) :
  Forall (fun s => verifies env key w s = Some true) before ->
  verifies env key w s = None ->
  verify_signatures env key (before ++ s :: after) w
  = (Returned, w,
     map (fun s => EvVerify (QString.remove s kSignatureSuffix) s true) before).
Proof.
  intros Hbefore Hs. induction Hbefore as [|s0 before Hs0 _ IH].
  - cbn [app map]. rewrite verify_signatures_cons. cbv zeta. now rewrite Hs.
  - cbn [app map]. rewrite verify_signatures_cons. cbv zeta.
    now rewrite Hs0, IH.
Qed.

(** When the verification comes to a signature or an artifact that cannot
    be opened for reading, [ReplyFinished] returns there and then: nothing
    is reported and [deleteLater] is not called. *)
Lemma unreadable_file_returns_silently (sender : Reply) (w : World)
    (key : PublicKey) (staged : string * list string)
    (before : list string) (s : string) (after : list string) :
  error sender = None ->
  forallb isFinished (replies_ w) = true ->
  flow_of (stage env w) = Next staged ->
  public_key env = Some key ->
  snd staged = before ++ s :: after ->
  Forall (fun s => verifies env key (world_of (stage env w)) s = Some true) before ->
  verifies env key (world_of (stage env w)) s = None ->
  flow_of (ReplyFinished env sender w) = Returned
  /\ world_of (ReplyFinished env sender w) = world_of (stage env w)
  /\ List.filter is_report (events_of (ReplyFinished env sender w)) = []
  /\ deleted (world_of (ReplyFinished env sender w)) = deleted w.
Proof.
  intros Herr Hall Hstaged Hkey Hsplit Hbefore Hs.
  rewrite ReplyFinished_barrier by assumption.
  pose proof (stage_run w) as Hrun. cbv zeta in Hrun.
  destruct (stage env w) as [[r1 w1] evs1] eqn:Hstage.
  cbn [flow_of world_of events_of fst snd] in *. subst r1.
  destruct Hrun as (_ & _ & _ & _ & _ & _ & Hdeleted & Hq).
  unfold finish_install.
  rewrite (bind_Next _ _ _ _ _ _ Hstage).
  rewrite (bind_Next _ _ _ _ _ _ (load_key_some key w1 Hkey)).
  rewrite Hsplit.
  rewrite (bind_Returned _ _ _ _ _
             (verify_signatures_unreadable key before s after w1 Hbefore Hs)).
  cbn [flow_of world_of events_of fst snd app].
  repeat split; [| exact Hdeleted].
  rewrite List.filter_app. destruct (quiet_filters _ Hq) as (-> & _).
  clear. induction before as [|s0 before IH]; [reflexivity | exact IH].
Qed.

(** *** At most one report *)

(** A run of [ReplyFinished] reports nothing, or reports once and then
    schedules the downloader for deletion. *)
Lemma ReplyFinished_reports_once (sender : Reply) (w : World) :
  List.filter is_report (events_of (ReplyFinished env sender w)) = []
  \/ (deleted (world_of (ReplyFinished env sender w)) = true
      /\ exists e,
           List.filter is_report (events_of (ReplyFinished env sender w)) = [e]).
Proof.
  destruct (error sender) as [message|] eqn:Herr.
  { rewrite (ReplyFinished_error _ message) by exact Herr.
    right. split; [reflexivity | now exists (EvWarning message)]. }
  destruct (forallb isFinished (replies_ w)) eqn:Hall.
  2:{ rewrite ReplyFinished_waiting by assumption. now left. }
  rewrite ReplyFinished_barrier by assumption.
  pose proof (stage_run w) as Hrun. cbv zeta in Hrun.
  destruct (stage env w) as [[[staged|] w1] evs1] eqn:Hstage;
    cbn [flow_of world_of events_of fst snd] in Hrun;
    destruct Hrun as (_ & _ & _ & Hflow).
  2:{ unfold finish_install. rewrite (bind_Returned _ _ _ _ _ Hstage).
      destruct Hflow as (evs0 & message & -> & Hq & Hd).
      cbn [world_of events_of fst snd].
      right. split; [exact Hd |]. exists (EvWarning message).
      rewrite filter_quiet_warning; [reflexivity | now apply quiet_filters]. }
  destruct Hflow as (_ & _ & _ & _ & Hq).
  destruct (quiet_filters _ Hq) as (Hq1 & _).
  destruct (public_key env) as [key|] eqn:Hkey.
  2:{ unfold finish_install. rewrite (bind_Next _ _ _ _ _ _ Hstage).
      rewrite (bind_Returned _ _ _ _ _ (load_key_none w1 Hkey)).
      right. split; [reflexivity |]. eexists.
      cbn [events_of snd]. now rewrite filter_quiet_warning. }
  pose proof (verify_signatures_run key (snd staged) w1) as Hver.
  cbv zeta in Hver.
  destruct (verify_signatures env key (snd staged) w1) as [[r2 w2] evs2] eqn:Hv.
  cbn [flow_of world_of events_of fst snd] in Hver.
  destruct Hver as (_ & _ & _ & _ & Hflow).
  destruct r2 as [[]|].
  2:{ unfold finish_install. rewrite (bind_Next _ _ _ _ _ _ Hstage).
      rewrite (bind_Next _ _ _ _ _ _ (load_key_some key w1 Hkey)).
      rewrite (bind_Returned _ _ _ _ _ Hv).
      cbn [flow_of world_of events_of fst snd app].
      rewrite List.filter_app, Hq1.
      destruct Hflow as (before & s & after & _ & _ & Hs).
      destruct (verifies env key w1 s) as [[|]|]; [destruct Hs | |].
      - destruct Hs as (-> & ->). right. split; [reflexivity | eauto].
      - destruct Hs as (_ & ->). now left. }
  destruct Hflow as (-> & _ & Hr2).
  rewrite (finish_install_verified w w1 staged key evs1 evs2) by assumption.
  cbv zeta.
  pose proof (move_files_run (fst staged) (replies_ w1)
                (set_dirs (made_dirs env (path_ w1) ∪ dirs w1) w1)) as Hmove.
  cbv zeta in Hmove.
  destruct (move_files env (fst staged) (replies_ w1) _) as [[r4 w4] evs4].
  cbn [flow_of world_of events_of fst snd] in *.
  destruct Hmove as (_ & _ & Hflow).
  right. destruct r4 as [[]|]; cbn [world_of events_of fst snd].
  - destruct Hflow as (-> & _ & _). split; [reflexivity |].
    exists EvFinished.
    rewrite !List.filter_app. cbn [List.filter is_report].
    rewrite !List.filter_app. cbn [List.filter is_report].
    rewrite Hq1, Hr2.
    now destruct (moves_are_renames (fst staged) (set_dirs (made_dirs env (path_ w1) ∪ dirs w1) w1)
                    (artifacts (replies_ w1))) as (_ & -> & _).
  - destruct Hflow as (before & r & after & w_mid & _ & _ & _ & _ & [= -> ->]).
    split; [reflexivity |]. eexists.
    rewrite !List.filter_app. cbn [List.filter is_report].
    rewrite !List.filter_app. cbn [List.filter is_report].
    rewrite Hq1, Hr2.
    now destruct (moves_are_renames (fst staged) (set_dirs (made_dirs env (path_ w1) ∪ dirs w1) w1)
                    (artifacts before)) as (_ & -> & _).
Qed.

(** Over a whole attempt at most one report is made, and once it is made
    the downloader is scheduled for deletion. *)
Lemma reachable_reports_once (w : World) (t : list Event) :
  reachable env w t ->
  List.filter is_report t = []
  \/ (deleted w = true /\ exists e, List.filter is_report t = [e]).
Proof.
  induction 1 as [w0 Hlive | w t s w' evs Hreach IH Hstep].
  - now left.
  - pose proof (deliver_live _ _ _ _ Hstep) as Hlive.
    destruct IH as [Hnone | [Hd _]]; [|congruence].
    rewrite List.filter_app, Hnone. cbn [app].
    unfold deliver, serve in Hstep. rewrite Hlive in Hstep.
    destruct s as [i outcome payload | i received header |].
    + destruct (replies_ w !! i) as [r0|]; [|discriminate].
      destruct (isFinished r0 || negb (connected r0)); [discriminate |].
      injection Hstep as <- <-. apply ReplyFinished_reports_once.
    + destruct (replies_ w !! i) as [r0|]; [|discriminate].
      destruct (isFinished r0 || negb (connected r0)); [discriminate |].
      destruct (ReplyProgress _) as [res|] eqn:Hprog; [| discriminate].
      apply ReplyProgress_run in Hprog as (maximum & value & ->).
      injection Hstep as <- <-. now left.
    + injection Hstep as <- <-. now left.
Qed.

(** ** Further properties of the slots *)

(** X1: the file name [ReplyFinished] reads off a path is the part behind
    its last slash. It never holds a slash, so a staged file lies in the
    temporary directory itself; and it is the name written behind the
    directory when that name is free of slashes, so a path put together as
    directory, slash, name gives the name back. *)
Theorem file_name_round_trip (dir name : string) (reply : Reply) :
  QString.contains (filename_of reply) "/" = false
  /\ QString.section_last (staged_path dir reply) "/" = filename_of reply
  /\ (QString.contains name "/" = false ->
      QString.section_last ((dir +:+ "/") +:+ name) "/" = name)
  /\ (QString.contains name "/" = false ->
      url_path (url reply) = (dir +:+ "/") +:+ name ->
      filename_of reply = name
      /\ staged_path (temp_dir env) reply = (temp_dir env +:+ "/") +:+ name).
Proof.
  assert (Hback : forall d n, QString.contains n "/" = false ->
            QString.section_last ((d +:+ "/") +:+ n) "/" = n).
  { intros d n Hn. unfold QString.section_last.
    rewrite append_assoc. change ("/" +:+ n) with (String "/" n).
    rewrite last_field_after_sep. now rewrite last_field_plain. }
  split; [apply filename_of_no_slash |].
  split; [apply Hback, filename_of_no_slash |].
  split; [apply Hback |].
  intros Hname Hpath.
  assert (Hfile : filename_of reply = name).
  { unfold filename_of. rewrite Hpath. now apply Hback. }
  split; [exact Hfile |]. unfold staged_path. now rewrite Hfile.
Qed.

Lemma is_signature_staged (temp_directory : string) (reply : Reply) :
  QString.endsWith (staged_path temp_directory reply) kSignatureSuffix
  = is_signature reply.
Proof. apply endsWith_path. reflexivity. Qed.

Lemma staged_signatures (temp_directory : string) (replies : list Reply) :
  List.filter (fun path => QString.endsWith path kSignatureSuffix)
    (map (staged_path temp_directory) replies)
  = map (staged_path temp_directory) (List.filter is_signature replies).
Proof.
  induction replies as [|reply rest IH]; [reflexivity |].
  cbn [map List.filter]. rewrite is_signature_staged, IH.
  now destruct (is_signature reply).
Qed.

(** X2: the two tests for the signature suffix agree. The save loop tests
    the staged path and the move loop tests the file name; the paths the
    staging hands to the verification are exactly the staged paths of the
    replies that the move loop skips, in the order of the replies, so that
    every reply is either checked as a signature or installed, and none is
    both. *)
Theorem signatures_are_the_files_not_installed (w : World)
    (staged : string * list string) :
  flow_of (stage env w) = Next staged ->
  snd staged
  = map (staged_path (temp_dir env)) (List.filter is_signature (replies_ w))
  /\ (forall reply, In reply (replies_ w) ->
        (In (staged_path (temp_dir env) reply) (snd staged)
         <-> ~ In reply (artifacts (replies_ w))))
  /\ length (snd staged) + length (artifacts (replies_ w))
     = length (replies_ w).
Proof.
  intros Hstaged.
  pose proof (stage_run w) as Hrun. cbv zeta in Hrun.
  rewrite Hstaged in Hrun. destruct Hrun as (_ & _ & _ & _ & Hsigs & _).
  rewrite Hsigs, staged_signatures.
  split; [reflexivity |]. split.
  - intros reply Hin. unfold artifacts. rewrite List.filter_In, in_map_iff.
    split.
    + intros (r & Hpath & Hr) [_ Hart].
      apply List.filter_In in Hr as [_ Hr].
      unfold staged_path in Hpath. apply append_inj_l in Hpath.
      unfold is_signature in *. rewrite <- Hpath, Hr in Hart. discriminate.
    + intros Hnot. exists reply. split; [reflexivity |].
      apply List.filter_In. split; [exact Hin |].
      destruct (is_signature reply); [reflexivity |].
      destruct Hnot. now split.
  - rewrite length_map. unfold artifacts. clear Hsigs.
    induction (replies_ w) as [|reply rest IH]; [reflexivity |].
    cbn [List.filter]. destruct (is_signature reply); cbn [negb length]; lia.
Qed.

(** *** The ways through [ReplyFinished] *)

(** Every run of [ReplyFinished] takes one of seven ways: the sender
    carries an error; a reply is still in flight; a file cannot be opened
    for writing; the key does not load; the verification returns; a move
    fails; or everything goes well. *)
Lemma ReplyFinished_cases (sender : Reply) (w : World) :
  (exists message,
     error sender = Some message
     /\ ReplyFinished env sender w = (Returned, stopped w, [EvWarning message]))
  \/ (error sender = None
      /\ forallb isFinished (replies_ w) = false
      /\ ReplyFinished env sender w = (Returned, w, []))
  \/ (error sender = None
      /\ forallb isFinished (replies_ w) = true
      /\ ((exists w1 evs1,
             stage env w = (Returned, w1, evs1)
             /\ ReplyFinished env sender w = (Returned, w1, evs1))
          \/ exists staged w1 evs1,
               stage env w = (Next staged, w1, evs1)
               /\ ((public_key env = None
                    /\ ReplyFinished env sender w
                       = (Returned, stopped w1,
                          evs1 ++ [EvWarning "Failed to load Spotify public key"]))
                   \/ exists key,
                        public_key env = Some key
                        /\ ((exists w2 evs2,
                               verify_signatures env key (snd staged) w1
                               = (Returned, w2, evs2)
                               /\ ReplyFinished env sender w
                                  = (Returned, w2, evs1 ++ evs2))
                            \/ exists evs2 r4 w4 evs4,
                                 verify_signatures env key (snd staged) w1
                                 = (Next tt, w1, evs2)
                                 /\ move_files env (fst staged) (replies_ w1)
                                      (set_dirs (made_dirs env (path_ w1) ∪ dirs w1) w1)
                                    = (r4, w4, evs4)
                                 /\ ReplyFinished env sender w
                                    = match r4 with
                                      | Next _ =>
                                          (Next tt,
                                           set_deleted (removed (fst staged) w4),
                                           evs1 ++ evs2 ++ EvMkpath (path_ w1) :: evs4
                                           ++ [EvRemoveRecursive (fst staged);
                                               EvFinished])
                                      | Returned =>
                                          (Returned, w4,
                                           evs1 ++ evs2 ++ EvMkpath (path_ w1) :: evs4)
                                      end)))).
Proof.
  destruct (error sender) as [message|] eqn:Herr.
  { left. exists message. split; [reflexivity |]. now apply ReplyFinished_error. }
  right. destruct (forallb isFinished (replies_ w)) eqn:Hall.
  2:{ left. repeat split. now apply ReplyFinished_waiting. }
  right. split; [reflexivity | split; [reflexivity |]].
  rewrite ReplyFinished_barrier by assumption.
  destruct (stage env w) as [[[staged|] w1] evs1] eqn:Hstage.
  2:{ left. exists w1, evs1. split; [reflexivity |].
      unfold finish_install. now rewrite (bind_Returned _ _ _ _ _ Hstage). }
  right. exists staged, w1, evs1. split; [reflexivity |].
  destruct (public_key env) as [key|] eqn:Hkey.
  2:{ left. split; [reflexivity |]. unfold finish_install.
      rewrite (bind_Next _ _ _ _ _ _ Hstage).
      now rewrite (bind_Returned _ _ _ _ _ (load_key_none w1 Hkey)). }
  right. exists key. split; [reflexivity |].
  pose proof (verify_signatures_run key (snd staged) w1) as Hver.
  cbv zeta in Hver.
  destruct (verify_signatures env key (snd staged) w1) as [[r2 w2] evs2] eqn:Hv.
  cbn [flow_of world_of events_of fst snd] in Hver.
  destruct Hver as (_ & _ & _ & _ & Hflow).
  destruct r2 as [[]|].
  2:{ left. exists w2, evs2. split; [reflexivity |]. unfold finish_install.
      rewrite (bind_Next _ _ _ _ _ _ Hstage).
      rewrite (bind_Next _ _ _ _ _ _ (load_key_some key w1 Hkey)).
      now rewrite (bind_Returned _ _ _ _ _ Hv). }
  destruct Hflow as (-> & _ & _).
  right.
  destruct (move_files env (fst staged) (replies_ w1)
              (set_dirs (made_dirs env (path_ w1) ∪ dirs w1) w1)) as [[r4 w4] evs4] eqn:Hm.
  exists evs2, r4, w4, evs4. split; [reflexivity | split; [reflexivity |]].
  rewrite (finish_install_verified w w1 staged key evs1 evs2) by assumption.
  cbv zeta. rewrite Hm. reflexivity.
Qed.

Lemma stage_no_checks (w : World) :
  List.filter is_verify (events_of (stage env w)) = []
  /\ List.filter touches_destination (events_of (stage env w)) = [].
Proof.
  pose proof (stage_run w) as Hrun. cbv zeta in Hrun.
  destruct Hrun as (_ & _ & _ & Hflow).
  destruct (flow_of (stage env w)) as [staged|].
  - destruct Hflow as (_ & _ & _ & _ & Hq).
    now destruct (quiet_filters _ Hq) as (_ & ? & ? & _).
  - destruct Hflow as (evs & message & -> & Hq & _).
    destruct (quiet_filters _ Hq) as (_ & ? & ? & _).
    now rewrite !filter_quiet_warning.
Qed.

Lemma move_files_no_checks (temp_directory : string) (replies : list Reply)
    (w : World) :
  List.filter is_verify (events_of (move_files env temp_directory replies w)) = [].
Proof.
  assert (Hmoves : forall l,
    List.filter is_verify (map (move_event temp_directory w) l) = []).
  { induction l as [|r l IH]; [reflexivity | exact IH]. }
  pose proof (move_files_run temp_directory replies w) as Hrun.
  cbv zeta in Hrun. destruct Hrun as (_ & _ & Hflow).
  destruct (flow_of (move_files env temp_directory replies w)) as [[]|].
  - destruct Hflow as (-> & _). apply Hmoves.
  - destruct Hflow as (before & r & after & w_mid & _ & _ & _ & _ & ->).
    cbn [events_of snd]. rewrite List.filter_app, Hmoves. reflexivity.
Qed.

(** Every check the loop makes is the check of one of its signatures
    against the path that [remove] derives from it. *)
Lemma verify_signatures_checks (key : PublicKey) (signatures : list string)
    (w : World) (f s : string) (ok : bool) :
  In (EvVerify f s ok) (events_of (verify_signatures env key signatures w)) ->
  In s signatures
  /\ f = QString.remove s kSignatureSuffix
  /\ verifies env key w s = Some ok.
Proof.
  induction signatures as [|s0 rest IH]; [intros [] |].
  rewrite verify_signatures_cons. cbv zeta.
  destruct (verifies env key w s0) as [[|]|] eqn:Hs0; cbn [events_of snd].
  - intros [[= <- <- <-] | Hin].
    + split; [now left | split; [reflexivity | exact Hs0]].
    + destruct (IH Hin) as (? & ? & ?). split; [now right | now split].
  - intros [[= <- <- <-] | [Hc | []]]; [| discriminate].
    split; [now left | split; [reflexivity | exact Hs0]].
  - intros [].
Qed.

Lemma verify_signatures_passed (key : PublicKey) (signatures : list string)
    (w : World) :
  flow_of (verify_signatures env key signatures w) = Next tt ->
  events_of (verify_signatures env key signatures w)
  = map (fun s => EvVerify (QString.remove s kSignatureSuffix) s true) signatures.
Proof.
  induction signatures as [|s0 rest IH]; [reflexivity |].
  rewrite verify_signatures_cons. cbv zeta.
  destruct (verifies env key w s0) as [[|]|]; cbn [flow_of events_of fst snd];
    try discriminate.
  intros Hrest. cbn [map]. now rewrite IH.
Qed.

Lemma verify_signatures_invalid (key : PublicKey) (before : list string)
    (s : string) (after : list string) (w : World) :
  Forall (fun s => verifies env key w s = Some true) before ->
  verifies env key w s = Some false ->
  verify_signatures env key (before ++ s :: after) w
  = (Returned, stopped w,
     map (fun s => EvVerify (QString.remove s kSignatureSuffix) s true) before
     ++ [EvVerify (QString.remove s kSignatureSuffix) s false;
         EvWarning ("Invalid signature: " +:+ QString.remove s kSignatureSuffix)]).
Proof.
  intros Hbefore Hs. induction Hbefore as [|s0 before Hs0 _ IH].
  - cbn [app map]. rewrite verify_signatures_cons. cbv zeta. now rewrite Hs.
  - cbn [app map]. rewrite verify_signatures_cons. cbv zeta.
    now rewrite Hs0, IH.
Qed.

(** Every check is that of a staged signature against the path [remove]
    derives from it. *)
Lemma ReplyFinished_checks (sender : Reply) (w : World)
    (f s : string) (ok : bool) :
  In (EvVerify f s ok) (events_of (ReplyFinished env sender w)) ->
  exists reply key,
    In reply (replies_ w)
    /\ is_signature reply = true
    /\ s = staged_path (temp_dir env) reply
    /\ f = QString.remove s kSignatureSuffix
    /\ public_key env = Some key
    /\ verifies env key (world_of (stage env w)) s = Some ok.
Proof.
  intros Hin.
  assert (Hfilter : In (EvVerify f s ok)
            (List.filter is_verify (events_of (ReplyFinished env sender w)))).
  { apply List.filter_In. now split. }
  clear Hin.
  pose proof (stage_no_checks w) as [Hstage_checks _].
  pose proof (stage_run w) as Hrun. cbv zeta in Hrun.
  destruct (ReplyFinished_cases sender w)
    as [(message & _ & Hres)
       | [(_ & _ & Hres)
         | (_ & _ & [(w1 & evs1 & Hstage & Hres)
                    | (staged & w1 & evs1 & Hstage
                       & [(_ & Hres)
                         | (key & Hkey
                            & [(w2 & evs2 & Hv & Hres)
                              | (evs2 & r4 & w4 & evs4 & Hv & Hm & Hres)])])])]];
    rewrite Hres in Hfilter; cbn [events_of snd List.filter is_verify] in Hfilter;
    try contradiction;
    rewrite Hstage in Hstage_checks, Hrun;
    cbn [flow_of world_of events_of fst snd] in Hstage_checks, Hrun.
  - now rewrite Hstage_checks in Hfilter.
  - now rewrite List.filter_app, Hstage_checks in Hfilter.
  - rewrite List.filter_app, Hstage_checks in Hfilter. cbn [app] in Hfilter.
    apply List.filter_In in Hfilter as [Hin _].
    change evs2 with (events_of (Returned : Flow unit, w2, evs2)) in Hin.
    rewrite <- Hv in Hin.
    destruct (verify_signatures_checks _ _ _ _ _ _ Hin) as (Hs & Hf & Hok).
    destruct Hrun as (_ & _ & _ & _ & Hsigs & _).
    rewrite Hsigs, staged_signatures in Hs.
    apply in_map_iff in Hs as (reply & <- & Hreply).
    apply List.filter_In in Hreply as [Hreply Hsig].
    exists reply, key. now rewrite Hstage.
  - assert (Hchecks : In (EvVerify f s ok) evs2).
    { destruct r4 as [[]|]; cbn [events_of snd] in Hfilter;
        rewrite !List.filter_app in Hfilter;
        rewrite Hstage_checks in Hfilter; cbn [app List.filter is_verify] in Hfilter;
        apply in_app_or in Hfilter as [Hin | Hin];
        try (now apply List.filter_In in Hin);
        exfalso;
        pose proof (move_files_no_checks (fst staged) (replies_ w1)
                      (set_dirs (made_dirs env (path_ w1) ∪ dirs w1) w1)) as Hnone;
        rewrite Hm in Hnone; cbn [events_of snd] in Hnone.
      - rewrite List.filter_app, Hnone in Hin. destruct Hin.
      - rewrite Hnone in Hin. destruct Hin. }
    change evs2 with (events_of (Next tt, w1, evs2)) in Hchecks.
    rewrite <- Hv in Hchecks.
    destruct (verify_signatures_checks _ _ _ _ _ _ Hchecks) as (Hs & Hf & Hok).
    destruct Hrun as (_ & _ & _ & _ & Hsigs & _).
    rewrite Hsigs, staged_signatures in Hs.
    apply in_map_iff in Hs as (reply & <- & Hreply).
    apply List.filter_In in Hreply as [Hreply Hsig].
    exists reply, key. now rewrite Hstage.
Qed.

(** X3: whatever the run, every signature check [ReplyFinished] makes is
    the check of the staged file of a reply whose file name ends in
    [kSignatureSuffix], against the path [remove] derives from it, and its
    outcome is that of [verifyMessage] on the two staged files. A file that
    no such signature names is never checked. *)
Theorem checks_come_from_signature_files (sender : Reply) (w : World)
    (f s : string) (ok : bool) :
  In (EvVerify f s ok) (events_of (ReplyFinished env sender w)) ->
  exists reply key,
    In reply (replies_ w)
    /\ is_signature reply = true
    /\ s = staged_path (temp_dir env) reply
    /\ f = QString.remove s kSignatureSuffix
    /\ public_key env = Some key
    /\ verifies env key (world_of (stage env w)) s = Some ok.
Proof. exact (ReplyFinished_checks sender w f s ok). Qed.

(** X4: the verification stops at the first signature that does not
    verify. In a run that reaches the verification, with the signatures
    before [s] verifying and [s] not, the checks made are those of the
    signatures before [s], each passed, and the failed check of [s]; no
    later signature is checked, and the one report names the artifact of
    [s]. *)
Theorem verification_stops_at_first_failure (sender : Reply) (w : World)
    (key : PublicKey) (staged : string * list string)
    (before : list string) (s : string) (after : list string) :
  error sender = None ->
  forallb isFinished (replies_ w) = true ->
  flow_of (stage env w) = Next staged ->
  public_key env = Some key ->
  snd staged = before ++ s :: after ->
  Forall (fun s => verifies env key (world_of (stage env w)) s = Some true) before ->
  verifies env key (world_of (stage env w)) s = Some false ->
  List.filter is_verify (events_of (ReplyFinished env sender w))
  = map (fun s => EvVerify (QString.remove s kSignatureSuffix) s true) before
    ++ [EvVerify (QString.remove s kSignatureSuffix) s false]
  /\ List.filter is_report (events_of (ReplyFinished env sender w))
     = [EvWarning ("Invalid signature: " +:+ QString.remove s kSignatureSuffix)]
  /\ world_of (ReplyFinished env sender w) = stopped (world_of (stage env w)).
Proof.
  intros Herr Hall Hstaged Hkey Hsplit Hbefore Hs.
  rewrite ReplyFinished_barrier by assumption.
  pose proof (stage_no_checks w) as [Hchecks _].
  pose proof (stage_run w) as Hrun. cbv zeta in Hrun.
  destruct (stage env w) as [[r1 w1] evs1] eqn:Hstage.
  cbn [flow_of world_of events_of fst snd] in *. subst r1.
  destruct Hrun as (_ & _ & _ & _ & _ & _ & _ & Hq).
  destruct (quiet_filters _ Hq) as (Hreports & _).
  unfold finish_install.
  rewrite (bind_Next _ _ _ _ _ _ Hstage).
  rewrite (bind_Next _ _ _ _ _ _ (load_key_some key w1 Hkey)).
  rewrite Hsplit.
  rewrite (bind_Returned _ _ _ _ _
             (verify_signatures_invalid key before s after w1 Hbefore Hs)).
  cbn [flow_of world_of events_of fst snd app].
  rewrite !List.filter_app, Hchecks, Hreports. cbn [app List.filter is_verify is_report].
  repeat split.
  - f_equal. clear. induction before as [|s0 before IH]; [reflexivity |].
    cbn [map List.filter is_verify]. now rewrite IH.
  - clear. induction before as [|s0 before IH]; [reflexivity | exact IH].
Qed.

(** X5: [ReplyFinished] acts on the destination directory only once the
    whole batch is verified: if it calls [mkpath] or moves a file, then the
    sender and all replies finished without error, every file was staged,
    the key was loaded and every staged signature verified; and the first
    thing it does to the destination is [mkpath(path_)]. *)
Theorem destination_touched_only_after_verification (sender : Reply)
    (w : World) :
  List.filter touches_destination (events_of (ReplyFinished env sender w)) <> [] ->
  exists key staged rest,
    error sender = None
    /\ forallb isFinished (replies_ w) = true
    /\ flow_of (stage env w) = Next staged
    /\ public_key env = Some key
    /\ Forall (fun s => verifies env key (world_of (stage env w)) s = Some true)
         (snd staged)
    /\ List.filter touches_destination (events_of (ReplyFinished env sender w))
       = EvMkpath (path_ w) :: rest.
Proof.
  intros Htouched.
  pose proof (stage_no_checks w) as [_ Hstage_quiet].
  pose proof (stage_run w) as Hrun. cbv zeta in Hrun.
  destruct (ReplyFinished_cases sender w)
    as [(message & _ & Hres)
       | [(_ & _ & Hres)
         | (Herr & Hall & [(w1 & evs1 & Hstage & Hres)
                    | (staged & w1 & evs1 & Hstage
                       & [(_ & Hres)
                         | (key & Hkey
                            & [(w2 & evs2 & Hv & Hres)
                              | (evs2 & r4 & w4 & evs4 & Hv & Hm & Hres)])])])]];
    rewrite Hres in Htouched |- *;
    cbn [events_of snd List.filter touches_destination] in Htouched |- *;
    try (now destruct Htouched);
    rewrite Hstage in Hstage_quiet, Hrun;
    cbn [flow_of world_of events_of fst snd] in Hstage_quiet, Hrun.
  - now destruct Htouched.
  - rewrite List.filter_app, Hstage_quiet in Htouched. now destruct Htouched.
  - pose proof (verify_signatures_run key (snd staged) w1) as Hver.
    cbv zeta in Hver. rewrite Hv in Hver.
    destruct Hver as (_ & _ & Hquiet & _).
    cbn [events_of snd] in Hquiet.
    rewrite List.filter_app, Hstage_quiet, Hquiet in Htouched.
    now destruct Htouched.
  - pose proof (verify_signatures_run key (snd staged) w1) as Hver.
    cbv zeta in Hver. rewrite Hv in Hver.
    cbn [flow_of world_of events_of fst snd] in Hver.
    destruct Hver as (_ & _ & Hquiet & _ & _ & Hverified & _).
    destruct Hrun as (_ & _ & Hpath & _).
    exists key, staged.
    destruct r4 as [[]|]; eexists; rewrite Hstage;
      cbn [flow_of world_of events_of fst snd];
      (repeat split; try assumption);
      rewrite !List.filter_app, Hstage_quiet, Hquiet, Hpath;
      cbn [app List.filter touches_destination]; reflexivity.
Qed.

Lemma removed_below (dir p : string) (w : World) :
  below dir p = true -> files (removed dir w) !! p = None.
Proof.
  intros Hp. cbn. apply map_lookup_filter_None_2. right.
  intros f _ Hbad. cbn [fst] in Hbad. congruence.
Qed.

(** On its way through, the first loop saves one file a reply. *)
Lemma save_files_saved (temp_directory : string) (replies : list Reply) :
  forall (signatures signatures' : list string) (w w1 : World) (evs : list Event),
    save_files env temp_directory replies signatures w
    = (Next signatures', w1, evs) ->
    evs = map (fun reply => EvSave (staged_path temp_directory reply)) replies.
Proof.
  induction replies as [|reply rest IH]; intros signatures signatures' w w1 evs Hrun.
  - now injection Hrun as _ _ <-.
  - destruct (can_write env (staged_path temp_directory reply)) eqn:Hw.
    2:{ cbn [save_files] in Hrun. fold (staged_path temp_directory reply) in Hrun.
        now rewrite Hw in Hrun. }
    revert Hrun. rewrite save_files_cons by exact Hw. cbv zeta.
    destruct (save_files env temp_directory rest _ _) as [[r2 w2] evs2] eqn:Hrest.
    cbn [flow_of world_of events_of fst snd]. intros Hrun.
    injection Hrun as -> _ <-. cbn [map]. f_equal.
    exact (IH _ _ _ _ _ Hrest).
Qed.

(** The events of a run that reports success. *)
Lemma ReplyFinished_success_trace (sender : Reply) (w : World) :
  In EvFinished (events_of (ReplyFinished env sender w)) ->
  events_of (ReplyFinished env sender w)
  = EvMakeTempDir (temp_dir env)
    :: (map (fun reply => EvSave (staged_path (temp_dir env) reply)) (replies_ w)
        ++ map (fun s => EvVerify (QString.remove s kSignatureSuffix) s true)
             (map (staged_path (temp_dir env))
                (List.filter is_signature (replies_ w)))
        ++ EvMkpath (path_ w)
           :: (map (move_event (temp_dir env) w) (artifacts (replies_ w))
               ++ [EvRemoveRecursive (temp_dir env); EvFinished])).
Proof.
  intros Hin.
  destruct (ReplyFinished_success _ _ Hin)
    as (staged & w1 & evs1 & key & evs2 & w4 & evs4
        & Herr & Hall & Hstage & Hkey & Hv & Hm & Hres).
  pose proof (stage_run w) as Hrun. cbv zeta in Hrun.
  pose proof (stage_unfold w) as Hunfold. cbv zeta in Hunfold.
  destruct (stage_saved _ _ _ _ Hstage) as (evs & Hsave).
  rewrite Hstage in Hrun. rewrite Hstage, Hsave in Hunfold.
  cbn [flow_of world_of events_of fst snd] in Hrun, Hunfold.
  injection Hunfold as _ Hevs1.
  apply save_files_saved in Hsave.
  destruct Hrun as (_ & Hdirs1 & Hpath & Htemp & Hsigs & Hreplies & _).
  pose proof (move_files_run (fst staged) (replies_ w1)
                (set_dirs (made_dirs env (path_ w1) ∪ dirs w1) w1)) as Hmove.
  cbv zeta in Hmove. rewrite Hm in Hmove.
  cbn [flow_of world_of events_of fst snd set_dirs dirs replies_] in Hmove.
  destruct Hmove as (_ & Hdirs4 & Hevs4 & Hreplies4 & _).
  pose proof (verify_signatures_passed key (snd staged) w1) as Hpassed.
  rewrite Hv in Hpassed. cbn [flow_of events_of fst snd] in Hpassed.
  specialize (Hpassed eq_refl).
  rewrite Hres. cbn [world_of events_of fst snd].
  rewrite Hevs1, Hsave, Hpassed, Hevs4, Hsigs, staged_signatures, Htemp,
    Hreplies.
  rewrite (List.map_ext
             (move_event (temp_dir env) (set_dirs (made_dirs env (path_ w1) ∪ dirs w1) w1))
             (move_event (temp_dir env) w))
    by (intros r; unfold move_event, dest_path_of; cbn [set_dirs path_];
        now rewrite Hpath).
  now rewrite Hpath.
Qed.

(** X6: a run of [ReplyFinished] that reports success does, in this order
    and nothing else: make the temporary directory, save one file a reply
    in the order of the replies, check each staged signature, which passes,
    make the destination directory, move the files that are no signatures,
    remove the temporary directory and emit [Finished]. When it returns the
    temporary directory is gone with every directory and every file below
    it, the staged signatures included; the destination directory exists
    if [mkpath] made it and it is neither the temporary directory nor
    below it; the replies are as they were, none aborted; and the
    downloader is scheduled for deletion. *)
Theorem success_removes_temporary_directory (sender : Reply) (w : World) :
  let res := ReplyFinished env sender w in
  In EvFinished (events_of res) ->
  events_of res
  = EvMakeTempDir (temp_dir env)
    :: (map (fun reply => EvSave (staged_path (temp_dir env) reply)) (replies_ w)
        ++ map (fun s => EvVerify (QString.remove s kSignatureSuffix) s true)
             (map (staged_path (temp_dir env))
                (List.filter is_signature (replies_ w)))
        ++ EvMkpath (path_ w)
           :: (map (move_event (temp_dir env) w) (artifacts (replies_ w))
               ++ [EvRemoveRecursive (temp_dir env); EvFinished]))
  /\ (forall d, d = temp_dir env \/ below (temp_dir env) d = true ->
        d ∉ dirs (world_of res))
  /\ (forall p, below (temp_dir env) p = true -> files (world_of res) !! p = None)
  /\ (forall reply, files (world_of res) !! staged_path (temp_dir env) reply = None)
  /\ (forall parents,
        mkpath env (path_ w) = Some parents ->
        temp_dir env <> path_ w ->
        below (temp_dir env) (path_ w) = false ->
        path_ w ∈ dirs (world_of res))
  /\ replies_ (world_of res) = replies_ w
  /\ deleted (world_of res) = true.
Proof.
  intros res Hin. subst res.
  split; [exact (ReplyFinished_success_trace sender w Hin) |].
  destruct (ReplyFinished_success _ _ Hin)
    as (staged & w1 & evs1 & key & evs2 & w4 & evs4
        & Herr & Hall & Hstage & Hkey & Hv & Hm & Hres).
  pose proof (stage_run w) as Hrun. cbv zeta in Hrun.
  rewrite Hstage in Hrun. cbn [flow_of world_of events_of fst snd] in Hrun.
  destruct Hrun as (_ & Hdirs1 & Hpath & Htemp & _ & Hreplies & _).
  pose proof (move_files_run (fst staged) (replies_ w1)
                (set_dirs (made_dirs env (path_ w1) ∪ dirs w1) w1)) as Hmove.
  cbv zeta in Hmove. rewrite Hm in Hmove.
  cbn [flow_of world_of events_of fst snd set_dirs dirs replies_] in Hmove.
  destruct Hmove as (_ & Hdirs4 & _ & Hreplies4 & _).
  rewrite Hres, Htemp. cbn [world_of events_of fst snd].
  split; [| split; [| split; [| split; [| split]]]].
  - intros d Hd Hbad. cbn in Hbad.
    apply elem_of_filter in Hbad as [[Hne Hout] _].
    destruct Hd as [Hd | Hd]; congruence.
  - intros p Hp. cbn [set_deleted files].
    change (files (removed (temp_dir env) w4) !! p = None).
    now apply removed_below.
  - intros reply.
    change (files (removed (temp_dir env) w4)
              !! staged_path (temp_dir env) reply = None).
    apply removed_below, staged_path_below.
  - intros parents Hmade Hne Hout. cbn. rewrite Hdirs4, Hpath.
    apply elem_of_filter. split; [split; [congruence | exact Hout] |].
    apply elem_of_union_l. unfold made_dirs. rewrite Hmade.
    apply elem_of_union_l. now apply elem_of_singleton.
  - cbn. now rewrite Hreplies4.
  - reflexivity.
Qed.

(** The first loop stops at the first file it cannot open for writing,
    the files before it saved. *)
Lemma save_files_fails (temp_directory : string) (before : list Reply)
    (r : Reply) (after : list Reply) :
  forall (signatures : list string) (w : World),
    Forall (fun reply => can_write env (staged_path temp_directory reply) = true)
      before ->
    can_write env (staged_path temp_directory r) = false ->
    exists signatures' w_mid,
      save_files env temp_directory before signatures w
      = (Next signatures', w_mid,
         map (fun reply => EvSave (staged_path temp_directory reply)) before)
      /\ save_files env temp_directory (before ++ r :: after) signatures w
         = (Returned, stopped w_mid,
            map (fun reply => EvSave (staged_path temp_directory reply)) before
            ++ [EvWarning ("Failed to open file for writing: "
                           +:+ staged_path temp_directory r)]).
Proof.
  induction before as [|reply before IH]; intros signatures w Hbefore Hr.
  - exists signatures, w. split; [reflexivity |].
    cbn [app map save_files]. fold (staged_path temp_directory r).
    now rewrite Hr.
  - apply List.Forall_cons_iff in Hbefore as [Hreply Hbefore].
    cbn [app map]. rewrite !save_files_cons by exact Hreply. cbv zeta.
    match goal with
    | |- context [save_files env temp_directory before ?sigs ?w0] =>
        destruct (IH sigs w0 Hbefore Hr) as (signatures' & w_mid & Hsaved & Hfails)
    end.
    exists signatures', w_mid. now rewrite Hsaved, Hfails.
Qed.

(** X7: the first loop of [ReplyFinished] stops at the first reply whose
    file cannot be opened for writing. With every reply finished without
    error, the replies before [r] writable and [r] not, the slot makes the
    temporary directory, saves the files of the replies before [r], warns
    that the file of [r] could not be opened, and returns: nothing is saved
    for [r] or a later reply, no signature is checked, the destination is
    not touched, and the temporary directory stays. *)
Theorem write_failure_stops_the_install (sender : Reply) (w : World)
    (before : list Reply) (r : Reply) (after : list Reply) :
  error sender = None ->
  forallb isFinished (replies_ w) = true ->
  replies_ w = before ++ r :: after ->
  Forall (fun reply => can_write env (staged_path (temp_dir env) reply) = true)
    before ->
  can_write env (staged_path (temp_dir env) r) = false ->
  let res := ReplyFinished env sender w in
  events_of res
  = EvMakeTempDir (temp_dir env)
    :: (map (fun reply => EvSave (staged_path (temp_dir env) reply)) before
        ++ [EvWarning ("Failed to open file for writing: "
                       +:+ staged_path (temp_dir env) r)])
  /\ flow_of res = Returned
  /\ deleted (world_of res) = true
  /\ replies_ (world_of res)
     = map (fun reply => abort (disconnect reply)) (replies_ w)
  /\ temp_dir env ∈ dirs (world_of res)
  /\ (forall p, below (temp_dir env) p = false ->
        files (world_of res) !! p = files w !! p).
Proof.
  intros Herr Hall Hsplit Hbefore Hr res. subst res.
  rewrite ReplyFinished_barrier by assumption.
  pose proof (stage_unfold w) as Hunfold. cbv zeta in Hunfold.
  destruct (save_files_fails (temp_dir env) before r after []
              (set_dirs ({[temp_dir env]} ∪ dirs w) w) Hbefore Hr)
    as (signatures' & w_mid & Hsaved & Hfails).
  pose proof (save_files_run (temp_dir env) before []
                (set_dirs ({[temp_dir env]} ∪ dirs w) w)) as Hrun.
  cbv zeta in Hrun. rewrite Hsaved in Hrun.
  cbn [flow_of world_of events_of fst snd set_dirs files dirs path_ replies_ deleted]
    in Hrun.
  destruct Hrun as (Hfiles & Hdirs & _ & Hreplies & _).
  rewrite Hsplit, Hfails in Hunfold.
  cbn [flow_of world_of events_of fst snd] in Hunfold.
  unfold finish_install. rewrite (bind_Returned _ _ _ _ _ Hunfold).
  cbn [flow_of world_of events_of fst snd].
  repeat split.
  - cbn. now rewrite Hreplies, Hsplit.
  - cbn. rewrite Hdirs. apply elem_of_union_l. now apply elem_of_singleton.
  - intros p Hp. cbn. now apply Hfiles.
Qed.

(** *** When an install succeeds *)

Lemma artifacts_cons (reply : Reply) (rest : list Reply) :
  artifacts (reply :: rest)
  = if is_signature reply then artifacts rest else reply :: artifacts rest.
Proof. unfold artifacts. cbn [List.filter]. now destruct (is_signature reply). Qed.

Lemma In_artifacts (r : Reply) (replies : list Reply) :
  In r (artifacts replies) <-> In r replies /\ is_signature r = false.
Proof.
  unfold artifacts. rewrite List.filter_In.
  now destruct (is_signature r).
Qed.

Lemma staged_path_inj (temp_directory : string) (r r' : Reply) :
  staged_path temp_directory r = staged_path temp_directory r' ->
  filename_of r = filename_of r'.
Proof. unfold staged_path. apply append_inj_l. Qed.

Lemma dest_path_of_inj (w : World) (r r' : Reply) :
  dest_path_of w r = dest_path_of w r' -> filename_of r = filename_of r'.
Proof. unfold dest_path_of. apply append_inj_l. Qed.

(** The install loop runs through only on files of distinct names: a second
    file of a name finds its source moved away. *)
Lemma move_files_distinct (temp_directory : string) (replies : list Reply) :
  forall (w w' : World) (evs : list Event),
    move_files env temp_directory replies w = (Next tt, w', evs) ->
    NoDup (map filename_of (artifacts replies)).
Proof.
  induction replies as [|reply rest IH]; intros w w' evs Hrun;
    [apply NoDup_nil_2 |].
  rewrite move_files_cons in Hrun. cbv zeta in Hrun.
  rewrite artifacts_cons.
  destruct (is_signature reply) eqn:Hs; [now apply (IH w w' evs) |].
  destruct (movable env w _ _) eqn:Hm; [|discriminate].
  destruct (move_files env temp_directory rest _) as [[r1 w1] evs1] eqn:Hnext.
  cbn [flow_of world_of events_of fst snd] in Hrun.
  injection Hrun as -> -> _.
  cbn [map]. apply NoDup_cons_2; [| now apply (IH _ _ _ Hnext)].
  intros Hdup. apply list_elem_of_In, in_map_iff in Hdup as (x & Hname & Hx).
  apply In_artifacts in Hx as [Hx Hxsig].
  destruct (move_files_content _ _ _ _ _ Hnext x Hx Hxsig) as (f & Hf & _).
  assert (Hsame : staged_path temp_directory x = staged_path temp_directory reply).
  { unfold staged_path. now rewrite Hname. }
  rewrite Hsame, moved_files_lookup in Hf by exact Hm.
  rewrite decide_False in Hf
    by (intros Heq; symmetry in Heq; revert Heq;
        apply staged_ne_dest; now apply movable_distinct with reply).
  now rewrite decide_True in Hf.
Qed.

(** The install loop runs through only onto names that are free, and only
    when every move is allowed. *)
Lemma move_files_fresh (temp_directory : string) (replies : list Reply) :
  forall (w w' : World) (evs : list Event),
    move_files env temp_directory replies w = (Next tt, w', evs) ->
    forall r, In r replies -> is_signature r = false ->
      files w !! dest_path_of w r = None
      /\ can_rename env (staged_path temp_directory r) (dest_path_of w r) = true
      /\ temp_directory <> path_ w.
Proof.
  induction replies as [|reply rest IH]; intros w w' evs Hrun r Hr Hsig;
    [destruct Hr |].
  rewrite move_files_cons in Hrun. cbv zeta in Hrun.
  destruct (is_signature reply) eqn:Hs.
  { destruct Hr as [-> | Hr]; [congruence |]. now apply (IH w w' evs). }
  destruct (movable env w _ _) eqn:Hm; [|discriminate].
  destruct (move_files env temp_directory rest _) as [[r1 w1] evs1] eqn:Hnext.
  cbn [flow_of world_of events_of fst snd] in Hrun.
  injection Hrun as -> -> _.
  pose proof (movable_distinct _ _ _ Hm) as Hne.
  destruct Hr as [-> | Hr].
  - split; [| split; [| exact Hne]].
    + now apply movable_source in Hm as [_ Hm].
    + unfold movable in Hm.
      destruct (files w !! staged_path temp_directory r); [|discriminate].
      now destruct (files w !! dest_path_of w r).
  - destruct (IH _ _ _ Hnext r Hr Hsig) as (Hfree & Hallowed & _).
    rewrite (dest_path_of_path w) in Hfree, Hallowed by apply moved_path.
    split; [| split; [exact Hallowed | exact Hne]].
    rewrite moved_files_lookup in Hfree by exact Hm.
    destruct (decide (dest_path_of w r = dest_path_of w reply)) as [Heq|_].
    { apply movable_source in Hm as [[f Hf] _]. congruence. }
    destruct (decide (dest_path_of w r = staged_path temp_directory reply))
      as [Heq|_]; [| exact Hfree].
    now apply staged_ne_dest in Heq.
Qed.

(** The first loop runs through only when every file can be opened. *)
Lemma save_files_writable (temp_directory : string) (replies : list Reply) :
  forall (signatures signatures' : list string) (w w1 : World) (evs : list Event),
    save_files env temp_directory replies signatures w
    = (Next signatures', w1, evs) ->
    Forall (fun reply => can_write env (staged_path temp_directory reply) = true)
      replies.
Proof.
  induction replies as [|reply rest IH]; intros signatures signatures' w w1 evs Hrun;
    [apply List.Forall_nil |].
  destruct (can_write env (staged_path temp_directory reply)) eqn:Hw.
  2:{ cbn [save_files] in Hrun. fold (staged_path temp_directory reply) in Hrun.
      now rewrite Hw in Hrun. }
  revert Hrun. rewrite save_files_cons by exact Hw. cbv zeta.
  destruct (save_files env temp_directory rest _ _) as [[r2 w2] evs2] eqn:Hrest.
  cbn [flow_of world_of events_of fst snd]. intros Hrun.
  injection Hrun as -> _ _.
  apply List.Forall_cons; [exact Hw | exact (IH _ _ _ _ _ Hrest)].
Qed.

(** X8: an install that reports success has found every staged file
    writable, the file names of the replies to install pairwise distinct,
    every destination name free before it ran, and every move allowed; and
    if it installed anything, the temporary directory is not the
    destination directory. In particular [ReplyFinished] never reports
    success over a file that was already in the destination: it does not
    overwrite. *)
Theorem success_needs_free_distinct_names (sender : Reply) (w : World) :
  In EvFinished (events_of (ReplyFinished env sender w)) ->
  Forall (fun reply => can_write env (staged_path (temp_dir env) reply) = true)
    (replies_ w)
  /\ NoDup (map filename_of (artifacts (replies_ w)))
  /\ forall reply,
       In reply (replies_ w) ->
       QString.endsWith (filename_of reply) kSignatureSuffix = false ->
       files w !! ((path_ w +:+ "/") +:+ filename_of reply) = None
       /\ can_rename env ((temp_dir env +:+ "/") +:+ filename_of reply)
            ((path_ w +:+ "/") +:+ filename_of reply) = true
       /\ temp_dir env <> path_ w.
Proof.
  intros Hin.
  destruct (ReplyFinished_success _ _ Hin)
    as (staged & w1 & evs1 & key & evs2 & w4 & evs4
        & Herr & Hall & Hstage & Hkey & Hv & Hm & Hres).
  pose proof (stage_run w) as Hrun. cbv zeta in Hrun.
  destruct (stage_saved _ _ _ _ Hstage) as (evs & Hsave).
  rewrite Hstage in Hrun. cbn [flow_of world_of events_of fst snd] in Hrun.
  destruct Hrun as (_ & _ & Hpath & Htemp & _ & Hreplies & _).
  rewrite Htemp, Hreplies, Hpath in Hm.
  split; [exact (save_files_writable _ _ _ _ _ _ _ Hsave) |].
  split; [exact (move_files_distinct _ _ _ _ _ Hm) |].
  intros reply Hreply Hsig.
  destruct (move_files_fresh _ _ _ _ _ Hm reply Hreply Hsig)
    as (Hfree & Hallowed & Hne).
  cbn [set_dirs path_] in Hne. rewrite Hpath in Hne.
  rewrite (dest_path_of_path w) in Hfree, Hallowed by exact Hpath.
  cbn [set_dirs files] in Hfree.
  split; [| split; [exact Hallowed | exact Hne]].
  destruct (save_files_content _ _ _ _ _ _ _ (dest_path_of w reply) Hsave)
    as [(r' & _ & Hsame & _) | (_ & Hkept)].
  - symmetry in Hsame. now apply staged_ne_dest in Hsame.
  - rewrite Hkept in Hfree. exact Hfree.
Qed.

Lemma save_files_succeeds (temp_directory : string) (replies : list Reply) :
  forall (signatures : list string) (w : World),
    Forall (fun reply => can_write env (staged_path temp_directory reply) = true)
      replies ->
    flow_of (save_files env temp_directory replies signatures w) <> Returned.
Proof.
  induction replies as [|reply rest IH]; intros signatures w Hall;
    [discriminate |].
  apply List.Forall_cons_iff in Hall as [Hw Hall].
  rewrite save_files_cons by exact Hw. cbv zeta.
  cbn [flow_of fst]. now apply IH.
Qed.

Lemma verify_signatures_succeeds (key : PublicKey) (signatures : list string)
    (w : World) :
  Forall (fun s => verifies env key w s = Some true) signatures ->
  verify_signatures env key signatures w
  = (Next tt, w,
     map (fun s => EvVerify (QString.remove s kSignatureSuffix) s true) signatures).
Proof.
  induction 1 as [|s rest Hs _ IH]; [reflexivity |].
  rewrite verify_signatures_cons. cbv zeta. now rewrite Hs, IH.
Qed.

(** The install loop runs through on staged files of distinct names whose
    destinations are free and whose moves are allowed. *)
Lemma move_files_succeeds (temp_directory : string) (replies : list Reply) :
  forall w : World,
    temp_directory <> path_ w ->
    NoDup (map filename_of (artifacts replies)) ->
    (forall r, In r replies -> is_signature r = false ->
       is_Some (files w !! staged_path temp_directory r)
       /\ files w !! dest_path_of w r = None
       /\ can_rename env (staged_path temp_directory r) (dest_path_of w r) = true) ->
    flow_of (move_files env temp_directory replies w) = Next tt.
Proof.
  induction replies as [|reply rest IH]; intros w Hne Hnames Hready;
    [reflexivity |].
  rewrite move_files_cons. cbv zeta.
  rewrite artifacts_cons in Hnames.
  destruct (is_signature reply) eqn:Hs.
  { apply IH; [exact Hne | exact Hnames |].
    intros r Hr. apply Hready. now right. }
  cbn [map] in Hnames. apply NoDup_cons in Hnames as [Hfirst Hnames].
  destruct (Hready reply (or_introl eq_refl) Hs) as ([f Hf] & Hfree & Hallowed).
  assert (Hm : movable env w (staged_path temp_directory reply)
                 (dest_path_of w reply) = true).
  { unfold movable. now rewrite Hf, Hfree. }
  rewrite Hm. cbn [flow_of fst].
  apply IH; [now rewrite moved_path | exact Hnames |].
  intros r Hr Hsig.
  destruct (Hready r (or_intror Hr) Hsig) as (Hstaged & Hfree' & Hallowed').
  assert (Hother : filename_of r <> filename_of reply).
  { intros Heq. apply Hfirst. rewrite <- Heq.
    apply list_elem_of_In, in_map, In_artifacts. now split. }
  rewrite (dest_path_of_path w
             (moved (staged_path temp_directory reply) (dest_path_of w reply) w))
    by apply moved_path.
  rewrite !moved_files_lookup by exact Hm.
  split; [| split; [| exact Hallowed']].
  - rewrite decide_False
      by (intros Heq; symmetry in Heq; now apply staged_ne_dest in Heq).
    rewrite decide_False
      by (intros Heq; now apply staged_path_inj in Heq).
    exact Hstaged.
  - rewrite decide_False
      by (intros Heq; now apply dest_path_of_inj in Heq).
    now destruct (decide _).
Qed.

(** A batch that passes the checks of the verification loop is installed
    when its files can be written and moved. *)
Lemma checked_batch_is_installed (sender : Reply) (w : World)
    (key : PublicKey) :
  error sender = None ->
  forallb isFinished (replies_ w) = true ->
  Forall (fun reply => can_write env (staged_path (temp_dir env) reply) = true)
    (replies_ w) ->
  public_key env = Some key ->
  Forall (fun s => verifies env key (world_of (stage env w)) s = Some true)
    (map (staged_path (temp_dir env)) (List.filter is_signature (replies_ w))) ->
  NoDup (map filename_of (artifacts (replies_ w))) ->
  (forall reply, In reply (artifacts (replies_ w)) ->
     files w !! dest_path_of w reply = None
     /\ can_rename env (staged_path (temp_dir env) reply) (dest_path_of w reply)
        = true) ->
  temp_dir env <> path_ w ->
  let res := ReplyFinished env sender w in
  flow_of res = Next tt
  /\ In EvFinished (events_of res)
  /\ List.filter is_report (events_of res) = [EvFinished].
Proof.
  intros Herr Hall Hwritable Hkey Hverified Hnames Hfree Hne res. subst res.
  assert (Hgoal : flow_of (ReplyFinished env sender w) = Next tt
                  /\ In EvFinished (events_of (ReplyFinished env sender w))).
  2:{ destruct Hgoal as [Hflow Hin]. split; [exact Hflow | split; [exact Hin |]].
      destruct (ReplyFinished_reports_once sender w) as [Hnone | [_ [e He]]].
      - assert (Hbad : In EvFinished
                         (List.filter is_report
                            (events_of (ReplyFinished env sender w))))
          by (apply List.filter_In; now split).
        rewrite Hnone in Hbad. destruct Hbad.
      - assert (Hhere : In EvFinished
                          (List.filter is_report
                             (events_of (ReplyFinished env sender w))))
          by (apply List.filter_In; now split).
        rewrite He in Hhere |- *. destruct Hhere as [-> | []]. reflexivity. }
  rewrite ReplyFinished_barrier by assumption.
  pose proof (stage_run w) as Hrun. cbv zeta in Hrun.
  pose proof (stage_unfold w) as Hunfold. cbv zeta in Hunfold.
  pose proof (save_files_succeeds (temp_dir env) (replies_ w) []
                (set_dirs ({[temp_dir env]} ∪ dirs w) w) Hwritable) as Hsaved.
  destruct (stage env w) as [[r1 w1] evs1] eqn:Hstage.
  cbn [flow_of world_of events_of fst snd] in Hrun, Hverified.
  injection Hunfold as Hflow _ _.
  destruct r1 as [staged|];
    [| destruct (flow_of (save_files _ _ _ _ _)); [discriminate | congruence]].
  clear Hflow Hsaved.
  destruct (stage_saved _ _ _ _ Hstage) as (evs & Hsave).
  destruct Hrun as (_ & _ & Hpath & Htemp & Hsigs & Hreplies & _).
  rewrite <- staged_signatures, <- Hsigs in Hverified.
  pose proof (verify_signatures_succeeds key (snd staged) w1 Hverified) as Hv.
  pose proof (finish_install_verified w w1 staged key evs1 _ Hstage Hkey Hv)
    as Hfinish.
  cbv zeta in Hfinish. rewrite Hfinish.
  rewrite Htemp, Hreplies.
  rewrite (move_files_succeeds (temp_dir env) (replies_ w)).
  - cbn [flow_of events_of fst snd]. split; [reflexivity |].
    apply in_or_app. right. apply in_or_app. right. right.
    apply in_or_app. right. right. now left.
  - cbn [set_dirs path_]. congruence.
  - exact Hnames.
  - intros r Hr Hsig.
    assert (Hart : In r (artifacts (replies_ w))) by now apply In_artifacts.
    destruct (Hfree r Hart) as [Hdest Hallowed].
    rewrite (dest_path_of_path w) by exact Hpath.
    cbn [set_dirs files].
    split; [| split; [| exact Hallowed]].
    + destruct (save_files_content _ _ _ _ _ _ _
                  (staged_path (temp_dir env) r) Hsave)
        as [(r' & _ & _ & Hfile) | (Hnot & _)].
      * rewrite Hfile. eauto.
      * now destruct (Hnot r Hr).
    + destruct (save_files_content _ _ _ _ _ _ _ (dest_path_of w r) Hsave)
        as [(r' & _ & Hsame & _) | (_ & Hkept)].
      * symmetry in Hsame. now apply staged_ne_dest in Hsame.
      * rewrite Hkept. exact Hdest.
Qed.

Lemma NoDup_map_In {A B} (f : A -> B) (l : list A) (x y : A) :
  NoDup (map f l) -> In x l -> In y l -> f x = f y -> x = y.
Proof.
  induction l as [|z l IH]; intros Hnodup Hx Hy Hf; [destruct Hx |].
  cbn [map] in Hnodup. apply NoDup_cons in Hnodup as [Hz Hnodup].
  destruct Hx as [-> | Hx], Hy as [-> | Hy].
  - reflexivity.
  - destruct Hz. rewrite Hf. now apply list_elem_of_In, in_map.
  - destruct Hz. rewrite <- Hf. now apply list_elem_of_In, in_map.
  - now apply IH.
Qed.

Lemma NoDup_artifacts (replies : list Reply) :
  NoDup (map filename_of replies) ->
  NoDup (map filename_of (artifacts replies)).
Proof.
  induction replies as [|reply rest IH]; intros Hnodup; [exact Hnodup |].
  cbn [map] in Hnodup. apply NoDup_cons in Hnodup as [Hfirst Hnodup].
  rewrite artifacts_cons. destruct (is_signature reply); [now apply IH |].
  cbn [map]. apply NoDup_cons_2; [| now apply IH].
  intros Hin. apply Hfirst.
  apply list_elem_of_In, in_map_iff in Hin as (r & Hname & Hr).
  apply In_artifacts in Hr as [Hr _].
  rewrite <- Hname. now apply list_elem_of_In, in_map.
Qed.

(** With file names that differ, each staged file holds the bytes of its
    own reply. *)
Lemma staged_content (w w1 : World) (staged : string * list string)
    (evs1 : list Event) (reply : Reply) :
  stage env w = (Next staged, w1, evs1) ->
  NoDup (map filename_of (replies_ w)) ->
  In reply (replies_ w) ->
  files w1 !! staged_path (temp_dir env) reply
  = Some (mkFile (body reply) 0x7755).
Proof.
  intros Hstage Hnames Hreply.
  destruct (stage_saved _ _ _ _ Hstage) as (evs & Hsave).
  destruct (save_files_content _ _ _ _ _ _ _
              (staged_path (temp_dir env) reply) Hsave)
    as [(r & Hr & Hsame & Hfile) | (Hnot & _)]; [| now destruct (Hnot reply Hreply)].
  apply staged_path_inj in Hsame.
  rewrite (NoDup_map_In filename_of _ _ _ Hnames Hr Hreply Hsame) in Hfile.
  exact Hfile.
Qed.

(** Where the suffix stands in the staged path of a signature at its end
    only, [remove] gives the staged path of the artifact. *)
Lemma remove_staged_signature (temp_directory : string) (a s : Reply) :
  filename_of s = filename_of a +:+ kSignatureSuffix ->
  (forall i, i < String.length (staged_path temp_directory a) ->
     QString.occurs_at kSignatureSuffix (staged_path temp_directory s) i = false) ->
  QString.remove (staged_path temp_directory s) kSignatureSuffix
  = staged_path temp_directory a.
Proof.
  intros Hname Honly.
  assert (Hpath : staged_path temp_directory s
                  = staged_path temp_directory a +:+ kSignatureSuffix +:+ "").
  { unfold staged_path. now rewrite Hname, append_nil_r, !append_assoc. }
  rewrite Hpath in Honly |- *.
  rewrite remove_first; [apply append_nil_r | discriminate | exact Honly].
Qed.

(** X9: a batch that is complete and sound is installed. When the sender
    and all replies finished without error; every staged file can be
    opened for writing; the key loads; the file names of the replies
    differ pairwise; every signature reply is named after a reply of the
    batch, its name being that reply's name followed by the suffix, with
    the suffix standing in its staged path at the end only, both staged
    files can be opened for reading, and [verifyMessage] accepts the
    bytes of that reply against the bytes of the signature; no file to
    install is in the destination yet and the moves are allowed; and the
    temporary directory is not the destination: then [ReplyFinished] runs
    to its end and reports success, and that is its only report. *)
Theorem sound_batch_is_installed (sender : Reply) (w : World)
    (key : PublicKey) :
  error sender = None ->
  forallb isFinished (replies_ w) = true ->
  Forall (fun reply => can_write env (staged_path (temp_dir env) reply) = true)
    (replies_ w) ->
  public_key env = Some key ->
  NoDup (map filename_of (replies_ w)) ->
  (forall s, In s (replies_ w) ->
     QString.endsWith (filename_of s) kSignatureSuffix = true ->
     exists a,
       In a (replies_ w)
       /\ filename_of s = filename_of a +:+ kSignatureSuffix
       /\ (forall i, i < String.length ((temp_dir env +:+ "/") +:+ filename_of a) ->
             QString.occurs_at kSignatureSuffix
               ((temp_dir env +:+ "/") +:+ filename_of s) i = false)
       /\ can_read env ((temp_dir env +:+ "/") +:+ filename_of a) = true
       /\ can_read env ((temp_dir env +:+ "/") +:+ filename_of s) = true
       /\ verifyMessage key (body a) (body s) = true) ->
  (forall reply, In reply (replies_ w) ->
     QString.endsWith (filename_of reply) kSignatureSuffix = false ->
     files w !! ((path_ w +:+ "/") +:+ filename_of reply) = None
     /\ can_rename env ((temp_dir env +:+ "/") +:+ filename_of reply)
          ((path_ w +:+ "/") +:+ filename_of reply) = true) ->
  temp_dir env <> path_ w ->
  let res := ReplyFinished env sender w in
  flow_of res = Next tt
  /\ In EvFinished (events_of res)
  /\ List.filter is_report (events_of res) = [EvFinished].
Proof.
  intros Herr Hall Hwritable Hkey Hnames Hpairs Hfree Hne.
  apply (checked_batch_is_installed sender w key); try assumption.
  - pose proof (stage_unfold w) as Hunfold. cbv zeta in Hunfold.
    pose proof (save_files_succeeds (temp_dir env) (replies_ w) []
                  (set_dirs ({[temp_dir env]} ∪ dirs w) w) Hwritable) as Hsaved.
    destruct (stage env w) as [[r1 w1] evs1] eqn:Hstage.
    injection Hunfold as Hflow _ _.
    destruct r1 as [staged|];
      [| destruct (flow_of (save_files _ _ _ _ _)); [discriminate | congruence]].
    cbn [world_of fst snd].
    apply List.Forall_forall. intros p Hp.
    apply in_map_iff in Hp as (s & <- & Hs).
    apply List.filter_In in Hs as [Hs Hsig].
    destruct (Hpairs s Hs Hsig) as (a & Ha & Hname & Honly & Hra & Hrs & Hok).
    unfold verifies, read_in.
    rewrite (remove_staged_signature _ a s Hname Honly).
    fold (staged_path (temp_dir env) a) in Hra.
    fold (staged_path (temp_dir env) s) in Hrs.
    rewrite Hra, Hrs.
    rewrite (staged_content _ _ _ _ a Hstage Hnames Ha).
    rewrite (staged_content _ _ _ _ s Hstage Hnames Hs).
    cbn [content]. now rewrite Hok.
  - now apply NoDup_artifacts.
  - intros reply Hreply. apply In_artifacts in Hreply as [Hreply Hsig].
    exact (Hfree reply Hreply Hsig).
Qed.

(** *** Where the report stands in a run *)

Lemma checks_are_no_reports (signatures : list string) :
  List.filter is_report
    (map (fun s => EvVerify (QString.remove s kSignatureSuffix) s true) signatures)
  = [].
Proof. induction signatures as [|s rest IH]; [reflexivity | exact IH]. Qed.

(** A run of [ReplyFinished] that reports does so with its last event. *)
Lemma ReplyFinished_report_last (sender : Reply) (w : World) :
  List.filter is_report (events_of (ReplyFinished env sender w)) = []
  \/ exists evs e,
       events_of (ReplyFinished env sender w) = evs ++ [e]
       /\ List.filter is_report evs = []
       /\ is_report e = true
       /\ deleted (world_of (ReplyFinished env sender w)) = true.
Proof.
  pose proof (stage_run w) as Hrun. cbv zeta in Hrun.
  destruct (ReplyFinished_cases sender w)
    as [(message & _ & Hres)
       | [(_ & _ & Hres)
         | (Herr & Hall & [(w1 & evs1 & Hstage & Hres)
                    | (staged & w1 & evs1 & Hstage
                       & [(_ & Hres)
                         | (key & Hkey
                            & [(w2 & evs2 & Hv & Hres)
                              | (evs2 & r4 & w4 & evs4 & Hv & Hm & Hres)])])])]];
    rewrite Hres; cbn [world_of events_of fst snd];
    try (rewrite Hstage in Hrun; cbn [flow_of world_of events_of fst snd] in Hrun;
         destruct Hrun as (_ & _ & _ & Hflow)).
  - right. now exists [], (EvWarning message).
  - now left.
  - destruct Hflow as (evs0 & message & -> & Hq & Hd).
    right. exists evs0, (EvWarning message).
    split; [reflexivity | split; [now apply quiet_filters | now split]].
  - destruct Hflow as (_ & _ & _ & _ & Hq).
    right. exists evs1, (EvWarning "Failed to load Spotify public key").
    split; [reflexivity | split; [now apply quiet_filters | now split]].
  - destruct Hflow as (_ & _ & _ & _ & Hq).
    destruct (quiet_filters _ Hq) as (Hq1 & _).
    pose proof (verify_signatures_run key (snd staged) w1) as Hver.
    cbv zeta in Hver. rewrite Hv in Hver.
    cbn [flow_of world_of events_of fst snd] in Hver.
    destruct Hver as (_ & _ & _ & _ & before & s & after & Hsplit & Hbefore & Hs).
    rewrite Hsplit in Hv.
    destruct (verifies env key w1 s) as [[|]|] eqn:Hcheck; [destruct Hs | |].
    + rewrite (verify_signatures_invalid key before s after w1 Hbefore Hcheck) in Hv.
      injection Hv as <- <-.
      right.
      exists (evs1
              ++ map (fun s => EvVerify (QString.remove s kSignatureSuffix) s true)
                   before
              ++ [EvVerify (QString.remove s kSignatureSuffix) s false]),
        (EvWarning ("Invalid signature: " +:+ QString.remove s kSignatureSuffix)).
      split; [now rewrite <- !app_assoc |].
      split; [| now split].
      rewrite !List.filter_app, Hq1, checks_are_no_reports. reflexivity.
    + rewrite (verify_signatures_unreadable key before s after w1 Hbefore Hcheck)
        in Hv.
      injection Hv as <- <-. left.
      now rewrite List.filter_app, Hq1, checks_are_no_reports.
  - destruct Hflow as (_ & _ & _ & _ & Hq).
    destruct (quiet_filters _ Hq) as (Hq1 & _).
    pose proof (verify_signatures_run key (snd staged) w1) as Hver.
    cbv zeta in Hver. rewrite Hv in Hver.
    cbn [flow_of world_of events_of fst snd] in Hver.
    destruct Hver as (_ & _ & _ & _ & _ & _ & Hr2).
    pose proof (move_files_run (fst staged) (replies_ w1)
                  (set_dirs (made_dirs env (path_ w1) ∪ dirs w1) w1)) as Hmove.
    cbv zeta in Hmove. rewrite Hm in Hmove.
    cbn [flow_of world_of events_of fst snd] in Hmove.
    destruct Hmove as (_ & _ & Hflow).
    right. destruct r4 as [[]|]; cbn [world_of events_of fst snd].
    + destruct Hflow as (Hevs4 & _ & _).
      exists (evs1 ++ evs2 ++ EvMkpath (path_ w1) :: evs4
              ++ [EvRemoveRecursive (fst staged)]), EvFinished.
      split; [rewrite <- !app_assoc; cbn [app]; now rewrite <- !app_assoc |].
      split; [| now split].
      rewrite !List.filter_app. cbn [List.filter is_report].
      rewrite !List.filter_app. cbn [List.filter is_report].
      rewrite Hq1, Hr2, Hevs4.
      now destruct (moves_are_renames (fst staged)
                      (set_dirs (made_dirs env (path_ w1) ∪ dirs w1) w1)
                      (artifacts (replies_ w1))) as (_ & -> & _).
    + destruct Hflow as (before & r & after & w_mid & _ & _ & _ & _ & Hstop).
      injection Hstop as Hw4 Hevs4.
      exists (evs1 ++ evs2 ++ EvMkpath (path_ w1)
              :: map (move_event (fst staged)
                        (set_dirs (made_dirs env (path_ w1) ∪ dirs w1) w1))
                   (artifacts before)),
        (EvWarning ("Writing file failed: "
                    +:+ dest_path_of (set_dirs (made_dirs env (path_ w1) ∪ dirs w1) w1) r)).
      split; [rewrite Hevs4, <- !app_assoc; cbn [app]; reflexivity |].
      split; [| split; [reflexivity | now rewrite Hw4]].
      rewrite !List.filter_app. cbn [List.filter is_report].
      rewrite Hq1, Hr2.
      now destruct (moves_are_renames (fst staged)
                      (set_dirs (made_dirs env (path_ w1) ∪ dirs w1) w1)
                      (artifacts before)) as (_ & -> & _).
Qed.

Lemma deliver_deleted (s : Signal) (w : World) :
  deleted w = true -> deliver env s w = None.
Proof. unfold deliver, serve. now intros ->. Qed.

(** *** The order in which the replies finish *)

(** What a [finished()] without error comes to: nothing while a reply is
    out, the install once all are in. *)
Lemma deliver_finished_run (i : nat) (payload : QByteArray) (w : World)
    (r : Reply) :
  deleted w = false ->
  replies_ w !! i = Some r ->
  isFinished r = false ->
  connected r = true ->
  let w1 := set_replies (<[i := finish r None payload]> (replies_ w)) w in
  deliver env (finished i None payload) w
  = if forallb isFinished (replies_ w1)
    then Some (world_of (finish_install env w1), events_of (finish_install env w1))
    else Some (w1, []).
Proof.
  intros Hlive Hi Hout Hconn w1. subst w1.
  unfold deliver, serve. rewrite Hlive, Hi, Hout, Hconn. cbn [orb negb].
  destruct (forallb isFinished _) eqn:Hall.
  - now rewrite ReplyFinished_barrier.
  - now rewrite ReplyFinished_waiting.
Qed.

(** X12: the three replies of [Start] may finish in any order. For a
    downloader made by the constructor and started, if the three replies
    finish without error, each once, in any of the six orders, then after
    the three [finished()] signals the world and the events are exactly
    those of one install on the three finished replies, taken in the
    order they were requested, whatever the order was in which they
    finished. *)
Theorem finish_order_does_not_matter (version path : string)
    (fs : gmap string File) (ds : gset string) (p0 p1 p2 : QByteArray)
    (order : list nat) :
  Permutation order [0; 1; 2] ->
  let w0 := world_of (Start (SpotifyBlobDownloader version path fs ds)) in
  let payload i := nth i [p0; p1; p2] "" in
  let all_in :=
    set_replies
      (zip_with (fun r p => finish r None p) (replies_ w0) [p0; p1; p2]) w0 in
  run env (map (fun i => finished i None (payload i)) order) w0
  = Some (world_of (finish_install env all_in),
          events_of (finish_install env all_in)).
Proof.
  intros Horder w0 payload all_in.
  symmetry in Horder. apply permutations_Permutation in Horder.
  assert (Hcases :
    order = [0; 1; 2] \/ order = [1; 0; 2] \/ order = [1; 2; 0]
    \/ order = [0; 2; 1] \/ order = [2; 0; 1] \/ order = [2; 1; 0]).
  { change (permutations [0; 1; 2])
      with [[0; 1; 2]; [1; 0; 2]; [1; 2; 0]; [0; 2; 1]; [2; 0; 1]; [2; 1; 0]]
      in Horder.
    rewrite !elem_of_cons, elem_of_nil in Horder. tauto. }
  subst w0 payload all_in.
  set (u0 := download_url version "blob").
  set (u1 := download_url version ("blob" +:+ kSignatureSuffix)).
  set (u2 := download_url version "libspotify.so.8").
  change (world_of (Start (SpotifyBlobDownloader version path fs ds)))
    with (mkWorld version path [new_reply u0; new_reply u1; new_reply u2]
            false fs ds).
  cbn [replies_ zip_with].
  destruct Hcases as [-> | [-> | [-> | [-> | [-> | ->]]]]];
    cbn [map nth run];
    repeat (erewrite deliver_finished_run;
              [| reflexivity | reflexivity | reflexivity | reflexivity ];
            cbv zeta;
            cbn [replies_ set_replies insert list_insert forallb isFinished finish
                 new_reply andb version_ path_ deleted files dirs
                 url error bytesAvailable content_length body connected aborted];
            cbn [run app]);
    unfold set_replies;
    cbn [replies_ version_ path_ deleted files dirs];
    rewrite ?app_nil_r; reflexivity.
Qed.

(** *** The progress bar *)

Lemma totals_known (replies : list Reply) :
  Forall (fun reply =>
            exists n, content_length reply = Some n
                      /\ (0 <= bytesAvailable reply <= n)%Z) replies ->
  let received := foldr (fun reply acc => bytesAvailable reply + acc)%Z 0%Z replies in
  let announced :=
    foldr (fun reply acc => default 0%Z (content_length reply) + acc)%Z 0%Z replies in
  (0 <= received <= announced)%Z
  /\ ((announced <= INT_MAX)%Z ->
      foldr (fun reply acc => toInt (content_length reply) + acc)%Z 0%Z replies
      = announced)
  /\ (received = announced
      <-> Forall (fun reply => Some (bytesAvailable reply) = content_length reply)
            replies).
Proof.
  induction 1 as [|reply rest (n & Hn & Hb) _ IH]; cbv zeta; cbn [foldr].
  - split; [lia | split; [reflexivity | split; [constructor | reflexivity]]].
  - cbv zeta in IH. destruct IH as (Hsum & Htotal & Hfull).
    rewrite Hn. cbn [from_option id].
    split; [lia | split; [| split]].
    + intros Hmax. rewrite Htotal by lia.
      rewrite toInt_known; [reflexivity |].
      unfold in_int, INT_MIN, INT_MAX in *. lia.
    + intros Heq. apply List.Forall_cons.
      * rewrite Hn. f_equal. lia.
      * apply Hfull. lia.
    + intros Hall. apply List.Forall_cons_iff in Hall as [Hfirst Hall].
      apply Hfull in Hall. rewrite Hn in Hfirst. injection Hfirst as Hfirst. lia.
Qed.

(** Under the same conditions no addition of the loop overflows. *)
Lemma announced_defined (replies : list Reply) :
  Forall (fun reply =>
            exists n, content_length reply = Some n
                      /\ (0 <= bytesAvailable reply <= n)%Z) replies ->
  forall acc : Z,
    (0 <= acc)%Z ->
    (acc + foldr (fun reply acc => default 0%Z (content_length reply) + acc)%Z 0%Z
             replies <= INT_MAX)%Z ->
    Forall (fun reply => addable (bytesAvailable reply)) replies
    /\ Forall in_int
         (running_sums (fun reply => toInt (content_length reply)) replies acc).
Proof.
  induction 1 as [|reply rest (n & Hn & Hb) Hrest IH]; intros acc Hacc Hmax;
    cbn [foldr running_sums] in *.
  - split; apply List.Forall_nil.
  - destruct (totals_known _ Hrest) as (Hsum & _). cbv zeta in Hsum.
    rewrite Hn in *. cbn [from_option id] in Hmax.
    assert (Hfits : in_int n)
      by (unfold in_int, INT_MIN, INT_MAX in *; lia).
    rewrite (toInt_known n Hfits).
    destruct (IH (acc + n)%Z) as [Hbytes Htotals]; [lia | lia |].
    split; apply List.Forall_cons; try assumption.
    + unfold addable, INT64_MIN, INT64_MAX, INT_MIN, INT_MAX in *. lia.
    + unfold in_int, INT_MIN, INT_MAX in *. lia.
Qed.

(** X13: when every reply announces its length, has received no more than
    that, and the announced lengths together fit an [int], the bar
    [ReplyProgress] sets is sound: the slot has a result and changes
    nothing else, the value lies between 0 and the maximum, the maximum is
    the sum of the announced lengths, and the bar is full exactly when
    every reply has received all it announced. *)
Theorem progress_stays_within_maximum (w : World) :
  Forall (fun reply =>
            exists n, content_length reply = Some n
                      /\ (0 <= bytesAvailable reply <= n)%Z) (replies_ w) ->
  in_int (snd (spec_progress (replies_ w))) ->
  exists maximum value,
    ReplyProgress w
    = Some (Next tt, w, [EvSetMaximum maximum; EvSetValue value])
    /\ maximum = snd (spec_progress (replies_ w))
    /\ value = fst (spec_progress (replies_ w))
    /\ (0 <= value <= maximum)%Z
    /\ (value = maximum
        <-> Forall (fun reply => Some (bytesAvailable reply) = content_length reply)
              (replies_ w)).
Proof.
  intros Hknown Hfits.
  destruct (totals_known _ Hknown) as (Hsum & Htotal & Hfull).
  unfold spec_progress in *. cbn [fst snd] in *.
  destruct (announced_defined _ Hknown 0%Z) as [Hbytes Htotals];
    [lia | unfold in_int in Hfits; lia |].
  assert (Hzero : in_int 0) by (unfold in_int, INT_MIN, INT_MAX; lia).
  pose proof (sum_progress_defined (replies_ w) 0 0 Hzero Hbytes Htotals) as Hloop.
  rewrite !Z.add_0_l in Hloop.
  rewrite Htotal in Hloop by (unfold in_int in Hfits; lia).
  rewrite to_int_id in Hloop
    by (unfold in_int, INT_MIN, INT_MAX in *; lia).
  eexists _, _. split; [| split; [reflexivity | split; [reflexivity |]]].
  - unfold ReplyProgress. now rewrite Hloop.
  - split; [exact Hsum | exact Hfull].
Qed.

(** *** What a warning does to the replies *)

(** The first loop returns early only at a file it cannot open. *)
Lemma save_files_returned (temp_directory : string) (replies : list Reply) :
  forall (signatures : list string) (w : World),
    flow_of (save_files env temp_directory replies signatures w) = Returned ->
    exists before r after,
      replies = before ++ r :: after
      /\ Forall (fun reply => can_write env (staged_path temp_directory reply) = true)
           before
      /\ can_write env (staged_path temp_directory r) = false.
Proof.
  induction replies as [|reply rest IH]; intros signatures w Hret;
    [discriminate |].
  destruct (can_write env (staged_path temp_directory reply)) eqn:Hw.
  - rewrite save_files_cons in Hret by exact Hw. cbv zeta in Hret.
    cbn [flow_of fst] in Hret.
    destruct (IH _ _ Hret) as (before & r & after & -> & Hbefore & Hr).
    exists (reply :: before), r, after.
    split; [reflexivity | split; [| exact Hr]].
    now apply List.Forall_cons.
  - exists [], reply, rest.
    split; [reflexivity | split; [apply List.Forall_nil | exact Hw]].
Qed.

Lemma stopped_replies (w : World) :
  Forall (fun reply => isFinished reply = true /\ connected reply = false)
    (replies_ (stopped w)).
Proof.
  cbn. induction (replies_ w) as [|reply rest IH]; [apply List.Forall_nil |].
  cbn [map]. apply List.Forall_cons; [| exact IH].
  unfold abort, disconnect. cbn. now destruct (isFinished reply).
Qed.

(** A run that shows a warning leaves the world [ShowError] leaves, the
    replies until then as they were. *)
Lemma ReplyFinished_warning_stopped (sender : Reply) (w : World)
    (message : string) :
  In (EvWarning message) (events_of (ReplyFinished env sender w)) ->
  exists w', world_of (ReplyFinished env sender w) = stopped w'
             /\ replies_ w' = replies_ w.
Proof.
  intros Hin.
  assert (Hnot : forall evs, List.filter is_report evs = [] ->
                             ~ In (EvWarning message) evs).
  { intros evs Hnone Hbad.
    assert (Hf : In (EvWarning message) (List.filter is_report evs))
      by (apply List.filter_In; now split).
    now rewrite Hnone in Hf. }
  pose proof (stage_run w) as Hrun. cbv zeta in Hrun.
  pose proof (stage_unfold w) as Hunfold. cbv zeta in Hunfold.
  destruct (ReplyFinished_cases sender w)
    as [(message' & _ & Hres)
       | [(_ & _ & Hres)
         | (Herr & Hall & [(w1 & evs1 & Hstage & Hres)
                    | (staged & w1 & evs1 & Hstage
                       & [(_ & Hres)
                         | (key & Hkey
                            & [(w2 & evs2 & Hv & Hres)
                              | (evs2 & r4 & w4 & evs4 & Hv & Hm & Hres)])])])]];
    rewrite Hres in Hin |- *; cbn [world_of events_of fst snd] in Hin |- *;
    try (rewrite Hstage in Hrun, Hunfold;
         cbn [flow_of world_of events_of fst snd] in Hrun;
         destruct Hrun as (_ & _ & _ & Hflow)).
  - now exists w.
  - destruct Hin.
  - injection Hunfold as Hflow1 Hw1 _.
    destruct (flow_of (save_files _ _ _ _ _)) eqn:Hret; [discriminate |].
    destruct (save_files_returned _ _ _ _ Hret)
      as (before & r & after & Hsplit & Hbefore & Hr).
    destruct (save_files_fails (temp_dir env) before r after []
                (set_dirs ({[temp_dir env]} ∪ dirs w) w) Hbefore Hr)
      as (signatures' & w_mid & Hsaved & Hfails).
    pose proof (save_files_run (temp_dir env) before []
                  (set_dirs ({[temp_dir env]} ∪ dirs w) w)) as Hkept.
    cbv zeta in Hkept. rewrite Hsaved in Hkept.
    cbn [flow_of world_of events_of fst snd set_dirs replies_] in Hkept.
    destruct Hkept as (_ & _ & _ & Hreplies & _).
    exists w_mid. split; [| exact Hreplies].
    rewrite Hw1, Hsplit, Hfails. reflexivity.
  - destruct Hflow as (_ & _ & Hreplies & _). now exists w1.
  - destruct Hflow as (_ & _ & Hreplies & _ & Hq).
    destruct (quiet_filters _ Hq) as (Hq1 & _).
    pose proof (verify_signatures_run key (snd staged) w1) as Hver.
    cbv zeta in Hver. rewrite Hv in Hver.
    cbn [flow_of world_of events_of fst snd] in Hver.
    destruct Hver as (_ & _ & _ & _ & before & s & after & Hsplit & Hbefore & Hs).
    destruct (verifies env key w1 s) as [[|]|]; [destruct Hs | |].
    + destruct Hs as (-> & _). now exists w1.
    + destruct Hs as (_ & Hnone). exfalso.
      apply (Hnot (evs1 ++ evs2)); [| exact Hin].
      now rewrite List.filter_app, Hq1, Hnone.
  - destruct Hflow as (_ & _ & Hreplies & _ & Hq).
    destruct (quiet_filters _ Hq) as (Hq1 & _).
    pose proof (verify_signatures_run key (snd staged) w1) as Hver.
    cbv zeta in Hver. rewrite Hv in Hver.
    cbn [flow_of world_of events_of fst snd] in Hver.
    destruct Hver as (_ & _ & _ & _ & _ & _ & Hr2).
    pose proof (move_files_run (fst staged) (replies_ w1)
                  (set_dirs (made_dirs env (path_ w1) ∪ dirs w1) w1)) as Hmove.
    cbv zeta in Hmove. rewrite Hm in Hmove.
    cbn [flow_of world_of events_of fst snd] in Hmove.
    destruct Hmove as (_ & _ & Hflow).
    destruct r4 as [[]|]; cbn [world_of events_of fst snd] in Hin |- *.
    + exfalso. destruct Hflow as (Hevs4 & _ & _).
      apply in_app_or in Hin as [Hin | Hin]; [now apply (Hnot evs1) |].
      apply in_app_or in Hin as [Hin | Hin]; [now apply (Hnot evs2) |].
      destruct Hin as [Hin | Hin]; [discriminate |].
      apply in_app_or in Hin as [Hin | Hin].
      * rewrite Hevs4 in Hin.
        apply in_map_iff in Hin as (r & Hr & _). discriminate.
      * destruct Hin as [Hin | [Hin | []]]; discriminate.
    + destruct Hflow as (before & r & after & w_mid & _ & _ & Hbefore & _ & Hstop).
      injection Hstop as Hw4 _.
      pose proof (move_files_run (fst staged) before
                    (set_dirs (made_dirs env (path_ w1) ∪ dirs w1) w1)) as Hkept.
      cbv zeta in Hkept. rewrite Hbefore in Hkept.
      cbn [flow_of world_of events_of fst snd set_dirs replies_] in Hkept.
      destruct Hkept as (_ & _ & _ & Hmid & _).
      exists w_mid. split; [exact Hw4 | congruence].
Qed.

(** X14: whenever [ReplyFinished] shows a warning, whatever the failure,
    it has first stopped every reply: when the slot returns each reply is
    the reply it was, disconnected from the downloader and aborted, so
    that each is finished and none can run a slot again; and the
    downloader is scheduled for deletion. *)
Theorem warning_stops_every_reply (sender : Reply) (w : World)
    (message : string) :
  let res := ReplyFinished env sender w in
  In (EvWarning message) (events_of res) ->
  replies_ (world_of res)
  = map (fun reply => abort (disconnect reply)) (replies_ w)
  /\ Forall (fun reply => isFinished reply = true /\ connected reply = false)
       (replies_ (world_of res))
  /\ deleted (world_of res) = true
  /\ forall s, deliver env s (world_of res) = None.
Proof.
  intros res Hin. subst res.
  destruct (ReplyFinished_warning_stopped _ _ _ Hin) as (w' & -> & Hreplies).
  split; [cbn; now rewrite Hreplies |].
  split; [apply stopped_replies |].
  split; [reflexivity |]. intros s. now apply deliver_deleted.
Qed.

(** *** The end of an attempt *)

(** A run of [ReplyFinished] that reports does so with its last event, and
    leaves no reply that could still run a slot: after a warning every
    reply is disconnected, after [Finished] every reply has finished. *)
Lemma ReplyFinished_settles (sender : Reply) (w : World) :
  List.filter is_report (events_of (ReplyFinished env sender w)) = []
  \/ exists evs e,
       events_of (ReplyFinished env sender w) = evs ++ [e]
       /\ List.filter is_report evs = []
       /\ is_report e = true
       /\ deleted (world_of (ReplyFinished env sender w)) = true
       /\ Forall (fun reply => isFinished reply = true \/ connected reply = false)
            (replies_ (world_of (ReplyFinished env sender w))).
Proof.
  destruct (ReplyFinished_report_last sender w)
    as [Hnone | (evs & e & Hev & Hq & He & Hd)]; [now left |].
  right. exists evs, e.
  split; [exact Hev | split; [exact Hq | split; [exact He | split; [exact Hd |]]]].
  assert (Hin : In e (events_of (ReplyFinished env sender w))).
  { rewrite Hev. apply in_or_app. right. now left. }
  destruct e; try discriminate He.
  - destruct (ReplyFinished_warning_stopped _ _ _ Hin) as (w' & -> & _).
    eapply List.Forall_impl; [| apply stopped_replies].
    intros reply [_ Hc]. now right.
  - destruct (ReplyFinished_success _ _ Hin)
      as (staged & w1 & evs1 & key & evs2 & w4 & evs4
          & Herr & Hall & Hstage & Hkey & Hv & Hm & Hres).
    pose proof (stage_run w) as Hrun. cbv zeta in Hrun.
    rewrite Hstage in Hrun. cbn [flow_of world_of events_of fst snd] in Hrun.
    destruct Hrun as (_ & _ & _ & _ & _ & Hreplies & _).
    pose proof (move_files_run (fst staged) (replies_ w1)
                  (set_dirs (made_dirs env (path_ w1) ∪ dirs w1) w1)) as Hmove.
    cbv zeta in Hmove. rewrite Hm in Hmove.
    cbn [flow_of world_of events_of fst snd set_dirs replies_] in Hmove.
    destruct Hmove as (_ & _ & _ & Hreplies4 & _).
    rewrite Hres. cbn [world_of fst snd set_deleted removed set_dirs set_files
                       replies_].
    rewrite Hreplies4, Hreplies.
    apply List.Forall_forall. intros reply Hreply. left.
    rewrite forallb_forall in Hall. now apply Hall.
Qed.

(** Where the downloader is scheduled for deletion and no reply can run a
    slot, the one signal still served is the dialog's [canceled()], and it
    changes nothing. *)
Lemma settled_serve (s : Signal) (w w' : World) (evs : list Event) :
  deleted w = true ->
  Forall (fun reply => isFinished reply = true \/ connected reply = false)
    (replies_ w) ->
  serve env s w = Some (w', evs) ->
  s = canceled /\ evs = [] /\ w' = w.
Proof.
  intros Hd Hsettled. unfold serve.
  assert (Hguard : forall i r, replies_ w !! i = Some r ->
                     isFinished r || negb (connected r) = true).
  { intros i r Hi. rewrite List.Forall_forall in Hsettled.
    destruct (Hsettled r) as [-> | ->]; [| reflexivity | apply orb_true_r].
    apply list_elem_of_In. now apply list_elem_of_lookup_2 with i. }
  destruct s as [i outcome payload | i received header |].
  - destruct (replies_ w !! i) as [r|] eqn:Hi; [| discriminate].
    now rewrite (Hguard i r Hi).
  - destruct (replies_ w !! i) as [r|] eqn:Hi; [| discriminate].
    now rewrite (Hguard i r Hi).
  - intros [= <- <-]. split; [reflexivity | split; [reflexivity |]].
    destruct w. cbn in Hd. now subst.
Qed.

(** An attempt that [deliver] lets through is one of those that [serve]
    lets through. *)
Lemma reachable_possible (w : World) (t : list Event) :
  reachable env w t -> possible env w t.
Proof.
  induction 1 as [w0 Hlive | w t s w' evs Hreach IH Hstep].
  - apply poss_Start.
  - apply poss_signal with w s; [exact IH |].
    unfold deliver in Hstep. now destruct (deleted w).
Qed.

(** X10: over a whole attempt, [Start] followed by any signals, those
    served after [deleteLater] included, the report, if there is one, is
    the last event. Everything before it is no report; once it is made the
    downloader is scheduled for deletion and no reply can run a slot
    again, a warning having disconnected every reply and [Finished]
    coming only when every reply has finished; the one signal still served
    is the dialog's [canceled()], which changes nothing. So an attempt
    reports at most once, and after the report nothing more is done. *)
Theorem report_is_the_last_event (w : World) (t : list Event) :
  possible env w t ->
  (List.filter is_report t = []
   \/ exists before e,
        t = before ++ [e]
        /\ List.filter is_report before = []
        /\ is_report e = true
        /\ deleted w = true
        /\ Forall (fun reply => isFinished reply = true \/ connected reply = false)
             (replies_ w))
  /\ (List.filter is_report t <> [] ->
      forall s w' evs,
        serve env s w = Some (w', evs) ->
        s = canceled /\ evs = [] /\ w' = w).
Proof.
  intros Hposs.
  assert (Hlast : List.filter is_report t = []
                  \/ exists before e,
                       t = before ++ [e]
                       /\ List.filter is_report before = []
                       /\ is_report e = true
                       /\ deleted w = true
                       /\ Forall (fun reply => isFinished reply = true
                                               \/ connected reply = false)
                            (replies_ w)).
  { induction Hposs as [w0 | w t s w' evs Hposs IH Hstep].
    - now left.
    - destruct IH as [Hnone | (before & e & Ht & Hbefore & He & Hd & Hsettled)].
      2:{ destruct (settled_serve _ _ _ _ Hd Hsettled Hstep) as (_ & -> & ->).
          right. exists before, e. rewrite app_nil_r. now repeat split. }
      assert (Hslot : List.filter is_report evs = []
                      \/ exists before e,
                           evs = before ++ [e]
                           /\ List.filter is_report before = []
                           /\ is_report e = true
                           /\ deleted w' = true
                           /\ Forall (fun reply => isFinished reply = true
                                                   \/ connected reply = false)
                                (replies_ w')).
      { unfold serve in Hstep.
        destruct s as [i outcome payload | i received header |].
        - destruct (replies_ w !! i) as [r0|]; [|discriminate].
          destruct (isFinished r0 || negb (connected r0)); [discriminate |].
          injection Hstep as <- <-. apply ReplyFinished_settles.
        - destruct (replies_ w !! i) as [r0|]; [|discriminate].
          destruct (isFinished r0 || negb (connected r0)); [discriminate |].
          destruct (ReplyProgress _) as [res|] eqn:Hprog; [| discriminate].
          apply ReplyProgress_run in Hprog as (maximum & value & ->).
          injection Hstep as <- <-. now left.
        - injection Hstep as <- <-. now left. }
      destruct Hslot as [Hquiet | (before & e & -> & Hbefore & He & Hd & Hsettled)].
      + left. now rewrite List.filter_app, Hnone, Hquiet.
      + right. exists (t ++ before), e.
        split; [now rewrite app_assoc |].
        split; [now rewrite List.filter_app, Hnone, Hbefore | now repeat split]. }
  split; [exact Hlast |].
  intros Hreported s w' evs Hstep.
  destruct Hlast as [Hnone | (before & e & _ & _ & _ & Hd & Hsettled)];
    [congruence |].
  exact (settled_serve _ _ _ _ Hd Hsettled Hstep).
Qed.

(** *** The files [Start] asks for *)

Lemma remove_from_length (pattern s : string) :
  forall skip, String.length (QString.remove_from pattern s skip) <= String.length s.
Proof.
  induction s as [|c s IH]; intros skip; cbn [QString.remove_from String.length];
    [lia |].
  destruct skip as [|k].
  - destruct (String.prefix pattern (String c s)).
    + specialize (IH (String.length pattern - 1)). lia.
    + cbn [String.length]. specialize (IH 0). lia.
  - specialize (IH k). lia.
Qed.

Lemma remove_length (s pattern : string) :
  String.length (QString.remove s pattern) <= String.length s.
Proof.
  unfold QString.remove. destruct pattern; [lia | apply remove_from_length].
Qed.

(** X15: of the three files [Start] asks for, only blob is ever checked.
    When the replies carry the file names of [Start], every signature
    check [ReplyFinished] makes is made with the staged blob.sha1, and
    none is a check of the staged libspotify.so.8; yet a run that reports
    success has moved libspotify.so.8 into the destination. The library
    is installed with no signature verified for it. *)
Theorem library_is_installed_unchecked (sender : Reply) (w : World) :
  map filename_of (replies_ w) = filenames ->
  (forall f s ok,
     In (EvVerify f s ok) (events_of (ReplyFinished env sender w)) ->
     s = (temp_dir env +:+ "/") +:+ "blob.sha1"
     /\ f <> (temp_dir env +:+ "/") +:+ "libspotify.so.8")
  /\ (In EvFinished (events_of (ReplyFinished env sender w)) ->
      In (EvRename ((temp_dir env +:+ "/") +:+ "libspotify.so.8")
            ((path_ w +:+ "/") +:+ "libspotify.so.8"))
        (events_of (ReplyFinished env sender w))).
Proof.
  intros Hnames. split.
  - intros f s ok Hin.
    destruct (ReplyFinished_checks _ _ _ _ _ Hin)
      as (reply & key & Hreply & Hsig & Hs & Hf & _).
    assert (Hname : filename_of reply = "blob.sha1").
    { apply (in_map filename_of) in Hreply. rewrite Hnames in Hreply.
      unfold is_signature in Hsig.
      destruct Hreply as [Hn | [Hn | [Hn | []]]]; rewrite <- Hn in Hsig |- *;
        try discriminate Hsig; reflexivity. }
    unfold staged_path in Hs. rewrite Hname in Hs.
    split; [exact Hs |].
    intros Hbad. pose proof (remove_length s kSignatureSuffix) as Hlen.
    rewrite <- Hf, Hbad, Hs, !length_append in Hlen. cbn in Hlen. lia.
  - intros Hin. rewrite (ReplyFinished_success_trace _ _ Hin).
    assert (Hlib : In "libspotify.so.8" (map filename_of (replies_ w))).
    { rewrite Hnames. right. right. now left. }
    apply in_map_iff in Hlib as (reply & Hname & Hreply).
    right. apply in_or_app. right. apply in_or_app. right. right.
    apply in_or_app. left. apply in_map_iff. exists reply. split.
    + unfold move_event, staged_path, dest_path_of. now rewrite Hname.
    + apply In_artifacts. split; [exact Hreply |].
      unfold is_signature. now rewrite Hname.
Qed.

(** *** What the verification vouches for *)

(** X16: what is installed with a signature was verified against it. In a
    run that reports success, take a reply [a] that is installed and a
    signature reply [s] whose staged path, the suffix removed, is the
    staged path of [a]. Then the key was loaded and [verifyMessage]
    accepted the bytes of [a], the very bytes that are installed, against
    the bytes of the reply staged last under the file name of [s]. *)
Theorem installed_artifact_matches_its_signature (sender : Reply) (w : World)
    (a s : Reply) :
  In EvFinished (events_of (ReplyFinished env sender w)) ->
  In a (replies_ w) ->
  In s (replies_ w) ->
  is_signature a = false ->
  is_signature s = true ->
  QString.remove (staged_path (temp_dir env) s) kSignatureSuffix
  = staged_path (temp_dir env) a ->
  exists key s',
    public_key env = Some key
    /\ In s' (replies_ w)
    /\ filename_of s' = filename_of s
    /\ verifyMessage key (body a) (body s') = true.
Proof.
  intros Hin Ha Hs Hartifact Hsignature Hpair.
  destruct (ReplyFinished_success _ _ Hin)
    as (staged & w1 & evs1 & key & evs2 & w4 & evs4
        & Herr & Hall & Hstage & Hkey & Hv & Hm & Hres).
  pose proof (stage_run w) as Hrun. cbv zeta in Hrun.
  destruct (stage_saved _ _ _ _ Hstage) as (evs & Hsave).
  rewrite Hstage in Hrun. cbn [flow_of world_of events_of fst snd] in Hrun.
  destruct Hrun as (_ & _ & _ & Htemp & Hsigs & Hreplies & _).
  rewrite Htemp, Hreplies in Hm.
  pose proof (verify_signatures_run key (snd staged) w1) as Hver.
  cbv zeta in Hver. rewrite Hv in Hver.
  cbn [flow_of world_of events_of fst snd] in Hver.
  destruct Hver as (_ & _ & _ & _ & _ & Hverified & _).
  rewrite Hsigs, staged_signatures in Hverified.
  rewrite List.Forall_forall in Hverified.
  assert (Hchecked : verifies env key w1 (staged_path (temp_dir env) s) = Some true).
  { apply Hverified, in_map, List.filter_In. now split. }
  unfold verifies, read_in in Hchecked. rewrite Hpair in Hchecked.
  destruct (can_read env (staged_path (temp_dir env) a)); [| discriminate].
  destruct (files w1 !! staged_path (temp_dir env) a) as [actual_file|] eqn:Hfa;
    [| discriminate].
  destruct (can_read env (staged_path (temp_dir env) s)); [| discriminate].
  destruct (files w1 !! staged_path (temp_dir env) s) as [signature_file|] eqn:Hfs;
    [| discriminate].
  injection Hchecked as Hok.
  destruct (save_files_content _ _ _ _ _ _ _ (staged_path (temp_dir env) a) Hsave)
    as [(r & Hr & Hsame & Hfile) | (Hnot & _)]; [| now destruct (Hnot a Ha)].
  apply staged_path_inj in Hsame.
  assert (r = a) as -> by exact (move_files_unique _ _ _ _ _ Hm a r Ha Hr Hartifact Hsame).
  destruct (save_files_content _ _ _ _ _ _ _ (staged_path (temp_dir env) s) Hsave)
    as [(s' & Hs' & Hsame' & Hfile') | (Hnot & _)]; [| now destruct (Hnot s Hs)].
  apply staged_path_inj in Hsame'.
  exists key, s'.
  split; [exact Hkey | split; [exact Hs' | split; [exact Hsame' |]]].
  rewrite Hfa in Hfile. rewrite Hfs in Hfile'.
  injection Hfile as ->. injection Hfile' as ->. exact Hok.
Qed.

End Properties.

(** ** Sample runs *)

#[local] Existing Instance Sample.platform.

(** C2: the embedded key does not convert. The three files are staged, the
    failure is reported and the slot returns; [RemoveRecursive] is not
    called, and the temporary directory and the staged files are still
    there. *)
Theorem temporary_directory_left_after_key_failure :
  let res :=
    ReplyFinished Sample.env_no_key (Sample.last_reply Sample.good) Sample.good in
  events_of res
  = [EvMakeTempDir "/tmp/clementine-aB3x9Q";
     EvSave "/tmp/clementine-aB3x9Q/blob";
     EvSave "/tmp/clementine-aB3x9Q/blob.sha1";
     EvSave "/tmp/clementine-aB3x9Q/libspotify.so.8";
     EvWarning "Failed to load Spotify public key"]
  /\ deleted (world_of res) = true
  /\ elements (dirs (world_of res)) = ["/tmp/clementine-aB3x9Q"]
  /\ files (world_of res) !! "/tmp/clementine-aB3x9Q/blob"
     = Some (mkFile "BLOB" 0x7755).
Proof. vm_compute. repeat split. Qed.

(** C3: the artifact of the batch does not verify against its signature,
    and the temporary directory lies below /tmp/a.sha1. [remove] takes the
    suffix out of the directory name as well, so the file that is checked
    is not the staged artifact. Where an older file stands at the path so
    derived, the check passes on it and the tampered artifact is installed
    with [Finished]; where none stands there, the slot returns without any
    report. *)
Theorem invalid_artifact_is_installed :
  let artifact := nth 0 (replies_ Sample.tampered) (new_reply "") in
  let signature := nth 1 (replies_ Sample.tampered) (new_reply "") in
  let res :=
    ReplyFinished Sample.env_suffix_in_tmp
      (Sample.last_reply Sample.tampered_beside_leftover)
      Sample.tampered_beside_leftover in
  let res_empty :=
    ReplyFinished Sample.env_suffix_in_tmp (Sample.last_reply Sample.tampered)
      Sample.tampered in
  filename_of signature = filename_of artifact +:+ kSignatureSuffix
  /\ verifyMessage tt (body artifact) (body signature) = false
  /\ List.filter is_verify (events_of res)
     = [EvVerify "/tmp/a/clementine-aB3x9Q/blob"
          "/tmp/a.sha1/clementine-aB3x9Q/blob.sha1" true]
  /\ List.filter is_report (events_of res) = [EvFinished]
  /\ files (world_of res) !! "/home/user/.config/Clementine/spotifyblob/blob"
     = Some (mkFile (body artifact) 0x7755)
  /\ flow_of res_empty = Returned
  /\ List.filter is_verify (events_of res_empty) = []
  /\ List.filter is_report (events_of res_empty) = []
  /\ deleted (world_of res_empty) = false.
Proof. vm_compute. repeat split. Qed.

(** C5: the staged artifact cannot be opened for reading. The slot returns
    from the verification loop without a word: no warning, no [Finished],
    and the downloader is not even scheduled for deletion. *)
Theorem unreadable_artifact_is_not_reported :
  let res :=
    ReplyFinished Sample.env_unreadable (Sample.last_reply Sample.good)
      Sample.good in
  flow_of res = Returned
  /\ events_of res
     = [EvMakeTempDir "/tmp/clementine-aB3x9Q";
        EvSave "/tmp/clementine-aB3x9Q/blob";
        EvSave "/tmp/clementine-aB3x9Q/blob.sha1";
        EvSave "/tmp/clementine-aB3x9Q/libspotify.so.8"]
  /\ List.filter is_report (events_of res) = []
  /\ deleted (world_of res) = false.
Proof. vm_compute. repeat split. Qed.

(** C9 as worded fails where the bytes or a length leave the [int] range:
    with 2 GiB received of 2 GiB announced no addition overflows, yet the
    value reported is negative and the maximum is 0. *)
Lemma ReplyProgress_leaves_int_range :
  ReplyProgress Sample.huge
  = Some (Next tt, Sample.huge, [EvSetMaximum 0; EvSetValue (-2147483648)])
  /\ spec_progress (replies_ Sample.huge) = (2147483648, 2147483648)%Z
  /\ ReplyProgress Sample.huge
     <> Some (Next tt, Sample.huge,
              [EvSetMaximum (snd (spec_progress (replies_ Sample.huge)));
               EvSetValue (fst (spec_progress (replies_ Sample.huge)))]).
Proof. vm_compute. repeat split. discriminate. Qed.

(** The barrier theorem on the sample attempt: the first reply is refused
    while the two others are still in flight. *)
Lemma barrier_before_staging_witness :
  reachable Sample.env_ok Sample.started (events_of (Start Sample.fresh))
  /\ deliver Sample.env_ok Sample.refused Sample.started
     = Some (fst Sample.after_refused, snd Sample.after_refused)
  /\ snd Sample.after_refused = [EvWarning "Connection refused"]
  /\ deleted (fst Sample.after_refused) = true
  /\ Forall (fun r => connected r = false /\ isFinished r = true)
       (replies_ (fst Sample.after_refused)).
Proof.
  assert (Hreach :
    reachable Sample.env_ok Sample.started (events_of (Start Sample.fresh))).
  { apply (reach_Start Sample.env_ok Sample.fresh). reflexivity. }
  assert (Hstep :
    deliver Sample.env_ok Sample.refused Sample.started
    = Some (fst Sample.after_refused, snd Sample.after_refused)).
  { vm_compute. reflexivity. }
  split; [exact Hreach | split; [exact Hstep |]].
  destruct (barrier_before_staging Sample.env_ok _ _ _ _ _ _ _ Hreach Hstep)
    as [_ Hfailed].
  destruct (Hfailed "Connection refused" eq_refl) as (He & Hd & Hr & _).
  split; [exact He | split; [exact Hd | exact Hr]].
Defined.

(** The batch whose key does not load. *)
Lemma key_failure_blocks_install_witness :
  public_key Sample.env_no_key = None
  /\ List.filter is_verify
       (events_of (ReplyFinished Sample.env_no_key
                     (Sample.last_reply Sample.good) Sample.good)) = []
  /\ List.filter touches_destination
       (events_of (ReplyFinished Sample.env_no_key
                     (Sample.last_reply Sample.good) Sample.good)) = [].
Proof.
  split; [reflexivity |].
  destruct (key_failure_blocks_install Sample.env_no_key
              (Sample.last_reply Sample.good) Sample.good eq_refl)
    as (Hverify & Htouch & _).
  split; [exact Hverify | exact Htouch].
Defined.

(** The sample batch installed. *)
Lemma success_moves_artifacts_witness :
  In EvFinished
    (events_of (ReplyFinished Sample.env_ok (Sample.last_reply Sample.good)
                  Sample.good))
  /\ List.filter is_rename
       (events_of (ReplyFinished Sample.env_ok (Sample.last_reply Sample.good)
                     Sample.good))
     = [EvRename "/tmp/clementine-aB3x9Q/blob"
          "/home/user/.config/Clementine/spotifyblob/blob";
        EvRename "/tmp/clementine-aB3x9Q/libspotify.so.8"
          "/home/user/.config/Clementine/spotifyblob/libspotify.so.8"]
  /\ List.filter is_report
       (events_of (ReplyFinished Sample.env_ok (Sample.last_reply Sample.good)
                     Sample.good))
     = [EvFinished]
  /\ files (world_of (ReplyFinished Sample.env_ok (Sample.last_reply Sample.good)
                        Sample.good))
     !! "/home/user/.config/Clementine/spotifyblob/libspotify.so.8"
     = Some (mkFile "LIB" 0x7755).
Proof.
  assert (Hsuccess :
    In EvFinished
      (events_of (ReplyFinished Sample.env_ok (Sample.last_reply Sample.good)
                    Sample.good))).
  { vm_compute. repeat first [left; reflexivity | right]. }
  split; [exact Hsuccess |].
  destruct (success_moves_artifacts Sample.env_ok
              (Sample.last_reply Sample.good) Sample.good Hsuccess)
    as (Hmoves & _ & Hreports & Hfiles).
  split; [rewrite Hmoves; vm_compute; reflexivity |].
  split; [exact Hreports |].
  assert (Hlast : In (Sample.last_reply Sample.good) (replies_ Sample.good)).
  { vm_compute. repeat first [left; reflexivity | right]. }
  exact (Hfiles (Sample.last_reply Sample.good) Hlast eq_refl).
Defined.

(** The sample batch with the second move refused: blob stays installed. *)
Lemma move_failure_keeps_earlier_moves_witness :
  flow_of (move_files Sample.env_move_fails (temp_dir Sample.env_move_fails)
             (replies_ Sample.good)
             (set_dirs ({[path_ Sample.good]}
                        ∪ dirs (world_of (stage Sample.env_move_fails Sample.good)))
                (world_of (stage Sample.env_move_fails Sample.good))))
  = Returned
  /\ exists before reply after,
       replies_ Sample.good = before ++ reply :: after
       /\ List.filter is_report
            (events_of (ReplyFinished Sample.env_move_fails
                          (Sample.last_reply Sample.good) Sample.good))
          = [EvWarning ("Writing file failed: " +:+ dest_path_of Sample.good reply)]
       /\ forall r, In r before -> is_signature r = false ->
            is_Some (files (world_of (ReplyFinished Sample.env_move_fails
                                        (Sample.last_reply Sample.good)
                                        Sample.good))
                     !! dest_path_of Sample.good r).
Proof.
  assert (Hstaged :
    flow_of (stage Sample.env_move_fails Sample.good)
    = Next (Sample.temp, [Sample.temp +:+ "/blob.sha1"])).
  { vm_compute. reflexivity. }
  assert (Hverified :
    flow_of (verify_signatures Sample.env_move_fails tt
               (snd (Sample.temp, [Sample.temp +:+ "/blob.sha1"]))
               (world_of (stage Sample.env_move_fails Sample.good)))
    = Next tt).
  { vm_compute. reflexivity. }
  assert (Hfailed :
    flow_of (move_files Sample.env_move_fails (temp_dir Sample.env_move_fails)
               (replies_ Sample.good)
               (set_dirs ({[path_ Sample.good]}
                          ∪ dirs (world_of (stage Sample.env_move_fails Sample.good)))
                  (world_of (stage Sample.env_move_fails Sample.good))))
    = Returned).
  { vm_compute. reflexivity. }
  split; [exact Hfailed |].
  destruct (move_failure_keeps_earlier_moves Sample.env_move_fails
              (Sample.last_reply Sample.good) Sample.good tt _
              eq_refl eq_refl Hstaged eq_refl Hverified Hfailed)
    as (before & reply & after & Hsplit & _ & _ & _ & _ & Hreport & _ & _ & _ & Hkept).
  exists before, reply, after.
  split; [exact Hsplit | split; [exact Hreport | exact Hkept]].
Defined.

(** Three replies in flight: 1020 bytes of 5700 announced. *)
Lemma ReplyProgress_reports_int_sums_witness :
  ReplyProgress Sample.in_flight
  = Some (Next tt, Sample.in_flight, [EvSetMaximum 5700; EvSetValue 1020]).
Proof.
  assert (Hbytes :
    Forall (fun reply => addable (bytesAvailable reply))
      (replies_ Sample.in_flight)).
  { cbn.
    repeat (apply List.Forall_cons;
            [unfold addable, INT64_MIN, INT64_MAX, INT_MIN, INT_MAX; cbn; lia |]).
    apply List.Forall_nil. }
  assert (Htotals :
    Forall in_int
      (running_sums (fun reply => toInt (content_length reply))
         (replies_ Sample.in_flight) 0)).
  { cbn.
    repeat (apply List.Forall_cons; [vm_compute; split; discriminate |]).
    apply List.Forall_nil. }
  destruct (ReplyProgress_reports_int_sums Sample.in_flight Hbytes Htotals)
    as (_ & _ & Hexact).
  rewrite Hexact; [reflexivity | |].
  - cbn.
    repeat (apply List.Forall_cons;
            [intros n Hn; cbn in Hn; try discriminate Hn; injection Hn as <-;
             unfold in_int, INT_MIN, INT_MAX; lia |]).
    apply List.Forall_nil.
  - unfold in_int, INT_MIN, INT_MAX. cbn. lia.
Defined.


(** ** Sample runs of the further properties *)

(** The sample batch staged: one signature, two files to install. *)
Lemma signatures_are_the_files_not_installed_witness :
  snd (Sample.temp, [Sample.temp +:+ "/blob.sha1"])
  = map (staged_path (temp_dir Sample.env_ok))
      (List.filter is_signature (replies_ Sample.good))
  /\ length (snd (Sample.temp, [Sample.temp +:+ "/blob.sha1"]))
     + length (artifacts (replies_ Sample.good))
     = length (replies_ Sample.good).
Proof.
  assert (Hstaged :
    flow_of (stage Sample.env_ok Sample.good)
    = Next (Sample.temp, [Sample.temp +:+ "/blob.sha1"])).
  { vm_compute. reflexivity. }
  destruct (signatures_are_the_files_not_installed Sample.env_ok Sample.good _
              Hstaged) as (Hsigs & _ & Hcount).
  split; [exact Hsigs | exact Hcount].
Defined.

(** The one check of the sample batch is that of blob against blob.sha1. *)
Lemma checks_come_from_signature_files_witness :
  exists reply key,
    In reply (replies_ Sample.good)
    /\ is_signature reply = true
    /\ "/tmp/clementine-aB3x9Q/blob.sha1"
       = staged_path (temp_dir Sample.env_ok) reply
    /\ "/tmp/clementine-aB3x9Q/blob"
       = QString.remove "/tmp/clementine-aB3x9Q/blob.sha1" kSignatureSuffix
    /\ public_key Sample.env_ok = Some key
    /\ verifies Sample.env_ok key (world_of (stage Sample.env_ok Sample.good))
         "/tmp/clementine-aB3x9Q/blob.sha1"
       = Some true.
Proof.
  apply (checks_come_from_signature_files Sample.env_ok
           (Sample.last_reply Sample.good) Sample.good).
  vm_compute. repeat first [left; reflexivity | right].
Defined.

(** The corrupted batch: the one check fails and is the last. *)
Lemma verification_stops_at_first_failure_witness :
  List.filter is_verify
    (events_of (ReplyFinished Sample.env_ok (Sample.last_reply Sample.corrupted)
                  Sample.corrupted))
  = [EvVerify
       (QString.remove (Sample.temp +:+ "/blob.sha1") kSignatureSuffix)
       (Sample.temp +:+ "/blob.sha1") false]
  /\ List.filter is_report
       (events_of (ReplyFinished Sample.env_ok (Sample.last_reply Sample.corrupted)
                     Sample.corrupted))
     = [EvWarning ("Invalid signature: "
                   +:+ QString.remove (Sample.temp +:+ "/blob.sha1")
                         kSignatureSuffix)].
Proof.
  assert (Hstaged :
    flow_of (stage Sample.env_ok Sample.corrupted)
    = Next (Sample.temp, [Sample.temp +:+ "/blob.sha1"])).
  { vm_compute. reflexivity. }
  assert (Hbad :
    verifies Sample.env_ok tt (world_of (stage Sample.env_ok Sample.corrupted))
      (Sample.temp +:+ "/blob.sha1")
    = Some false).
  { vm_compute. reflexivity. }
  destruct (verification_stops_at_first_failure Sample.env_ok
              (Sample.last_reply Sample.corrupted) Sample.corrupted tt
              (Sample.temp, [Sample.temp +:+ "/blob.sha1"])
              [] (Sample.temp +:+ "/blob.sha1") []
              eq_refl eq_refl Hstaged eq_refl eq_refl (List.Forall_nil _) Hbad)
    as (Hchecks & Hreport & _).
  split; [exact Hchecks | exact Hreport].
Defined.

(** The sample batch reaches the destination, [mkpath] first. *)
Lemma destination_touched_only_after_verification_witness :
  exists key staged rest,
    error (Sample.last_reply Sample.good) = None
    /\ forallb isFinished (replies_ Sample.good) = true
    /\ flow_of (stage Sample.env_ok Sample.good) = Next staged
    /\ public_key Sample.env_ok = Some key
    /\ Forall (fun s => verifies Sample.env_ok key
                          (world_of (stage Sample.env_ok Sample.good)) s
                        = Some true)
         (snd staged)
    /\ List.filter touches_destination
         (events_of (ReplyFinished Sample.env_ok (Sample.last_reply Sample.good)
                       Sample.good))
       = EvMkpath (path_ Sample.good) :: rest.
Proof.
  apply (destination_touched_only_after_verification Sample.env_ok
           (Sample.last_reply Sample.good) Sample.good).
  vm_compute. discriminate.
Defined.

(** The sample batch installed: the whole run, and the staging gone. *)
Lemma success_removes_temporary_directory_witness :
  events_of (ReplyFinished Sample.env_ok (Sample.last_reply Sample.good)
               Sample.good)
  = [EvMakeTempDir "/tmp/clementine-aB3x9Q";
     EvSave "/tmp/clementine-aB3x9Q/blob";
     EvSave "/tmp/clementine-aB3x9Q/blob.sha1";
     EvSave "/tmp/clementine-aB3x9Q/libspotify.so.8";
     EvVerify "/tmp/clementine-aB3x9Q/blob" "/tmp/clementine-aB3x9Q/blob.sha1" true;
     EvMkpath "/home/user/.config/Clementine/spotifyblob";
     EvRename "/tmp/clementine-aB3x9Q/blob"
       "/home/user/.config/Clementine/spotifyblob/blob";
     EvRename "/tmp/clementine-aB3x9Q/libspotify.so.8"
       "/home/user/.config/Clementine/spotifyblob/libspotify.so.8";
     EvRemoveRecursive "/tmp/clementine-aB3x9Q";
     EvFinished]
  /\ files (world_of (ReplyFinished Sample.env_ok (Sample.last_reply Sample.good)
                        Sample.good))
     !! "/tmp/clementine-aB3x9Q/blob.sha1" = None
  /\ (Sample.temp
      ∉ dirs (world_of (ReplyFinished Sample.env_ok
                          (Sample.last_reply Sample.good) Sample.good)))
  /\ path_ Sample.good
     ∈ dirs (world_of (ReplyFinished Sample.env_ok
                         (Sample.last_reply Sample.good) Sample.good)).
Proof.
  assert (Hsuccess :
    In EvFinished
      (events_of (ReplyFinished Sample.env_ok (Sample.last_reply Sample.good)
                    Sample.good))).
  { vm_compute. repeat first [left; reflexivity | right]. }
  destruct (success_removes_temporary_directory Sample.env_ok
              (Sample.last_reply Sample.good) Sample.good Hsuccess)
    as (Hevents & Hgone & Hbelow & _ & Hdest & _).
  split; [rewrite Hevents; vm_compute; reflexivity |].
  split; [apply Hbelow; reflexivity |].
  split; [apply Hgone; now left |].
  apply (Hdest ∅); [reflexivity | discriminate | reflexivity].
Defined.

(** The signature cannot be written: blob is saved, then the warning. *)
Lemma write_failure_stops_the_install_witness :
  events_of (ReplyFinished Sample.env_no_space (Sample.last_reply Sample.good)
               Sample.good)
  = EvMakeTempDir (temp_dir Sample.env_no_space)
    :: (map (fun reply => EvSave (staged_path (temp_dir Sample.env_no_space) reply))
          (firstn 1 (replies_ Sample.good))
        ++ [EvWarning "Failed to open file for writing: /tmp/clementine-aB3x9Q/blob.sha1"])
  /\ temp_dir Sample.env_no_space
     ∈ dirs (world_of (ReplyFinished Sample.env_no_space
                          (Sample.last_reply Sample.good) Sample.good)).
Proof.
  assert (Hwritable :
    Forall (fun reply =>
              can_write Sample.env_no_space
                (staged_path (temp_dir Sample.env_no_space) reply) = true)
      (firstn 1 (replies_ Sample.good))).
  { apply List.Forall_cons; [vm_compute; reflexivity | apply List.Forall_nil]. }
  destruct (write_failure_stops_the_install Sample.env_no_space
              (Sample.last_reply Sample.good) Sample.good
              (firstn 1 (replies_ Sample.good))
              (nth 1 (replies_ Sample.good) (new_reply ""))
              (skipn 2 (replies_ Sample.good))
              eq_refl eq_refl eq_refl Hwritable eq_refl)
    as (Hevents & _ & _ & _ & Hdir & _).
  split; [exact Hevents | exact Hdir].
Defined.

(** The sample batch installed: the destination was empty before. *)
Lemma success_needs_free_distinct_names_witness :
  NoDup (map filename_of (artifacts (replies_ Sample.good)))
  /\ files Sample.good
     !! ((path_ Sample.good +:+ "/")
         +:+ filename_of (Sample.last_reply Sample.good))
     = None.
Proof.
  assert (Hsuccess :
    In EvFinished
      (events_of (ReplyFinished Sample.env_ok (Sample.last_reply Sample.good)
                    Sample.good))).
  { vm_compute. repeat first [left; reflexivity | right]. }
  destruct (success_needs_free_distinct_names Sample.env_ok
              (Sample.last_reply Sample.good) Sample.good Hsuccess)
    as (_ & Hnames & Hfree).
  split; [exact Hnames |].
  assert (Hlast : In (Sample.last_reply Sample.good) (replies_ Sample.good)).
  { vm_compute. repeat first [left; reflexivity | right]. }
  exact (proj1 (Hfree (Sample.last_reply Sample.good) Hlast eq_refl)).
Defined.

(** The sample batch meets every condition, and is installed. *)
Lemma sound_batch_is_installed_witness :
  flow_of (ReplyFinished Sample.env_ok (Sample.last_reply Sample.good)
             Sample.good) = Next tt
  /\ List.filter is_report
       (events_of (ReplyFinished Sample.env_ok (Sample.last_reply Sample.good)
                     Sample.good))
     = [EvFinished].
Proof.
  assert (Hwritable :
    Forall (fun reply =>
              can_write Sample.env_ok (staged_path (temp_dir Sample.env_ok) reply)
              = true)
      (replies_ Sample.good)).
  { apply List.Forall_forall. intros reply _. reflexivity. }
  assert (Hnames : NoDup (map filename_of (replies_ Sample.good))).
  { apply (bool_decide_unpack (NoDup (map filename_of (replies_ Sample.good)))).
    vm_compute. exact I. }
  assert (Hpairs : forall s, In s (replies_ Sample.good) ->
    QString.endsWith (filename_of s) kSignatureSuffix = true ->
    exists a,
      In a (replies_ Sample.good)
      /\ filename_of s = filename_of a +:+ kSignatureSuffix
      /\ (forall i,
            i < String.length ((temp_dir Sample.env_ok +:+ "/") +:+ filename_of a) ->
            QString.occurs_at kSignatureSuffix
              ((temp_dir Sample.env_ok +:+ "/") +:+ filename_of s) i = false)
      /\ can_read Sample.env_ok ((temp_dir Sample.env_ok +:+ "/") +:+ filename_of a)
         = true
      /\ can_read Sample.env_ok ((temp_dir Sample.env_ok +:+ "/") +:+ filename_of s)
         = true
      /\ verifyMessage tt (body a) (body s) = true).
  { intros s Hs Hsig. vm_compute in Hs.
    destruct Hs as [<- | [<- | [<- | []]]]; try discriminate Hsig.
    exists (nth 0 (replies_ Sample.good) (new_reply "")).
    split; [vm_compute; now left |].
    split; [vm_compute; reflexivity |].
    split; [| split; [reflexivity | split; [reflexivity | vm_compute; reflexivity]]].
    intros i Hi. vm_compute in Hi.
    do 27 (destruct i as [|i]; [vm_compute; reflexivity |]).
    exfalso. revert Hi. clear. intros Hi.
    do 27 (apply le_S_n in Hi). inversion Hi. }
  assert (Hfree : forall reply, In reply (replies_ Sample.good) ->
    QString.endsWith (filename_of reply) kSignatureSuffix = false ->
    files Sample.good !! ((path_ Sample.good +:+ "/") +:+ filename_of reply) = None
    /\ can_rename Sample.env_ok
         ((temp_dir Sample.env_ok +:+ "/") +:+ filename_of reply)
         ((path_ Sample.good +:+ "/") +:+ filename_of reply) = true).
  { intros reply _ _. split; reflexivity. }
  assert (Hne : temp_dir Sample.env_ok <> path_ Sample.good) by discriminate.
  destruct (sound_batch_is_installed Sample.env_ok
              (Sample.last_reply Sample.good) Sample.good tt
              eq_refl eq_refl Hwritable eq_refl Hnames Hpairs Hfree Hne)
    as (Hflow & _ & Hreport).
  split; [exact Hflow | exact Hreport].
Defined.

(** The attempt is cancelled and the refusal of the first reply, queued
    before, is still served: the warning is the last event. *)
Lemma report_is_the_last_event_witness :
  possible Sample.env_ok (fst Sample.refused_after_cancel)
    ((events_of (Start Sample.fresh) ++ []) ++ snd Sample.refused_after_cancel)
  /\ (List.filter is_report
        ((events_of (Start Sample.fresh) ++ [])
         ++ snd Sample.refused_after_cancel) = []
      \/ exists before e,
           (events_of (Start Sample.fresh) ++ [])
           ++ snd Sample.refused_after_cancel
           = before ++ [e]
           /\ List.filter is_report before = []
           /\ is_report e = true
           /\ deleted (fst Sample.refused_after_cancel) = true
           /\ Forall (fun reply => isFinished reply = true
                                   \/ connected reply = false)
                (replies_ (fst Sample.refused_after_cancel))).
Proof.
  assert (Hposs :
    possible Sample.env_ok (fst Sample.refused_after_cancel)
      ((events_of (Start Sample.fresh) ++ [])
       ++ snd Sample.refused_after_cancel)).
  { apply poss_signal with Sample.cancelled Sample.refused.
    - apply poss_signal with Sample.started canceled.
      + apply (poss_Start Sample.env_ok Sample.fresh).
      + reflexivity.
    - vm_compute. reflexivity. }
  split; [exact Hposs |].
  exact (proj1 (report_is_the_last_event Sample.env_ok _ _ Hposs)).
Defined.

(** The library first, then the artifact, then its signature. *)
Lemma finish_order_does_not_matter_witness :
  run Sample.env_ok
    [finished 2 None "LIB"; finished 0 None "BLOB"; finished 1 None "signed:BLOB"]
    Sample.started
  = Some (world_of (finish_install Sample.env_ok Sample.good),
          events_of (finish_install Sample.env_ok Sample.good)).
Proof.
  assert (Horder : Permutation [2; 0; 1] [0; 1; 2]).
  { symmetry. apply permutations_Permutation.
    do 4 apply list_elem_of_further. apply list_elem_of_here. }
  exact (finish_order_does_not_matter Sample.env_ok "0.9"
           "/home/user/.config/Clementine/spotifyblob" ∅ ∅
           "BLOB" "signed:BLOB" "LIB" [2; 0; 1] Horder).
Defined.

(** 1064 bytes of 5764 announced. *)
Lemma progress_stays_within_maximum_witness :
  exists maximum value,
    ReplyProgress Sample.announced
    = Some (Next tt, Sample.announced, [EvSetMaximum maximum; EvSetValue value])
    /\ maximum = snd (spec_progress (replies_ Sample.announced))
    /\ value = fst (spec_progress (replies_ Sample.announced))
    /\ (0 <= value <= maximum)%Z
    /\ (value = maximum
        <-> Forall (fun reply => Some (bytesAvailable reply) = content_length reply)
              (replies_ Sample.announced)).
Proof.
  apply (progress_stays_within_maximum Sample.announced).
  - cbn.
    repeat (apply List.Forall_cons;
            [eexists; split; [reflexivity | cbn; lia] |]).
    apply List.Forall_nil.
  - unfold in_int, INT_MIN, INT_MAX. cbn. lia.
Defined.

(** The corrupted batch: the warning finds every reply stopped. *)
Lemma warning_stops_every_reply_witness :
  Forall (fun reply => isFinished reply = true /\ connected reply = false)
    (replies_ (world_of (ReplyFinished Sample.env_ok
                           (Sample.last_reply Sample.corrupted)
                           Sample.corrupted)))
  /\ deleted (world_of (ReplyFinished Sample.env_ok
                          (Sample.last_reply Sample.corrupted)
                          Sample.corrupted)) = true.
Proof.
  assert (Hwarned :
    In (EvWarning "Invalid signature: /tmp/clementine-aB3x9Q/blob")
      (events_of (ReplyFinished Sample.env_ok (Sample.last_reply Sample.corrupted)
                    Sample.corrupted))).
  { vm_compute. repeat first [left; reflexivity | right]. }
  destruct (warning_stops_every_reply Sample.env_ok
              (Sample.last_reply Sample.corrupted) Sample.corrupted _ Hwarned)
    as (_ & Hstopped & Hdeleted & _).
  split; [exact Hstopped | exact Hdeleted].
Defined.

(** The sample batch: libspotify.so.8 is moved, and was never checked. *)
Lemma library_is_installed_unchecked_witness :
  map filename_of (replies_ Sample.good) = filenames
  /\ In (EvRename "/tmp/clementine-aB3x9Q/libspotify.so.8"
           "/home/user/.config/Clementine/spotifyblob/libspotify.so.8")
       (events_of (ReplyFinished Sample.env_ok (Sample.last_reply Sample.good)
                     Sample.good)).
Proof.
  assert (Hnames : map filename_of (replies_ Sample.good) = filenames).
  { vm_compute. reflexivity. }
  assert (Hsuccess :
    In EvFinished
      (events_of (ReplyFinished Sample.env_ok (Sample.last_reply Sample.good)
                    Sample.good))).
  { vm_compute. repeat first [left; reflexivity | right]. }
  split; [exact Hnames |].
  exact (proj2 (library_is_installed_unchecked Sample.env_ok
                  (Sample.last_reply Sample.good) Sample.good Hnames)
           Hsuccess).
Defined.

(** The sample batch: blob is installed, verified against blob.sha1. *)
Lemma installed_artifact_matches_its_signature_witness :
  exists key s',
    public_key Sample.env_ok = Some key
    /\ In s' (replies_ Sample.good)
    /\ filename_of s' = filename_of (nth 1 (replies_ Sample.good) (new_reply ""))
    /\ verifyMessage key (body (nth 0 (replies_ Sample.good) (new_reply "")))
         (body s')
       = true.
Proof.
  apply (installed_artifact_matches_its_signature Sample.env_ok
           (Sample.last_reply Sample.good) Sample.good).
  - vm_compute. repeat first [left; reflexivity | right].
  - vm_compute. repeat first [left; reflexivity | right].
  - vm_compute. repeat first [left; reflexivity | right].
  - vm_compute. reflexivity.
  - vm_compute. reflexivity.
  - vm_compute. reflexivity.
Defined.
